(** * Thoughtspace: the Yjs data provider of em

    A shallow embedding of [src/data-providers/yjs/thoughtspace.ts].

    The module keeps process-wide caches of Y.Docs and of their IndexedDB and
    websocket providers, keyed by document key, and exposes asynchronous
    operations over them.  JavaScript runs one synchronous segment at a time,
    so an [async] function is embedded as a tree of state reads, state
    updates and suspension points ([Await]); executing such a tree on a state
    runs exactly the code up to the next [await]. *)

From stdpp Require Import gmap strings list.
From Stdlib Require Import ZArith.

(** ** JavaScript strings *)

Module Js.

(** [s.includes(needle)]. *)
Fixpoint includes (needle s : string) : bool :=
  String.prefix needle s ||
  match s with
  | EmptyString => false
  | String _ s' => includes needle s'
  end.

(** [s.split(sep)] for a non-empty separator: the pieces between successive
    non-overlapping occurrences of [sep], scanning from the left.  [skip]
    counts the characters of a matched separator still to be dropped and
    [cur] is the piece being read. *)
Fixpoint split_go (sep : string) (skip : nat) (cur s : string) : list string :=
  match s with
  | EmptyString => [cur]
  | String c s' =>
      match skip with
      | S n => split_go sep n cur s'
      | O =>
          if String.prefix sep s
          then cur :: split_go sep (String.length sep - 1) "" s'
          else split_go sep 0 (cur +:+ String c "") s'
      end
  end.

Definition split (sep s : string) : list string := split_go sep 0 "" s.

(** Truthiness of a string: only the empty string is falsy. *)
Definition truthy (s : string) : bool :=
  match s with EmptyString => false | _ => true end.

(** An [Error] object as the handlers read it: [e.name] and [e.message]. *)
Record Error := mkError { name : string; message : string }.

End Js.

(** ** Y.Map

    A Y.Map keeps its entries in a JavaScript [Map] from key to the last item
    written under that key; a deleted key keeps its slot with a deleted item.
    Iteration is in order of first insertion and skips deleted items. *)

Module YMap.

Definition t (V : Type) : Type := list (string * option V).

Section Ops.
Context {V : Type}.

Fixpoint get (k : string) (m : t V) : option V :=
  match m with
  | [] => None
  | (k', v) :: m' => if decide (k = k') then v else get k m'
  end.

Definition has (k : string) (m : t V) : bool :=
  match get k m with Some _ => true | None => false end.

Fixpoint set (k : string) (v : V) (m : t V) : t V :=
  match m with
  | [] => [(k, Some v)]
  | (k', v') :: m' =>
      if decide (k = k') then (k', Some v) :: m' else (k', v') :: set k v m'
  end.

Fixpoint delete (k : string) (m : t V) : t V :=
  match m with
  | [] => []
  | (k', v') :: m' =>
      if decide (k = k') then (k', None) :: m' else (k', v') :: delete k m'
  end.

(** [toJSON] / [entries()]: the live entries in iteration order. *)
Fixpoint entries (m : t V) : list (string * V) :=
  match m with
  | [] => []
  | (k, Some v) :: m' => (k, v) :: entries m'
  | (_, None) :: m' => entries m'
  end.

Definition keys (m : t V) : list string := fst <$> entries m.
Definition values (m : t V) : list V := snd <$> entries m.
Definition size (m : t V) : nat := length (entries m).
End Ops.

End YMap.

(** ** Application types *)

(** [Index<T>]: a plain object used as an ordered dictionary. *)
Definition Index (T : Type) : Type := list (string * T).

(** A [Thought] as [getThought] builds it.  A field is [None] when the
    stored record has no value under the corresponding key. *)
Module Thought.
Record t := mk {
  id : string;
  childrenMap : option (Index string);
  created : option string;
  lastUpdated : option string;
  parentId : option string;
  rank : option Z;
  updatedBy : option string;
  value : option string;
  archived : option string;
}.
End Thought.

(** A [Lexeme].  [getLexeme] builds it one key at a time, so the scalar
    fields are [None] when the document does not hold them. *)
Module Lexeme.
Record t := mk {
  contexts : list string;
  created : option string;
  lastUpdated : option string;
  updatedBy : option string;
}.
End Lexeme.

(** Values held by the Y.Map of one thought ([ThoughtYjs]): timestamps, ids
    and strings, the rank, and the children map, which is either a nested
    Y.Map or a plain object and reads in both cases as an [Index]. *)
Inductive YVal :=
| YStr (s : string)
| YNum (z : Z)
| YIdx (m : Index string).

Definition as_str (v : option YVal) : option string :=
  match v with Some (YStr s) => Some s | _ => None end.
Definition as_num (v : option YVal) : option Z :=
  match v with Some (YNum z) => Some z | _ => None end.
Definition as_idx (v : option YVal) : option (Index string) :=
  match v with Some (YIdx m) => Some m | _ => None end.

(** A Y.Doc with the three root maps this module uses:
    [getMap('thought')] (values are a ThoughtId or [null], here [None]),
    [getMap('children')] and the default [getMap()] of a Lexeme doc.
    [lexemeObservers] counts the [onLexemeChange] listeners of the default
    map and [thoughtObservers] lists the [onThoughtChange(id)] listeners. *)
Record YDoc := mkDoc {
  guid : string;
  destroyed : bool;
  thoughtMap : YMap.t (option string);
  childrenYMap : YMap.t (YMap.t YVal);
  lexemeMap : YMap.t string;
  lexemeObservers : nat;
  thoughtObservers : list string;
}.

Definition emptyDoc (g : string) : YDoc :=
  mkDoc g false [] [] [] 0 [].

(** An [IndexeddbPersistence] and a [HocuspocusProvider]: name and bound doc. *)
Record Persistence := mkPersistence { p_name : string; p_doc : nat }.
Record Provider := mkProvider {
  w_name : string; w_doc : nat; w_status : string; w_destroyed : bool }.

(** The options of [replicateChildren]; [onDoc] tells whether a callback was
    passed. *)
Record ReplicateOptions := mkOptions {
  background : bool; onDoc : bool; remote : bool }.

Definition defaultOptions : ReplicateOptions := mkOptions false false true.

(** [PushBatch]: [None] as a value is the explicit [null] deletion marker. *)
Record PushBatch := mkBatch {
  thoughtIndexUpdates : gmap string (option Thought.t);
  lexemeIndexUpdates : gmap string (option Lexeme.t);
  lexemeIndexUpdatesOld : gmap string (option Lexeme.t);
}.

(** The part of the resolved [ThoughtspaceConfig] that the code reads.  The
    [isThoughtLoaded] and [isLexemeLoaded] selectors are given by the value
    their promise resolves to; the notification callbacks are recorded in the
    trace (see [Event]). *)
Record Config := mkConfig {
  accessToken : string;
  tsid : string;
  tsidShared : option string;
  isThoughtLoaded : Thought.t -> bool;
  isLexemeLoaded : string -> option Lexeme.t -> bool;
}.

(** ** Constants and helpers imported from other modules

    [constants.ts] and [documentNameEncoder.ts] are outside this file; their
    values are parameters of the development. *)
Record Env := mkEnv {
  HOME_TOKEN : string;
  EM_TOKEN : string;
  ABSOLUTE_TOKEN : string;
  ROOT_PARENT_ID : string;
  ROOT_CONTEXTS : list string;
  WEBSOCKET_TIMEOUT : nat;
(** [import.meta.env.MODE] *)
MODE : string;
encodeThoughtDocumentName : string -> string -> string;
encodeLexemeDocumentName : string -> string -> string;
(** the [id] component of [parseDocumentName] *)
parseDocumentName : string -> string;
(** [status] of a freshly constructed [HocuspocusProvider] *)
initialStatus : string;
}.

(** Number of milliseconds after which to retry a failed IndexeddbPersistence sync. *)
Definition IDB_ERROR_RETRY : nat := 1000.

(** Number of milliseconds to throttle dispatching updateThoughts. *)
Definition UPDATE_THOUGHTS_THROTTLE : nat := 100.

(** Maps Lexeme keys to LexemeDb keys. *)
Inductive LexemeKey := KCreated | KLastUpdated | KContexts | KUpdatedBy.

Definition lexemeKeyToDb (k : LexemeKey) : string :=
  match k with
  | KCreated => "c"
  | KLastUpdated => "l"
  | KContexts => "x"
  | KUpdatedBy => "u"
  end.

(** The property name of a Lexeme key. *)
Definition lexemeKeyName (k : LexemeKey) : string :=
  match k with
  | KCreated => "created"
  | KLastUpdated => "lastUpdated"
  | KContexts => "contexts"
  | KUpdatedBy => "updatedBy"
  end.

(** Maps LexemeDb keys to Lexeme keys. *)
Definition lexemeKeyFromDb (k : string) : option LexemeKey :=
  if decide (k = "c") then Some KCreated
  else if decide (k = "l") then Some KLastUpdated
  else if decide (k = "x") then Some KContexts
  else if decide (k = "u") then Some KUpdatedBy
  else None.

(** How a promise settles. *)
Inductive Settled := Fulfilled | Rejected (e : Js.Error).

(** ** Observable effects

    Object constructions and destructions, calls into the storage engine,
    calls of the application callbacks, and the settling of a provider's own
    promise ([whenSynced] of a persistence, the [synced] event of a websocket
    provider), in program order. *)
Inductive Event :=
| EvNewDoc (d : nat) (g : string)
| EvNewPersistence (p : nat) (n : string) (d : nat)
| EvNewProvider (w : nat) (n : string) (d : nat)
| EvDestroyDoc (d : nat)
| EvDestroyProvider (w : nat)
| EvClearData (p : nat)
| EvClearDocument (n : string)
| EvOnDoc (d : nat)
| EvOnError (msg : string) (e : Js.Error)
| EvConsoleError (msg : string)
| EvOnThoughtIDBSynced (t : Thought.t) (bg : bool)
| EvOnThoughtReplicated (i : string) (t : option Thought.t)
| EvOnThoughtChange (t : Thought.t)
| EvOnUpdateThoughts (b : PushBatch) (local rem repairCursor : bool)
| EvSettled (provider : nat) (o : Settled).

(** Callbacks handed to [setTimeout]. *)
Inductive TimerAction :=
| TaReplicateChildren (docKey : string) (o : ReplicateOptions)
| TaReplicateLexeme (key : string) (bg : bool)
| TaUpdateLexeme (key : string) (lexemeNew : Lexeme.t) (lexemeOld : option Lexeme.t)
| TaDispatch (merged : PushBatch)
| TaThrottleWindow.

(** What an [await] waits for. *)
Inductive Awaited :=
| AwConfig                              (* the module-level [config] promise *)
| AwPromise (p : option nat)            (* a promise read from a cache, or [undefined] *)
| AwWhenSynced (pers : option nat)      (* [persistence?.whenSynced] *)
| AwRace (p : option nat) (ms : nat)    (* [Promise.race([p, sleep(ms)])] *)
| AwCleared (n : string)                (* the promise of [clearData] / [clearDocument] *)
| AwTick.                               (* a settled promise or a plain value *)

(** Work started without being awaited: a [freeThought] or [freeLexeme]
    call whose promise is dropped, with what the call is suspended on, and
    the callbacks hung on the [config] promise with [config.then]. *)
Inductive Floating :=
| FlFreeThought (docKey : string) (aw : Awaited)
| FlFreeLexeme (key : string) (aw : Awaited)
| FlOnThoughtChange (t : Thought.t)
| FlOnError (msg : string) (e : Js.Error)
| FlOnUpdateThoughts (merged : PushBatch).

(** The promises built from a provider's own promise by attaching handlers.
    The handlers are the programs [onIdbSynced] etc. below. *)
Inductive PromiseKind :=
| PkThoughtIdbSynced (docKey : string) (doc pers : nat) (prov ws : option nat)
    (o : ReplicateOptions)
| PkThoughtWebsocketSynced (docKey : string) (doc prov : nat)
| PkLexemeIdbSynced (key : string) (bg : bool) (pers : nat)
| PkLexemeWebsocketSynced (prov : nat)
| PkDoclogBlockSynced (doc pers : nat).

(** ** Module state *)

(** The six module-level collections kept per kind of document. *)
Record ShardCache := mkCache {
  docs : gmap string nat;
  persistence : gmap string nat;
  retained : gset string;
  websocketProvider : gmap string nat;
  idbSynced : gmap string nat;
  websocketSynced : gmap string nat;
}.

Definition emptyCache : ShardCache := mkCache ∅ ∅ ∅ ∅ ∅ ∅.

Record State := mkState {
  thoughts : ShardCache;
  lexemes : ShardCache;
(** Map all known thought ids to document keys. *)
docKeys : gmap string string;
configCache : option Config;
(** the objects allocated so far *)
docHeap : gmap nat YDoc;
persHeap : gmap nat Persistence;
provHeap : gmap nat Provider;
promises : gmap nat PromiseKind;
nextId : nat;
(** the event loop's pending timers and dropped promises *)
timers : list (nat * TimerAction);
floating : list Floating;
(** accumulator and window of [updateThoughtsThrottled] *)
throttleAccum : list PushBatch;
throttleWindow : bool;
trace : list Event;
}.

Definition thoughtDocs (s : State) := docs (thoughts s).
Definition thoughtPersistence (s : State) := persistence (thoughts s).
Definition thoughtRetained (s : State) := retained (thoughts s).
Definition thoughtWebsocketProvider (s : State) := websocketProvider (thoughts s).
Definition thoughtIDBSynced (s : State) := idbSynced (thoughts s).
Definition thoughtWebsocketSynced (s : State) := websocketSynced (thoughts s).

Definition lexemeDocs (s : State) := docs (lexemes s).
Definition lexemePersistence (s : State) := persistence (lexemes s).
Definition lexemeRetained (s : State) := retained (lexemes s).
Definition lexemeWebsocketProvider (s : State) := websocketProvider (lexemes s).
Definition lexemeIDBSynced (s : State) := idbSynced (lexemes s).
Definition lexemeWebsocketSynced (s : State) := websocketSynced (lexemes s).

(** *** Field updates *)

Definition with_docs (f : gmap string nat -> gmap string nat) (c : ShardCache) :=
  mkCache (f (docs c)) (persistence c) (retained c) (websocketProvider c)
    (idbSynced c) (websocketSynced c).
Definition with_persistence (f : gmap string nat -> gmap string nat) (c : ShardCache) :=
  mkCache (docs c) (f (persistence c)) (retained c) (websocketProvider c)
    (idbSynced c) (websocketSynced c).
Definition with_retained (f : gset string -> gset string) (c : ShardCache) :=
  mkCache (docs c) (persistence c) (f (retained c)) (websocketProvider c)
    (idbSynced c) (websocketSynced c).
Definition with_websocketProvider (f : gmap string nat -> gmap string nat) (c : ShardCache) :=
  mkCache (docs c) (persistence c) (retained c) (f (websocketProvider c))
    (idbSynced c) (websocketSynced c).
Definition with_idbSynced (f : gmap string nat -> gmap string nat) (c : ShardCache) :=
  mkCache (docs c) (persistence c) (retained c) (websocketProvider c)
    (f (idbSynced c)) (websocketSynced c).
Definition with_websocketSynced (f : gmap string nat -> gmap string nat) (c : ShardCache) :=
  mkCache (docs c) (persistence c) (retained c) (websocketProvider c)
    (idbSynced c) (f (websocketSynced c)).

Definition with_thoughts (f : ShardCache -> ShardCache) (s : State) : State :=
  mkState (f (thoughts s)) (lexemes s) (docKeys s) (configCache s) (docHeap s)
    (persHeap s) (provHeap s) (promises s) (nextId s) (timers s) (floating s)
    (throttleAccum s) (throttleWindow s) (trace s).
Definition with_lexemes (f : ShardCache -> ShardCache) (s : State) : State :=
  mkState (thoughts s) (f (lexemes s)) (docKeys s) (configCache s) (docHeap s)
    (persHeap s) (provHeap s) (promises s) (nextId s) (timers s) (floating s)
    (throttleAccum s) (throttleWindow s) (trace s).
Definition with_docKeys (f : gmap string string -> gmap string string) (s : State) : State :=
  mkState (thoughts s) (lexemes s) (f (docKeys s)) (configCache s) (docHeap s)
    (persHeap s) (provHeap s) (promises s) (nextId s) (timers s) (floating s)
    (throttleAccum s) (throttleWindow s) (trace s).
Definition with_configCache (c : option Config) (s : State) : State :=
  mkState (thoughts s) (lexemes s) (docKeys s) c (docHeap s)
    (persHeap s) (provHeap s) (promises s) (nextId s) (timers s) (floating s)
    (throttleAccum s) (throttleWindow s) (trace s).
Definition with_docHeap (f : gmap nat YDoc -> gmap nat YDoc) (s : State) : State :=
  mkState (thoughts s) (lexemes s) (docKeys s) (configCache s) (f (docHeap s))
    (persHeap s) (provHeap s) (promises s) (nextId s) (timers s) (floating s)
    (throttleAccum s) (throttleWindow s) (trace s).
Definition with_persHeap (f : gmap nat Persistence -> gmap nat Persistence) (s : State) : State :=
  mkState (thoughts s) (lexemes s) (docKeys s) (configCache s) (docHeap s)
    (f (persHeap s)) (provHeap s) (promises s) (nextId s) (timers s) (floating s)
    (throttleAccum s) (throttleWindow s) (trace s).
Definition with_provHeap (f : gmap nat Provider -> gmap nat Provider) (s : State) : State :=
  mkState (thoughts s) (lexemes s) (docKeys s) (configCache s) (docHeap s)
    (persHeap s) (f (provHeap s)) (promises s) (nextId s) (timers s) (floating s)
    (throttleAccum s) (throttleWindow s) (trace s).
Definition with_promises (f : gmap nat PromiseKind -> gmap nat PromiseKind) (s : State) : State :=
  mkState (thoughts s) (lexemes s) (docKeys s) (configCache s) (docHeap s)
    (persHeap s) (provHeap s) (f (promises s)) (nextId s) (timers s) (floating s)
    (throttleAccum s) (throttleWindow s) (trace s).
Definition with_nextId (f : nat -> nat) (s : State) : State :=
  mkState (thoughts s) (lexemes s) (docKeys s) (configCache s) (docHeap s)
    (persHeap s) (provHeap s) (promises s) (f (nextId s)) (timers s) (floating s)
    (throttleAccum s) (throttleWindow s) (trace s).
Definition with_timers (f : list (nat * TimerAction) -> list (nat * TimerAction)) (s : State) : State :=
  mkState (thoughts s) (lexemes s) (docKeys s) (configCache s) (docHeap s)
    (persHeap s) (provHeap s) (promises s) (nextId s) (f (timers s)) (floating s)
    (throttleAccum s) (throttleWindow s) (trace s).
Definition with_floating (f : list Floating -> list Floating) (s : State) : State :=
  mkState (thoughts s) (lexemes s) (docKeys s) (configCache s) (docHeap s)
    (persHeap s) (provHeap s) (promises s) (nextId s) (timers s) (f (floating s))
    (throttleAccum s) (throttleWindow s) (trace s).
Definition with_throttle (acc : list PushBatch) (w : bool) (s : State) : State :=
  mkState (thoughts s) (lexemes s) (docKeys s) (configCache s) (docHeap s)
    (persHeap s) (provHeap s) (promises s) (nextId s) (timers s) (floating s)
    acc w (trace s).
Definition with_trace (f : list Event -> list Event) (s : State) : State :=
  mkState (thoughts s) (lexemes s) (docKeys s) (configCache s) (docHeap s)
    (persHeap s) (provHeap s) (promises s) (nextId s) (timers s) (floating s)
    (throttleAccum s) (throttleWindow s) (f (trace s)).

(** ** Asynchronous programs *)

(** The body of an [async] function: reads and updates of the module state,
    [await], [return] and [throw]. *)
Inductive Async (A : Type) : Type :=
| Ret (a : A)
| Throw (e : Js.Error)
| Await (aw : Awaited) (k : Settled -> Async A)
| Read (k : State -> Async A)
| Upd (f : State -> State) (k : Async A).
Arguments Ret {A} a.
Arguments Throw {A} e.
Arguments Await {A} aw k.
Arguments Read {A} k.
Arguments Upd {A} f k.

(** Sequencing with both continuations: [onRet] after a normal completion,
    [onThrow] in place of an exception. *)
Fixpoint andThen {A B} (p : Async A) (onRet : A -> Async B)
    (onThrow : Js.Error -> Async B) : Async B :=
  match p with
  | Ret a => onRet a
  | Throw e => onThrow e
  | Await aw k => Await aw (fun o => andThen (k o) onRet onThrow)
  | Read k => Read (fun s => andThen (k s) onRet onThrow)
  | Upd f k => Upd f (andThen k onRet onThrow)
  end.

Definition bind {A B} (p : Async A) (f : A -> Async B) : Async B :=
  andThen p f Throw.

(** [try { p } catch (e) { h e }] *)
Definition tryCatch {A} (p : Async A) (h : Js.Error -> Async A) : Async A :=
  andThen p Ret h.

Global Instance Async_ret : MRet Async := fun A a => Ret a.
Global Instance Async_bind : MBind Async := fun A B f p => bind p f.

Definition get : Async State := Read Ret.
Definition gets {A} (f : State -> A) : Async A := Read (fun s => Ret (f s)).
Definition modify (f : State -> State) : Async unit := Upd f (Ret tt).
Definition log (ev : Event) : Async unit := modify (with_trace (fun t => t ++ [ev])).
Definition when (b : bool) (p : Async unit) : Async unit := if b then p else Ret tt.

(** [await x]: suspend; resume normally when [x] is fulfilled and with an
    exception when it is rejected. *)
Definition await (aw : Awaited) : Async unit :=
  Await aw (fun o => match o with Fulfilled => Ret tt | Rejected e => Throw e end).

(** [await f(...)] for an [async] function [f]: the callee runs inline up to
    its own suspensions; once it has settled the caller is resumed on a later
    tick. *)
Definition awaitCall {A} (p : Async A) : Async A :=
  andThen p (fun a => Await AwTick (fun _ => Ret a))
            (fun e => Await AwTick (fun _ => Throw e)).

(** [xs.forEach(f)] *)
Fixpoint forEach {A} (xs : list A) (f : A -> Async unit) : Async unit :=
  match xs with
  | [] => Ret tt
  | x :: xs' => bind (f x) (fun _ => forEach xs' f)
  end.

(** [Promise.all] over closures that have all been started and are resumed
    one after the other: every closure runs, and the first exception is
    the one reported. *)
Fixpoint promiseAll (ps : list (Async unit)) : Async unit :=
  match ps with
  | [] => Ret tt
  | p :: ps' =>
      andThen p (fun _ => promiseAll ps')
        (fun e => andThen (promiseAll ps') (fun _ => Throw e) (fun _ => Throw e))
  end.

(** How a synchronous segment ends. *)
Inductive Outcome (A : Type) : Type :=
| Done (a : A)
| Failed (e : Js.Error)
| Suspended (aw : Awaited) (k : Settled -> Async A).
Arguments Done {A} a.
Arguments Failed {A} e.
Arguments Suspended {A} aw k.

(** Run a program up to its next suspension point. *)
Fixpoint exec {A} (p : Async A) (s : State) : State * Outcome A :=
  match p with
  | Ret a => (s, Done a)
  | Throw e => (s, Failed e)
  | Await aw k => (s, Suspended aw k)
  | Read k => exec (k s) s
  | Upd f k => exec k (f s)
  end.

(** Resume a suspended call once what it waits for has settled. *)
Definition resume {A} (r : Outcome A) (o : Settled) (s : State) : State * Outcome A :=
  match r with
  | Suspended _ k => exec (k o) s
  | _ => (s, r)
  end.

(** Run one call to completion, taking the outcome of every awaited promise
    from [oracle] and running nothing else in between. *)
Fixpoint run {A} (oracle : Awaited -> Settled) (p : Async A) (s : State)
    : State * (A + Js.Error) :=
  match p with
  | Ret a => (s, inl a)
  | Throw e => (s, inr e)
  | Await aw k => run oracle (k (oracle aw)) s
  | Read k => run oracle (k s) s
  | Upd f k => run oracle k (f s)
  end.

(** A call of an [async] function whose promise is dropped: the callee runs
    up to its first suspension and is then left to the event loop, recorded
    as [fl aw].  A rejection of the dropped promise is not observed. *)
Fixpoint detach (fl : Awaited -> Floating) (p : Async unit) : Async unit :=
  match p with
  | Ret _ => Ret tt
  | Throw _ => Ret tt
  | Await aw _ => modify (with_floating (fun l => l ++ [fl aw]))
  | Read k => Read (fun s => detach fl (k s))
  | Upd f k => Upd f (detach fl k)
  end.

(** [x === undefined], and so [!x] for an object. *)
Definition isUndefined {A} (x : option A) : bool :=
  match x with None => true | Some _ => false end.

(** [setTimeout(f, ms)] *)
Definition setTimeout (f : TimerAction) (ms : nat) : Async unit :=
  modify (with_timers (fun l => l ++ [(ms, f)])).

(** [config.then(cb)] *)
Definition configThen (cb : Floating) : Async unit :=
  modify (with_floating (fun l => l ++ [cb])).

(** [Object.values(o)], which throws on [undefined]. *)
Definition objectValues (o : option (Index string)) : Async (list string) :=
  match o with
  | Some m => Ret (snd <$> m)
  | None => Throw (Js.mkError "TypeError" "Cannot convert undefined or null to object")
  end.

(** ** Change notification batching *)

Definition emptyBatch : PushBatch := mkBatch ∅ ∅ ∅.

(** Modelled from the spec: [mergeBatch] ([util/mergeBatch.ts] is not part of
    the sources at hand).  Later values for the same key override earlier
    ones; a deletion stays in the batch as an explicit [null] marker. *)
Definition mergeBatch (accum batch : PushBatch) : PushBatch :=
  mkBatch
    (thoughtIndexUpdates batch ∪ thoughtIndexUpdates accum)
    (lexemeIndexUpdates batch ∪ lexemeIndexUpdates accum)
    (lexemeIndexUpdatesOld batch ∪ lexemeIndexUpdatesOld accum).

(** Modelled from the spec: [throttleConcat] ([util/throttleConcat.ts] is not
    part of the sources at hand).  It accepts values as they occur and keeps
    them; the first value of a window starts the window of [ms]
    milliseconds. *)
Definition throttleConcat (ms : nat) (value : PushBatch) : Async unit :=
  s ← get;
  _ ← modify (with_throttle (throttleAccum s ++ [value]) true);
  when (negb (throttleWindow s)) (setTimeout TaThrottleWindow ms).

(** Modelled from the spec: the end of a [throttleConcat] window.  All
    values received within the window are handed to the callback [f] as one
    list. *)
Definition throttleWindowEnd (f : list PushBatch -> Async unit) : Async unit :=
  s ← get;
  _ ← modify (with_throttle [] false);
  match throttleAccum s with
  | [] => Ret tt
  | batches => f batches
  end.

(** The callback given to [throttleConcat]: merge the batches and dispatch
    on the next tick. *)
Definition dispatchMerged (batches : list PushBatch) : Async unit :=
  let merged := foldl mergeBatch emptyBatch batches in
  setTimeout (TaDispatch merged) 0.

(** The timer callback of [dispatchMerged]:
    [config.then(({ onUpdateThoughts }) => onUpdateThoughts?.(...))]. *)
Definition dispatchTick (merged : PushBatch) : Async unit :=
  configThen (FlOnUpdateThoughts merged).

(** Dispatches updateThoughts with all updates in the throttle period. *)
Definition updateThoughtsThrottled (batch : PushBatch) : Async unit :=
  throttleConcat UPDATE_THOUGHTS_THROTTLE batch.

(** ** Reading documents *)

(** Gets a Thought from a thought Y.Doc. *)
Definition getThought (thoughtDoc : option YDoc) (id : string) : option Thought.t :=
  match thoughtDoc with
  | None => None
  | Some doc =>
      match YMap.get id (childrenYMap doc) with
      | None => None
      | Some thoughtMap =>
          if decide (YMap.size thoughtMap = 0) then None
          else Some (Thought.mk id
                 (as_idx (YMap.get "m" thoughtMap))
                 (as_str (YMap.get "c" thoughtMap))
                 (as_str (YMap.get "l" thoughtMap))
                 (as_str (YMap.get "p" thoughtMap))
                 (as_num (YMap.get "r" thoughtMap))
                 (as_str (YMap.get "u" thoughtMap))
                 (as_str (YMap.get "v" thoughtMap))
                 (match as_str (YMap.get "a" thoughtMap) with
                  | Some a => if Js.truthy a then Some a else None
                  | None => None
                  end))
      end
  end.

(** Gets all children from a thought Y.Doc. Returns undefined if the doc does
    not exist. *)
Definition getChildren (thoughtDoc : option YDoc) : option (list Thought.t) :=
  match thoughtDoc with
  | None => None
  | Some doc =>
      if negb (YMap.has "docKey" (thoughtMap doc)) then None
      else Some (omap (getThought (Some doc)) (YMap.keys (childrenYMap doc)))
  end.

(** The context id of a LexemeDb key: [key.split('cx-')[1]], when truthy. *)
Definition cxidOfKey (key : string) : option string :=
  match Js.split "cx-" key !! 1 with
  | Some cxid => if Js.truthy cxid then Some cxid else None
  | None => None
  end.

(** One step of the reduction in [getLexeme].  Keys outside [LexemeDb] and
    the key [x], which this module never writes, leave the accumulator as it
    is. *)
Definition getLexemeStep (acc : Lexeme.t) (kv : string * string) : Lexeme.t :=
  match cxidOfKey kv.1 with
  | Some cxid =>
      Lexeme.mk (Lexeme.contexts acc ++ [cxid]) (Lexeme.created acc)
        (Lexeme.lastUpdated acc) (Lexeme.updatedBy acc)
  | None =>
      match lexemeKeyFromDb kv.1 with
      | Some KCreated =>
          Lexeme.mk (Lexeme.contexts acc) (Some kv.2)
            (Lexeme.lastUpdated acc) (Lexeme.updatedBy acc)
      | Some KLastUpdated =>
          Lexeme.mk (Lexeme.contexts acc) (Lexeme.created acc)
            (Some kv.2) (Lexeme.updatedBy acc)
      | Some KUpdatedBy =>
          Lexeme.mk (Lexeme.contexts acc) (Lexeme.created acc)
            (Lexeme.lastUpdated acc) (Some kv.2)
      | _ => acc
      end
  end.

(** Gets a Lexeme from a lexeme Y.Doc. *)
Definition getLexeme (lexemeDoc : option YDoc) : option Lexeme.t :=
  match lexemeDoc with
  | None => None
  | Some doc =>
      if decide (YMap.size (lexemeMap doc) = 0) then None
      else Some (foldl getLexemeStep (Lexeme.mk [] None None None)
                   (YMap.entries (lexemeMap doc)))
  end.

(** ** The module's functions *)

Section Thoughtspace.
Context (E : Env).

(** *** Object construction and destruction *)

(** [new Y.Doc({ guid })] *)
Definition newDoc (g : string) : Async nat :=
  s ← get;
  let d := nextId s in
  _ ← modify (with_docHeap <[d := emptyDoc g]>);
  _ ← modify (with_nextId S);
  _ ← log (EvNewDoc d g);
  Ret d.

(** [new IndexeddbPersistence(name, doc)] *)
Definition newPersistence (n : string) (d : nat) : Async nat :=
  s ← get;
  let p := nextId s in
  _ ← modify (with_persHeap <[p := mkPersistence n d]>);
  _ ← modify (with_nextId S);
  _ ← log (EvNewPersistence p n d);
  Ret p.

(** [new HocuspocusProvider({ name, document, ... })] *)
Definition newProvider (n : string) (d : nat) : Async nat :=
  s ← get;
  let w := nextId s in
  _ ← modify (with_provHeap <[w := mkProvider n d (initialStatus E) false]>);
  _ ← modify (with_nextId S);
  _ ← log (EvNewProvider w n d);
  Ret w.

(** A promise derived with [then] / [catch] / [when]: its identity, and
    the handlers it runs. *)
Definition freshPromise : Async nat :=
  s ← get;
  _ ← modify (with_nextId S);
  Ret (nextId s).

Definition newPromise (k : PromiseKind) : Async nat :=
  p ← freshPromise;
  _ ← modify (with_promises <[p := k]>);
  Ret p.

Definition markDestroyed (d : YDoc) : YDoc :=
  mkDoc (guid d) true (thoughtMap d) (childrenYMap d) (lexemeMap d)
    (lexemeObservers d) (thoughtObservers d).

(** [doc.destroy()] *)
Definition destroyDoc (d : nat) : Async unit :=
  _ ← modify (with_docHeap (alter markDestroyed d));
  log (EvDestroyDoc d).

(** [provider.destroy()] *)
Definition destroyProvider (w : nat) : Async unit :=
  _ ← modify (with_provHeap
        (alter (fun p => mkProvider (w_name p) (w_doc p) (w_status p) true) w));
  log (EvDestroyProvider w).

(** The destructuring [const { ... } = configCache]. *)
Definition readConfig : Async Config :=
  s ← get;
  match configCache s with
  | Some cfg => Ret cfg
  | None => Throw (Js.mkError "TypeError" "Cannot destructure property of undefined")
  end.

(** [e.name === 'AbortError' || e.message.includes('[AbortError]')] *)
Definition isAbortError (e : Js.Error) : bool :=
  bool_decide (Js.name e = "AbortError") || Js.includes "[AbortError]" (Js.message e).

(** *** Change handlers *)

(** Handles the Lexeme observe event. Ignores events from self.
    [self] tells whether the transaction origin is the doc's own client. *)
Definition onLexemeChange (doc : nat) (self : bool) : Async unit :=
  if self then Ret tt
  else
    s ← get;
    match getLexeme (docHeap s !! doc), docHeap s !! doc with
    | Some lexeme, Some lexemeDoc =>
        let key := parseDocumentName E (guid lexemeDoc) in
        updateThoughtsThrottled (mkBatch ∅ {[key := Some lexeme]} ∅)
    | _, _ => Ret tt
    end.

(** Handles the Thought observe event. Ignores events from self. *)
Definition onThoughtChange (id : string) (doc : nat) (self : bool) : Async unit :=
  if self then Ret tt
  else
    s ← get;
    match getThought (docHeap s !! doc) id with
    | None => Ret tt
    | Some thought =>
        (* update docKeys of children *)
        childIds ← objectValues (Thought.childrenMap thought);
        _ ← forEach childIds (fun childId => modify (with_docKeys <[childId := id]>));
        configThen (FlOnThoughtChange thought)
    end.

(** The loop that sets the docKeys of children and grandchildren. *)
Definition setChildrenDocKeys (docKey : string) (children : option (list Thought.t))
    : Async unit :=
  forEach (default [] children) (fun child =>
    _ ← modify (with_docKeys <[Thought.id child := docKey]>);
    grandchildIds ← objectValues (Thought.childrenMap child);
    forEach grandchildIds (fun grandchildId =>
      modify (with_docKeys <[grandchildId := Thought.id child]>))).

(** The parent docKey of a thought doc as both sync handlers compute it. *)
Definition parentDocKeyOf (docKey : string) (doc : option YDoc) : option string :=
  if decide (docKey = ROOT_PARENT_ID E) then None
  else if decide (docKey = HOME_TOKEN E ∨ docKey = EM_TOKEN E) then Some (ROOT_PARENT_ID E)
  else match doc with
       | Some d => mjoin (YMap.get "docKey" (thoughtMap d))
       | None => None
       end.

Definition setParentDocKey (docKey : string) (doc : nat) : Async unit :=
  s ← get;
  match parentDocKeyOf docKey (docHeap s !! doc) with
  | Some parentDocKey =>
      when (Js.truthy parentDocKey) (modify (with_docKeys <[docKey := parentDocKey]>))
  | None => Ret tt
  end.

(** *** Deallocation *)

Definition uncache (k : string) (c : ShardCache) : ShardCache :=
  mkCache (delete k (docs c)) (delete k (persistence c)) (retained c)
    (delete k (websocketProvider c)) (delete k (idbSynced c))
    (delete k (websocketSynced c)).

(** Deallocates the cached thought and associated providers (without
    permanently deleting the persisted data). If the thought is retained,
    noop. *)
Definition tryDeallocateThought (docKey : string) : Async unit :=
  s ← get;
  if decide (docKey ∈ thoughtRetained s) then Ret tt
  else
    (* Remove children docKeys. *)
    let thoughtDoc := thoughtDocs s !! docKey ≫= (docHeap s !!.) in
    _ ← forEach (default [] (YMap.values ∘ childrenYMap <$> thoughtDoc))
          (fun thoughtMap =>
             match as_str (YMap.get "id" thoughtMap) with
             | Some childId => modify (with_docKeys (delete childId))
             | None => Ret tt
             end);
    (* Destroy doc and websocket provider. *)
    d ← gets (fun s => thoughtDocs s !! docKey);
    _ ← from_option destroyDoc (Ret tt) d;
    w ← gets (fun s => thoughtWebsocketProvider s !! docKey);
    _ ← from_option destroyProvider (Ret tt) w;
    (* delete from cache *)
    modify (with_thoughts (uncache docKey)).

(** Waits until the thought finishes replicating, then deallocates the
    cached thought and associated providers. *)
Definition freeThought (docKey : string) : Async unit :=
  _ ← modify (with_thoughts (with_retained (fun r => r ∖ {[docKey]})));
  (* wait for idb replication *)
  p ← gets (fun s => thoughtIDBSynced s !! docKey);
  _ ← await (AwPromise p);
  awaitCall (tryDeallocateThought docKey).

Definition unobserveLexeme (d : YDoc) : YDoc :=
  mkDoc (guid d) (destroyed d) (thoughtMap d) (childrenYMap d) (lexemeMap d)
    0 (thoughtObservers d).

Definition observeLexeme (d : YDoc) : YDoc :=
  mkDoc (guid d) (destroyed d) (thoughtMap d) (childrenYMap d) (lexemeMap d)
    (S (lexemeObservers d)) (thoughtObservers d).

Definition observeThought (id : string) (d : YDoc) : YDoc :=
  mkDoc (guid d) (destroyed d) (thoughtMap d) (childrenYMap d) (lexemeMap d)
    (lexemeObservers d) (thoughtObservers d ++ [id]).

(** Deallocates the cached lexeme and associated providers. If the lexeme
    is retained, noop. *)
Definition tryDeallocateLexeme (key : string) : Async unit :=
  s ← get;
  if decide (key ∈ lexemeRetained s) then Ret tt
  else
    _ ← match lexemeDocs s !! key with
        | Some d =>
            match docHeap s !! d with
            | Some doc =>
                when (bool_decide (lexemeObservers doc ≠ 0))
                  (modify (with_docHeap (alter unobserveLexeme d)))
            | None => Ret tt
            end
        | None => Ret tt
        end;
    d ← gets (fun s => lexemeDocs s !! key);
    _ ← from_option destroyDoc (Ret tt) d;
    w ← gets (fun s => lexemeWebsocketProvider s !! key);
    _ ← from_option destroyProvider (Ret tt) w;
    modify (with_lexemes (uncache key)).

(** Waits until the lexeme finishes replicating, then deallocates the
    cached lexeme and associated providers. *)
Definition freeLexeme (key : string) : Async unit :=
  _ ← modify (with_lexemes (with_retained (fun r => r ∖ {[key]})));
  p ← gets (fun s => lexemeIDBSynced s !! key);
  _ ← await (AwPromise p);
  awaitCall (tryDeallocateLexeme key).

(** *** Replication of thoughts *)

(** The handlers attached to [persistence.whenSynced] in
    [replicateChildren]: two [then] handlers and a [catch] handler.  [o] is
    how [whenSynced] settled; the promise [idbSynced] is fulfilled when
    this program returns. *)
Definition onThoughtIdbSynced (docKey : string) (doc : nat)
    (websocketProvider websocketSynced : option nat) (opts : ReplicateOptions)
    (o : Settled) : Async unit :=
  tryCatch
    (match o with
     | Rejected e => Throw e
     | Fulfilled =>
         s ← get;
         let children := getChildren (docHeap s !! doc) in
         (* Forced Background: if idb is empty, await websocketSynced or time out *)
         let status := w_status <$> (websocketProvider ≫= (provHeap s !!.)) in
         _ ← when (isUndefined children &&
                   bool_decide (status ≠ Some "disconnected"))
               (await (AwRace websocketSynced (WEBSOCKET_TIMEOUT E)));
         s ← get;
         let children := getChildren (docHeap s !! doc) in
         _ ← setParentDocKey docKey doc;
         (* update docKeys of children and grandchildren *)
         _ ← setChildrenDocKeys docKey children;
         forEach (default [] children) (fun child =>
           log (EvOnThoughtIDBSynced child (background opts)))
     end)
    (fun e =>
       (* AbortError happens if the app is closed during replication. *)
       if isAbortError e then
         _ ← detach (FlFreeThought docKey) (freeThought docKey);
         setTimeout (TaReplicateChildren docKey opts) IDB_ERROR_RETRY
       else
         log (EvOnError ("Error loading thought " +:+ docKey +:+
                         " from IndexedDB: " +:+ Js.message e) e)).

(** The handler attached to [when(websocketProvider, 'synced')]. *)
Definition onThoughtWebsocketSynced (docKey : string) (doc : nat) : Async unit :=
  s ← get;
  let children := getChildren (docHeap s !! doc) in
  _ ← setParentDocKey docKey doc;
  forEach (default [] children) (fun child =>
    s ← get;
    _ ← log (EvOnThoughtReplicated (Thought.id child)
               (getThought (docHeap s !! doc) (Thought.id child)));
    (* set docKeys of children and grandchildren *)
    _ ← modify (with_docKeys <[Thought.id child := docKey]>);
    grandchildIds ← objectValues (Thought.childrenMap child);
    forEach grandchildIds (fun grandchildId =>
      modify (with_docKeys <[grandchildId := Thought.id child]>))).

(** The branch of [replicateChildren] taken when the doc is cached (or in
    test mode): wait for the appropriate replication, then read. *)
Definition replicateChildrenCached (docKey : string) (opts : ReplicateOptions)
    (doc : nat) : Async (option (list Thought.t)) :=
  _ ← (if background opts && remote opts
       then p ← gets (fun s => thoughtWebsocketSynced s !! docKey); await (AwPromise p)
       else p ← gets (fun s => thoughtIDBSynced s !! docKey); await (AwPromise p));
  s ← get;
  let children := getChildren (docHeap s !! doc) in
  _ ← setChildrenDocKeys docKey children;
  Ret children.

(** The body of the closure mapped over the children in background remote
    mode, after [isThoughtLoaded(child)] has resolved to [true]. *)
Definition foregroundChild (docKey : string) (doc : nat) (child : Thought.t)
    : Async unit :=
  _ ← modify (with_thoughts (with_retained (fun r => {[docKey]} ∪ r)));
  s ← get;
  _ ← match docHeap s !! doc ≫= (fun d => YMap.get (Thought.id child) (childrenYMap d)) with
      | Some _ => onThoughtChange (Thought.id child) doc false
      | None => Throw (Js.mkError "TypeError" "Cannot read properties of undefined")
      end;
  _ ← modify (with_docHeap (alter (fun d =>
        if YMap.has (Thought.id child) (childrenYMap d) then d
        else mkDoc (guid d) (destroyed d) (thoughtMap d)
               (YMap.set (Thought.id child) [] (childrenYMap d)) (lexemeMap d)
               (lexemeObservers d) (thoughtObservers d)) doc));
  modify (with_docHeap (alter (observeThought (Thought.id child)) doc)).

(** The rest of [replicateChildren] once [idbSynced] has been awaited.  The
    promises returned by [isThoughtLoaded] are taken to resolve in call
    order, one tick after the calls. *)
Definition replicateChildrenSynced (docKey : string) (opts : ReplicateOptions)
    (cfg : Config) (doc : nat) (websocketSynced : option nat)
    : Async (option (list Thought.t)) :=
  _ ← (if negb (background opts) then
         (* Subscribe to changes after first sync. *)
         s ← get;
         let childIds := default [] (YMap.keys ∘ childrenYMap <$> docHeap s !! doc) in
         forEach childIds (fun childId =>
           modify (with_docHeap (alter (observeThought childId) doc)))
       else if background opts && remote opts then
         (* Foregrounding *)
         _ ← await (AwPromise websocketSynced);
         s ← get;
         let children := default [] (getChildren (docHeap s !! doc)) in
         _ ← await AwTick;
         _ ← promiseAll ((fun child =>
               when (isThoughtLoaded cfg child) (foregroundChild docKey doc child))
               <$> children);
         await AwTick
       else Ret tt);
  s ← get;
  let children := getChildren (docHeap s !! doc) in
  (* If the thought is not retained by foreground replication, deallocate it. *)
  _ ← tryDeallocateThought docKey;
  Ret children.

(** The branch of [replicateChildren] taken when the doc is not cached:
    set up idb and websocket persistence, cache them, and wait for IDB. *)
Definition replicateChildrenFresh (docKey : string) (opts : ReplicateOptions)
    (cfg : Config) (documentName : string) (doc : nat)
    : Async (option (list Thought.t)) :=
  persistence ← newPersistence documentName doc;
  idbSynced ← freshPromise;
  (* sync Websocket after IDB *)
  websocketProvider ←
    (if remote opts then w ← newProvider documentName doc; Ret (Some w) else Ret None);
  websocketSynced ←
    match websocketProvider with
    | Some w => p ← newPromise (PkThoughtWebsocketSynced docKey doc w); Ret (Some p)
    | None => Ret None
    end;
  _ ← modify (with_promises
        <[idbSynced := PkThoughtIdbSynced docKey doc persistence
                         websocketProvider websocketSynced opts]>);
  (* Cache docs, promises, and providers *)
  _ ← modify (with_thoughts (with_docs <[docKey := doc]>));
  _ ← modify (with_thoughts (with_idbSynced <[docKey := idbSynced]>));
  _ ← modify (with_thoughts (with_persistence <[docKey := persistence]>));
  _ ← match websocketProvider, websocketSynced with
      | Some w, Some p =>
          _ ← modify (with_thoughts (with_websocketProvider <[docKey := w]>));
          modify (with_thoughts (with_websocketSynced <[docKey := p]>))
      | _, _ => Ret tt
      end;
  (* always wait for IDB to sync *)
  _ ← await (AwPromise (Some idbSynced));
  replicateChildrenSynced docKey opts cfg doc websocketSynced.

(** Replicates all thoughts contained within a Thought doc. *)
Definition replicateChildren (docKey : string) (opts : ReplicateOptions)
    : Async (option (list Thought.t)) :=
  (* Only await the config promise once. *)
  s ← get;
  _ ← when (isUndefined (configCache s)) (await AwConfig);
  cfg ← readConfig;
  let documentName := encodeThoughtDocumentName E (tsid cfg) docKey in
  cached ← gets (fun s => thoughtDocs s !! docKey);
  doc ← from_option Ret (newDoc documentName) cached;
  _ ← when (onDoc opts) (log (EvOnDoc doc));
  (* Foreground replication retains the thought in the cache. *)
  _ ← when (negb (background opts))
        (modify (with_thoughts (with_retained (fun r => {[docKey]} ∪ r))));
  (* If the doc is cached, return as soon as the appropriate providers are synced. *)
  cached ← gets (fun s => thoughtDocs s !! docKey);
  if negb (isUndefined cached) || bool_decide (MODE E = "test") then
    replicateChildrenCached docKey opts doc
  else
    replicateChildrenFresh docKey opts cfg documentName doc.

(** Replicates a thought from the persistence layers to state, IDB, and the
    Websocket server.  Precondition: docKey of id must be cached. *)
Definition replicateThought (id : string) (opts : ReplicateOptions)
    : Async (option Thought.t) :=
  s ← get;
  match docKeys s !! id with
  | Some docKey =>
      if Js.truthy docKey then
        children ← awaitCall (replicateChildren docKey opts);
        Ret (children ≫= List.find (fun child => bool_decide (Thought.id child = id)))
      else
        Throw (Js.mkError "Error" ("replicateThought: Missing docKey for thought " +:+ id))
  | None =>
      Throw (Js.mkError "Error" ("replicateThought: Missing docKey for thought " +:+ id))
  end.

(** *** Replication of lexemes *)

(** The [catch] handler attached to [persistence.whenSynced] in
    [replicateLexeme].  [o] is how [whenSynced] settled; the promise
    [idbSynced] is fulfilled when this program returns. *)
Definition onLexemeIdbSynced (key : string) (bg : bool) (o : Settled) : Async unit :=
  match o with
  | Fulfilled => Ret tt
  | Rejected e =>
      if isAbortError e then
        _ ← detach (FlFreeLexeme key) (freeLexeme key);
        setTimeout (TaReplicateLexeme key bg) IDB_ERROR_RETRY
      else
        log (EvOnError ("Error loading lexeme " +:+ key +:+ ": " +:+ Js.message e) e)
  end.

(** Sets the docKey of every context found in the raw Lexeme doc. *)
Definition setContextDocKeys (lexemeRaw : list (string * string)) : Async unit :=
  forEach lexemeRaw (fun kv =>
    match cxidOfKey kv.1 with
    | Some cxid => modify (with_docKeys <[cxid := kv.2]>)
    | None => Ret tt
    end).

(** The rest of [replicateLexeme] once [idbSynced] has been awaited. *)
Definition replicateLexemeSynced (key : string) (bg : bool) (cfg : Config)
    (doc websocketProvider websocketSynced : nat) : Async (option Lexeme.t) :=
  _ ← (if negb bg then
         (* subscribe to changes after idbSynced *)
         modify (with_docHeap (alter observeLexeme doc))
       else
         _ ← await (AwPromise (Some websocketSynced));
         s ← get;
         let lexeme := getLexeme (docHeap s !! doc) in
         _ ← await AwTick;
         when (isLexemeLoaded cfg key lexeme)
           (_ ← modify (with_lexemes (with_retained (fun r => {[key]} ∪ r)));
            _ ← modify (with_docHeap (alter observeLexeme doc));
            onLexemeChange doc false));
  (* get the Lexeme before we destroy the Doc *)
  s ← get;
  let lexeme := getLexeme (docHeap s !! doc) in
  let lexemeRaw := default [] (YMap.entries ∘ lexemeMap <$> docHeap s !! doc) in
  (* set docKey from Lexeme context to allow tangential contexts to be loaded *)
  _ ← setContextDocKeys lexemeRaw;
  (* If the lexeme is not retained by foreground replication, deallocate it. *)
  _ ← tryDeallocateLexeme key;
  Ret lexeme.

Definition isSpecialToken (key : string) : bool :=
  bool_decide (key = HOME_TOKEN E) || bool_decide (key = EM_TOKEN E) ||
  bool_decide (key = ABSOLUTE_TOKEN E).

(** The branch of [replicateLexeme] taken when the doc is cached (or in
    test mode). *)
Definition replicateLexemeCached (key : string) (bg : bool) (doc : nat)
    : Async (option Lexeme.t) :=
  _ ← (if bg
       then p ← gets (fun s => lexemeWebsocketSynced s !! key); await (AwPromise p)
       else p ← gets (fun s => lexemeIDBSynced s !! key); await (AwPromise p));
  s ← get;
  Ret (getLexeme (docHeap s !! doc)).

(** The branch of [replicateLexeme] taken when the doc is not cached:
    set up idb and websocket persistence, cache them, and wait for IDB. *)
Definition replicateLexemeFresh (key : string) (bg : bool) (cfg : Config)
    (documentName : string) (doc : nat) : Async (option Lexeme.t) :=
  persistence ← newPersistence documentName doc;
  idbSynced ← newPromise (PkLexemeIdbSynced key bg persistence);
  websocketProvider ← newProvider documentName doc;
  websocketSynced ← newPromise (PkLexemeWebsocketSynced websocketProvider);
  (* Cache docs, promises, and providers *)
  _ ← modify (with_lexemes (with_docs <[key := doc]>));
  _ ← modify (with_lexemes (with_idbSynced <[key := idbSynced]>));
  _ ← modify (with_lexemes (with_persistence <[key := persistence]>));
  _ ← modify (with_lexemes (with_websocketSynced <[key := websocketSynced]>));
  _ ← modify (with_lexemes (with_websocketProvider <[key := websocketProvider]>));
  (* always wait for IDB to sync *)
  _ ← await (AwPromise (Some idbSynced));
  replicateLexemeSynced key bg cfg doc websocketProvider websocketSynced.

(** Replicates a Lexeme from the persistence layers to state, IDB, and the
    Websocket server. *)
Definition replicateLexeme (key : string) (bg : bool) : Async (option Lexeme.t) :=
  (* special contexts do not have Lexemes *)
  if isSpecialToken key then Ret None
  else
    s ← get;
    _ ← when (isUndefined (configCache s)) (await AwConfig);
    cfg ← readConfig;
    let documentName := encodeLexemeDocumentName E (tsid cfg) key in
    cached ← gets (fun s => lexemeDocs s !! key);
    doc ← from_option Ret (newDoc documentName) cached;
    (* Foreground replication retains the lexeme in the cache. *)
    _ ← when (negb bg) (modify (with_lexemes (with_retained (fun r => {[key]} ∪ r))));
    cached ← gets (fun s => lexemeDocs s !! key);
    if negb (isUndefined cached) || bool_decide (MODE E = "test") then
      replicateLexemeCached key bg doc
    else
      replicateLexemeFresh key bg cfg documentName doc.

(** *** Updates *)

(** Updates a yjs thought doc.  The function returns [Promise.resolve()]
    in its first statement; nothing after it is reachable. *)
Definition updateThought (id : string) (thought : Thought.t) : Async unit :=
  Ret tt.

Definition setLexemeMap (f : YMap.t string -> YMap.t string) (d : YDoc) : YDoc :=
  mkDoc (guid d) (destroyed d) (thoughtMap d) (childrenYMap d) (f (lexemeMap d))
    (lexemeObservers d) (thoughtObservers d).

(** [Object.keys(lexemeNew)]: the properties the Lexeme has. *)
Definition lexemeKeys (l : Lexeme.t) : list LexemeKey :=
  [KContexts] ++
  (if isUndefined (Lexeme.created l) then [] else [KCreated]) ++
  (if isUndefined (Lexeme.lastUpdated l) then [] else [KLastUpdated]) ++
  (if isUndefined (Lexeme.updatedBy l) then [] else [KUpdatedBy]).

Definition lexemeField (l : Lexeme.t) (k : LexemeKey) : option string :=
  match k with
  | KCreated => Lexeme.created l
  | KLastUpdated => Lexeme.lastUpdated l
  | KUpdatedBy => Lexeme.updatedBy l
  | KContexts => None
  end.

(** The error thrown for a context whose docKey is not cached. *)
Definition missingDocKeyError (cxid : string) : Js.Error :=
  Js.mkError "Error"
    ("updateLexeme: Missing docKey for context " +:+ cxid +:+ " in Lexeme.").

(** Add a context to YJS if it has been added to state: the body of
    [lexemeNew.contexts.forEach]. *)
Definition addContext (doc : nat) (contextsOld : list string) (cxid : string)
    : Async unit :=
  if bool_decide (cxid ∈ contextsOld) then Ret tt
  else
    s ← get;
    match docKeys s !! cxid with
    | Some docKey =>
        if Js.truthy docKey then
          modify (with_docHeap
            (alter (setLexemeMap (YMap.set ("cx-" +:+ cxid) docKey)) doc))
        else
          _ ← log (EvConsoleError (Js.message (missingDocKeyError cxid)));
          Throw (missingDocKeyError cxid)
    | None =>
        _ ← log (EvConsoleError (Js.message (missingDocKeyError cxid)));
        Throw (missingDocKeyError cxid)
    end.

(** Delete a context that exists in lexemeOld but not lexemeNew: the body
    of [lexemeOld?.contexts.forEach]. *)
Definition removeContext (doc : nat) (contextsNew : list string) (cxid : string)
    : Async unit :=
  if bool_decide (cxid ∈ contextsNew) then Ret tt
  else modify (with_docHeap (alter (setLexemeMap (YMap.delete ("cx-" +:+ cxid))) doc)).

(** The branch for the other keys.  The stored value is read under the
    Lexeme key [key] and written under [lexemeKeyToDb[key]]. *)
Definition setLexemeField (doc : nat) (lexemeNew : Lexeme.t) (k : LexemeKey)
    : Async unit :=
  s ← get;
  let value := lexemeField lexemeNew k in
  let stored := docHeap s !! doc ≫= (fun d => YMap.get (lexemeKeyName k) (lexemeMap d)) in
  match value with
  | Some v =>
      (* Only set a value if it has changed. *)
      if bool_decide (value ≠ stored) then
        modify (with_docHeap (alter (setLexemeMap (YMap.set (lexemeKeyToDb k) v)) doc))
      else Ret tt
  | None => Ret tt
  end.

(** The function passed to [lexemeDoc.transact] in [updateLexeme].  The
    keys of [lexemeNew] are visited with [contexts] first. *)
Definition updateLexemeTransaction (key : string) (doc : nat) (lexemeNew : Lexeme.t)
    (lexemeOld : option Lexeme.t) (lexemeReplicated : option Lexeme.t) : Async unit :=
  let contextsOld := default [] (Lexeme.contexts <$> lexemeOld) in
  _ ← forEach (lexemeKeys lexemeNew) (fun k =>
        match k with
        | KContexts =>
            let contextsNew := Lexeme.contexts lexemeNew in
            _ ← forEach (Lexeme.contexts lexemeNew) (addContext doc contextsOld);
            forEach contextsOld (removeContext doc contextsNew)
        | _ => setLexemeField doc lexemeNew k
        end);
  (* If the Lexeme was pending, update state with the merged cxids. *)
  when (isUndefined lexemeOld && negb (isUndefined lexemeReplicated))
    (onLexemeChange doc false).

(** The [catch] handler of [idbSynced] in [updateLexeme]. *)
Definition onUpdateLexemeError (key : string) (lexemeNew : Lexeme.t)
    (lexemeOld : option Lexeme.t) (e : Js.Error) : Async unit :=
  if isAbortError e then
    setTimeout (TaUpdateLexeme key lexemeNew lexemeOld) IDB_ERROR_RETRY
  else
    configThen (FlOnError ("Error saving lexeme: " +:+ Js.message e) e).

(** Updates a yjs lexeme doc. Resolves when transaction is committed and IDB
    is synced (not when websocket is synced). *)
Definition updateLexeme (key : string) (lexemeNew : Lexeme.t)
    (lexemeOld : option Lexeme.t) : Async unit :=
  s ← get;
  _ ← when (isUndefined (lexemeDocs s !! key))
        (_ ← awaitCall (replicateLexeme key false); Ret tt);
  s ← get;
  let lexemeDoc := lexemeDocs s !! key in
  let lexemeReplicated := getLexeme (lexemeDoc ≫= (docHeap s !!.)) in
  (* The Lexeme may be deleted if the user creates and deletes a thought very quickly *)
  match lexemeDoc with
  | None => Ret tt
  | Some doc =>
      (* subscribe to lexemePersistence directly *)
      let pers := lexemePersistence s !! key in
      _ ← updateLexemeTransaction key doc lexemeNew lexemeOld lexemeReplicated;
      (* await idbSynced *)
      match pers with
      | None => await AwTick
      | Some _ =>
          Await (AwWhenSynced pers) (fun o =>
            match o with
            | Fulfilled => Ret tt
            | Rejected e => onUpdateLexemeError key lexemeNew lexemeOld e
            end)
      end
  end.

(** *** Deletion *)

Definition setChildrenYMap (f : YMap.t (YMap.t YVal) -> YMap.t (YMap.t YVal))
    (d : YDoc) : YDoc :=
  mkDoc (guid d) (destroyed d) (thoughtMap d) (f (childrenYMap d)) (lexemeMap d)
    (lexemeObservers d) (thoughtObservers d).

(** The [catch] clause shared by [deleteThought] and [deleteLexeme]:
    ignore NotFoundError, which indicates that the object stores have
    already been deleted. *)
Definition ignoreNotFound (e : Js.Error) : Async unit :=
  if bool_decide (Js.name e ≠ "NotFoundError") then Throw e else Ret tt.

(** [persistence ? persistence.clearData() : clearDocument(name)]: starts
    clearing the database and gives the promise of its completion. *)
Definition clearStorage (pers : option nat) (documentName : string) : Async Awaited :=
  _ ← match pers with
      | Some p => log (EvClearData p)
      | None => log (EvClearDocument documentName)
      end;
  Ret (AwCleared documentName).

(** Deletes a thought and clears the doc from IndexedDB. Resolves when local
    database is deleted. *)
Definition deleteThought (docKey : string) : Async unit :=
  _ ← await AwConfig;
  cfg ← readConfig;
  s ← get;
  let pers := thoughtPersistence s !! docKey in
  (* delete thought from parent *)
  _ ← match docKeys s !! docKey with
      | Some docKeyParent =>
          if Js.truthy docKeyParent then
            match thoughtDocs s !! docKeyParent with
            | Some docParent =>
                modify (with_docHeap
                  (alter (setChildrenYMap (YMap.delete docKey)) docParent))
            | None => Ret tt
            end
          else Ret tt
      | None => Ret tt
      end;
  (* delete children docKeys here *)
  _ ← modify (with_docKeys (delete docKey));
  s ← get;
  let children := getChildren (thoughtDocs s !! docKey ≫= (docHeap s !!.)) in
  _ ← forEach (default [] children) (fun child =>
        modify (with_docKeys (delete (Thought.id child))));
  tryCatch
    (deleted ← clearStorage pers (encodeThoughtDocumentName E (tsid cfg) docKey);
     _ ← awaitCall (freeThought docKey);
     await deleted)
    ignoreNotFound.

(** Deletes a Lexeme and clears the doc from IndexedDB. Resolves when the
    local database is deleted. *)
Definition deleteLexeme (key : string) : Async unit :=
  _ ← await AwConfig;
  cfg ← readConfig;
  s ← get;
  let pers := lexemePersistence s !! key in
  (* clear out the contexts first *)
  let doc :=
    match lexemeDocs s !! key with
    | Some d => Some d
    | None =>
        match pers ≫= (persHeap s !!.) with
        | Some p => Some (p_doc p)
        | None => w_doc <$> (lexemeWebsocketProvider s !! key ≫= (provHeap s !!.))
        end
    end in
  _ ← match getLexeme (doc ≫= (docHeap s !!.)) with
      | Some lexemeOld =>
          awaitCall (updateLexeme key
            (Lexeme.mk [] (Lexeme.created lexemeOld) (Lexeme.lastUpdated lexemeOld)
               (Lexeme.updatedBy lexemeOld))
            (Some lexemeOld))
      | None => Ret tt
      end;
  tryCatch
    (deleted ← clearStorage pers (encodeLexemeDocumentName E (tsid cfg) key);
     _ ← awaitCall (freeLexeme key);
     await deleted)
    ignoreNotFound.

(** *** The replication log *)

Inductive DocLogAction := Update | Delete | OtherAction (a : string).
Inductive DocType := TThought | TLexeme.

(** The [next] callback given to the replication controller in [init]. *)
Definition replicationNext (action : DocLogAction) (id : string) (type : DocType)
    : Async unit :=
  match action with
  | Update =>
      match type with
      | TThought =>
          _ ← awaitCall (replicateChildren id (mkOptions true false true)); Ret tt
      | TLexeme => _ ← awaitCall (replicateLexeme id true); Ret tt
      end
  | Delete =>
      (* override thought/lexemeIndexUpdates based on type *)
      _ ← updateThoughtsThrottled
            (match type with
             | TThought => mkBatch {[id := None]} ∅ ∅
             | TLexeme => mkBatch ∅ {[id := None]} ∅
             end);
      match type with
      | TThought => awaitCall (deleteThought id)
      | TLexeme => awaitCall (deleteLexeme id)
      end
  | OtherAction a => Throw (Js.mkError "Error" ("Unknown DocLogAction: " +:+ a))
  end.

(** The [subdocs] handler of the doclog, for one loaded block: bind the
    block to IndexedDB. *)
Definition onDoclogSubdocLoaded (subdoc : nat) : Async unit :=
  if bool_decide (MODE E ≠ "test") then
    s ← get;
    let g := default "" (guid <$> docHeap s !! subdoc) in
    persistence ← newPersistence g subdoc;
    _ ← newPromise (PkDoclogBlockSynced subdoc persistence);
    Ret tt
  else Ret tt.

(** The handlers attached to [persistence.whenSynced] of a doclog block:
    open the websocket provider once IndexedDB is synced. *)
Definition onDoclogBlockSynced (subdoc : nat) (o : Settled) : Async unit :=
  match o with
  | Fulfilled =>
      s ← get;
      let g := default "" (guid <$> docHeap s !! subdoc) in
      _ ← newProvider g subdoc;
      Ret tt
  | Rejected e =>
      log (EvOnError ("Error loading doclog block: " +:+ Js.message e) e)
  end.

(** *** The event loop's view *)

(** What runs when the provider promise under a derived promise settles. *)
Definition react (k : PromiseKind) (o : Settled) : Async unit :=
  match k with
  | PkThoughtIdbSynced docKey doc _ prov ws opts =>
      onThoughtIdbSynced docKey doc prov ws opts o
  | PkThoughtWebsocketSynced docKey doc _ =>
      match o with
      | Fulfilled => onThoughtWebsocketSynced docKey doc
      | Rejected e => Throw e
      end
  | PkLexemeIdbSynced key bg _ => onLexemeIdbSynced key bg o
  | PkLexemeWebsocketSynced _ =>
      match o with Fulfilled => Ret tt | Rejected e => Throw e end
  | PkDoclogBlockSynced doc _ => onDoclogBlockSynced doc o
  end.

(** The provider object whose promise a derived promise hangs on. *)
Definition promiseSource (k : PromiseKind) : nat :=
  match k with
  | PkThoughtIdbSynced _ _ pers _ _ _ => pers
  | PkThoughtWebsocketSynced _ _ prov => prov
  | PkLexemeIdbSynced _ _ pers => pers
  | PkLexemeWebsocketSynced prov => prov
  | PkDoclogBlockSynced _ pers => pers
  end.

(** The promise under the derived promise [p] settles with [o]: the
    handlers of [p] run. *)
Definition settle (p : nat) (o : Settled) : Async unit :=
  s ← get;
  match promises s !! p with
  | Some k => _ ← log (EvSettled (promiseSource k) o); react k o
  | None => Ret tt
  end.

(** What a timer runs when it fires. *)
Definition fire (f : TimerAction) : Async unit :=
  match f with
  | TaReplicateChildren docKey opts => _ ← replicateChildren docKey opts; Ret tt
  | TaReplicateLexeme key bg => _ ← replicateLexeme key bg; Ret tt
  | TaUpdateLexeme key lexemeNew lexemeOld => updateLexeme key lexemeNew lexemeOld
  | TaDispatch merged => dispatchTick merged
  | TaThrottleWindow => throttleWindowEnd dispatchMerged
  end.

(** How dropped work continues once what it waits for has settled. *)
Definition continue (f : Floating) (o : Settled) : Async unit :=
  match f, o with
  | FlFreeThought docKey _, Fulfilled => awaitCall (tryDeallocateThought docKey)
  | FlFreeLexeme key _, Fulfilled => awaitCall (tryDeallocateLexeme key)
  | FlOnThoughtChange t, Fulfilled => log (EvOnThoughtChange t)
  | FlOnError msg e, Fulfilled => _ ← log (EvConsoleError msg); log (EvOnError msg e)
  | FlOnUpdateThoughts merged, Fulfilled => log (EvOnUpdateThoughts merged false false true)
  | _, Rejected e => Throw e
  end.

(** The state of the module when it is loaded. *)
Definition initialState : State :=
  mkState emptyCache emptyCache
    (list_to_map ((fun id => (id, ROOT_PARENT_ID E)) <$> (ROOT_CONTEXTS E ++ [EM_TOKEN E])))
    None ∅ ∅ ∅ ∅ 0 [] [] [] false [].

(** [init] caches the resolved config before it resolves [config]. *)
Definition initConfig (cfg : Config) (s : State) : State :=
  with_configCache (Some cfg) s.

End Thoughtspace.

(** ** Scenarios *)

(** Calls issued in the same synchronous turn: each runs up to its first
    suspension, in call order, before any of them is resumed. *)
Fixpoint concurrently {A} (calls : list (Async A)) (s : State)
    : State * list (Outcome A) :=
  match calls with
  | [] => (s, [])
  | p :: ps =>
      let r := exec p s in
      let rs := concurrently ps r.1 in
      (rs.1, r.2 :: rs.2)
  end.

(** Resume suspended calls one after the other, all with the same outcome of
    what they wait for. *)
Fixpoint resumeAll {A} (rs : list (Outcome A)) (o : Settled) (s : State)
    : State * list (Outcome A) :=
  match rs with
  | [] => (s, [])
  | r :: rs' =>
      let r1 := resume r o s in
      let rest := resumeAll rs' o r1.1 in
      (rest.1, r1.2 :: rest.2)
  end.

(** Drive a suspended call to completion: it is resumed with [o] and every
    later await is answered by [oracle]. *)
Definition finish {A} (oracle : Awaited -> Settled) (r : Outcome A) (o : Settled)
    (s : State) : State * (A + Js.Error) :=
  match r with
  | Done a => (s, inl a)
  | Failed e => (s, inr e)
  | Suspended _ k => run oracle (k o) s
  end.

(** The call is suspended on [aw]. *)
Definition awaits {A} (aw : Awaited) (r : Outcome A) : Prop :=
  match r with
  | Suspended aw' _ => aw' = aw
  | _ => False
  end.

(** Constructions of documents and providers among the events. *)
Definition isCreation (ev : Event) : bool :=
  match ev with
  | EvNewDoc _ _ | EvNewPersistence _ _ _ | EvNewProvider _ _ _ => true
  | _ => false
  end.

Definition creations (t : list Event) : list Event := List.filter isCreation t.

(** Destructions of documents and providers among the events. *)
Definition isDestruction (ev : Event) : bool :=
  match ev with
  | EvDestroyDoc _ | EvDestroyProvider _ => true
  | _ => false
  end.

Definition destructions (t : list Event) : list Event := List.filter isDestruction t.

(** The timer at position [i] fires: it leaves the queue and its callback
    runs. *)
Definition fireTimer (E : Env) (i : nat) (s : State) : State :=
  match timers s !! i with
  | Some (_, f) => (exec (fire E f) (with_timers (fun l => take i l ++ drop (S i) l) s)).1
  | None => s
  end.

(** The dropped work at position [i] is resumed with outcome [o]. *)
Definition settleFloating (i : nat) (o : Settled) (s : State) : State :=
  match floating s !! i with
  | Some f =>
      (exec (continue f o) (with_floating (fun l => take i l ++ drop (S i) l) s)).1
  | None => s
  end.

(** *** Sample values of the imported constants *)

Definition sampleEnv : Env :=
  mkEnv "__ROOT__" "__EM__" "__ABSOLUTE__" "__ROOT_PARENT_ID__"
    ["__ROOT__"; "__ABSOLUTE__"] 3000 "production"
    (fun tsid docKey => tsid +:+ "/thought/" +:+ docKey)
    (fun tsid key => tsid +:+ "/lexeme/" +:+ key)
    (fun g => default "" (last (Js.split "/" g)))
    "connecting".

Definition sampleConfig : Config :=
  mkConfig "token" "tsid" None (fun _ => false) (fun _ _ => false).

(** The module after [init] has resolved. *)
Definition sampleState : State := initConfig sampleConfig (initialState sampleEnv).

(** ** The rest of the data provider *)

Section DataProvider.
Context (E : Env).

(** [init]: generate docKeys for cursor, otherwise replicateThought will
    fail.  [cursor.forEach((id, i) => docKeys.set(id, cursor[i - 1] ?? HOME_TOKEN))] *)
Definition seedCursor (cursor : option (list string)) : Async unit :=
  match cursor with
  | None => Ret tt
  | Some path =>
      forEach (imap (fun i id => (i, id)) path) (fun entry =>
        let previous := match entry.1 with O => None | S j => path !! j end in
        modify (with_docKeys <[entry.2 := default (HOME_TOKEN E) previous]>))
  end.

(** Gets a Lexeme from the lexemeIndex.  Replicates the Lexeme if not
    already done. *)
Definition getLexemeById (key : string) : Async (option Lexeme.t) :=
  replicateLexeme E key false.

(** Gets a thought from the thoughtIndex.  Replicates the thought if not
    already done. *)
Definition getThoughtById (id : string) : Async (option Thought.t) :=
  _ ← awaitCall (replicateThought E id defaultOptions);
  s ← get;
  let docKey := docKeys s !! id in
  let thoughtDoc := match docKey with Some k => thoughtDocs s !! k | None => None end in
  Ret (getThought (thoughtDoc ≫= (docHeap s !!.)) id).

(** [Promise.all(keys.map(getLexemeById))]: the calls are made one after
    the other in the same synchronous turn; what is returned here are those
    calls, each at its first suspension. *)
Definition getLexemesByIds (keys : list string) (s : State)
    : State * list (Outcome (option Lexeme.t)) :=
  concurrently (getLexemeById <$> keys) s.

(** [Promise.all(ids.map(getThoughtById))] *)
Definition getThoughtsByIds (ids : list string) (s : State)
    : State * list (Outcome (option Thought.t)) :=
  concurrently (getThoughtById <$> ids) s.

End DataProvider.

(** * Vocabulary of the properties *)

(** The shard [k] is resident in a cache, with these objects. *)
Definition resident (c : ShardCache) (k : string) (d p w pi pw : nat) : Prop :=
  docs c !! k = Some d ∧ persistence c !! k = Some p ∧
  websocketProvider c !! k = Some w ∧ idbSynced c !! k = Some pi ∧
  websocketSynced c !! k = Some pw.

(** Every thought stored in the doc has a children map, as [ThoughtDb]
    requires. *)
Definition wfDoc (doc : YDoc) : Prop :=
  Forall (fun child => is_Some (Thought.childrenMap child))
    (default [] (getChildren (Some doc))).

Definition wfHeap (s : State) : Prop :=
  map_Forall (fun _ doc => wfDoc doc) (docHeap s).




(** Run to completion under [oracle], the program returns normally, from
    every state and from the state [s]. *)
Definition succeeds {A} (oracle : Awaited -> Settled) (p : Async A) : Prop :=
  forall s, exists s' a, run oracle p s = (s', inl a).

Definition succeedsAt {A} (oracle : Awaited -> Settled) (s : State) (p : Async A) : Prop :=
  exists s' a, run oracle p s = (s', inl a).

(** What [deleteThought] and [deleteLexeme] settle to, by the outcome of
    clearing the database. *)
Definition deleteResult (outcome : Settled) : unit + Js.Error :=
  match outcome with
  | Fulfilled => inl tt
  | Rejected e => if bool_decide (Js.name e = "NotFoundError") then inl tt else inr e
  end.

(** The batches are submitted one after the other, each in its own
    synchronous segment. *)
Definition submitAll (bs : list PushBatch) (s : State) : State :=
  foldl (fun s b => (exec (updateThoughtsThrottled b) s).1) s bs.

(** In the trace, every websocket provider is constructed after the
    IndexedDB persistence of the same document has reported synced. *)
Definition providerAfterSync (t : list Event) : Prop :=
  forall i w n d, t !! i = Some (EvNewProvider w n d) ->
    exists j0 j p n', j0 < j ∧ j < i ∧ t !! j0 = Some (EvNewPersistence p n' d) ∧
      t !! j = Some (EvSettled p Fulfilled).

(** ** Sample inputs *)

Definition thoughtRecord (v : string) : YMap.t YVal :=
  [("c", Some (YStr "t0")); ("l", Some (YStr "t0")); ("m", Some (YIdx []));
   ("p", Some (YStr "p")); ("r", Some (YNum 0)); ("u", Some (YStr "u"));
   ("v", Some (YStr v))].

(** The thought doc of parent [p] as IndexedDB delivers it: one child [a]
    whose value is [old]. *)
Definition sampleThoughtDoc : YDoc :=
  mkDoc "tsid/thought/p" false [("docKey", Some (Some "__ROOT__"))]
    [("a", Some (thoughtRecord "old"))] [] 0 [].

(** The module once [p] has been replicated in the foreground and its doc
    is loaded. *)
Definition residentState : State :=
  with_docKeys <["a" := "p"]>
    (with_docHeap <[0 := sampleThoughtDoc]>
       (exec (replicateChildren sampleEnv "p" defaultOptions) sampleState).1).

(** The thought [a] with value [v], and after its value has been edited to
    [new]. *)
Definition sampleThought (v : string) : Thought.t :=
  Thought.mk "a" (Some []) (Some "t0") (Some "t1") (Some "p") (Some 0%Z) (Some "u")
    (Some v) None.

Definition editedThought : Thought.t := sampleThought "new".

(** A doclog block is loaded, and its IndexedDB persistence then syncs. *)
Definition doclogBlockScenario : State :=
  let s1 := (exec (newDoc "tsid/doclog/block/b") sampleState).1 in
  let s2 := (exec (onDoclogSubdocLoaded sampleEnv 0) s1).1 in
  (exec (settle sampleEnv 2 Fulfilled) s2).1.

(** A thought id, as [nanoid] may generate it, that contains the text
    [cx-]. *)
Definition idWithSeparator : string := "q7Zcx-Yb3kLmN0pRs2TuV".

(** The Lexeme [apple] is replicated in the foreground and the docKey of
    the thought is known. *)
Definition lexemeState : State :=
  with_docKeys <[idWithSeparator := "P"]>
    (exec (replicateLexeme sampleEnv "apple" false) sampleState).1.

Definition appleLexeme : Lexeme.t :=
  Lexeme.mk [idWithSeparator] (Some "t0") (Some "t0") (Some "u").

(** The Lexeme [apple] is resident and no docKey is known. *)
Definition appleResident : State :=
  (exec (replicateLexeme sampleEnv "apple" false) sampleState).1.

(** Clearing a database that does not exist is rejected with NotFoundError;
    everything else that is awaited is fulfilled. *)
Definition notFound : Js.Error := Js.mkError "NotFoundError" "Database not found".

Definition notFoundOracle (aw : Awaited) : Settled :=
  match aw with
  | AwCleared _ => Rejected notFound
  | _ => Fulfilled
  end.

(** Three notifications for the thought [a] in one throttle window: it is
    edited, deleted and written again. *)
Definition editBatch (v : option Thought.t) : PushBatch :=
  mkBatch {["a" := v]} ∅ ∅.

Definition threeBatches : list PushBatch :=
  [editBatch (Some (sampleThought "old")); editBatch None; editBatch (Some editedThought)].

(** Everything that is awaited is fulfilled. *)
Definition allFulfilled (aw : Awaited) : Settled := Fulfilled.

(** ** The stored form of a Lexeme *)




(** The state in which the lexeme Y.Map of the doc [doc] is [m]. *)
Definition withLexemeMap (doc : nat) (d0 : YDoc) (m : YMap.t string) (s : State)
    : State :=
  with_docHeap <[doc := setLexemeMap (fun _ => m) d0]> s.

(** A context id that the codec can store: it is not empty, does not
    contain the text [cx-], and its docKey is known. *)
Definition storable (dk : gmap string string) (cxid : string) : Prop :=
  Js.truthy cxid = true ∧ Js.includes "cx-" cxid = false ∧
  from_option Js.truthy false (dk !! cxid) = true.

(** One step of the loop of [replicateLexeme] that sets the docKeys of the
    contexts found in the raw Lexeme. *)
Definition recordContext (dk : gmap string string) (kv : string * string)
    : gmap string string :=
  match cxidOfKey kv.1 with
  | Some cxid => <[cxid := kv.2]> dk
  | None => dk
  end.

(** The Lexeme [apple] is resident and empty, and the docKey of the thought
    [X] is [P]. *)
Definition appleUnderP : State := with_docKeys <["X" := "P"]> appleResident.

(** The Lexeme [apple] with the one context [X]. *)
Definition appleInX : Lexeme.t :=
  Lexeme.mk ["X"] (Some "t0") (Some "t0") (Some "u").

(** The IndexedDB sync of a doc is aborted because the app is closed. *)
Definition abortError : Js.Error :=
  Js.mkError "AbortError" "The transaction was aborted".

(** [replicateChildren("k")] is called, the IndexedDB sync of its doc is
    aborted, the caller and the dropped [freeThought] are resumed, and the
    retry timer fires: the states after each of these steps. *)
Definition abortScenario : list State :=
  let call := exec (replicateChildren sampleEnv "k" defaultOptions) sampleState in
  let s1 := call.1 in
  let s2 := (exec (settle sampleEnv 2 (Rejected abortError)) s1).1 in
  let s3 := (resume call.2 Fulfilled s2).1 in
  let s4 := settleFloating 0 Fulfilled s3 in
  let s5 := fireTimer sampleEnv 0 s4 in
  [s1; s2; s3; s4; s5].

(** * Vocabulary of the further properties *)

(** The docKeys left when the children of a doc are forgotten: the loop of
    [tryDeallocateThought] over the thought maps of the doc. *)
Definition forgetChild (dk : gmap string string) (thoughtMap : YMap.t YVal)
    : gmap string string :=
  match as_str (YMap.get "id" thoughtMap) with
  | Some childId => delete childId dk
  | None => dk
  end.

(** ** Writes to the Document Key Index *)

(** The docKeys that the sync handlers of a thought doc set for a child and
    its children, in the order of the writes: [(id, docKey)] pairs. *)
Definition childDocKeys (docKey : string) (child : Thought.t) : list (string * string) :=
  (Thought.id child, docKey) ::
  match Thought.childrenMap child with
  | Some m => (fun kv : string * string => (kv.2, Thought.id child)) <$> m
  | None => []
  end.

Definition docKeyWrites (docKey : string) (children : list Thought.t)
    : list (string * string) :=
  children ≫= childDocKeys docKey.

(** The Document Key Index after the writes [kvs]. *)
Definition writeDocKeys (kvs : list (string * string)) (dk : gmap string string)
    : gmap string string :=
  foldl (fun dk kv => <[kv.1 := kv.2]> dk) dk kvs.

(** The docKey that the sync handlers of a thought doc set for the doc
    itself: its parent docKey, when there is one. *)
Definition parentDocKeyWrite (E : Env) (docKey : string) (doc : YDoc)
    : list (string * string) :=
  match parentDocKeyOf E docKey (Some doc) with
  | Some parentDocKey => if Js.truthy parentDocKey then [(docKey, parentDocKey)] else []
  | None => []
  end.

(** The doc of the parent of [docKey], when the parent's docKey is known
    and its doc is cached. *)
Definition parentDocOf (docKey : string) (s : State) : option nat :=
  match docKeys s !! docKey with
  | Some docKeyParent => if Js.truthy docKeyParent then thoughtDocs s !! docKeyParent else None
  | None => None
  end.

(** The docs once [docKey] has been deleted from the children of its
    parent. *)
Definition removeFromParent (docKey : string) (s : State) : gmap nat YDoc :=
  from_option (alter (setChildrenYMap (YMap.delete docKey))) (fun h => h)
    (parentDocOf docKey s) (docHeap s).

(** The call that starts clearing the database of [docKey]. *)
Definition clearEvent (E : Env) (cfg : Config) (docKey : string) (s : State) : Event :=
  match thoughtPersistence s !! docKey with
  | Some p => EvClearData p
  | None => EvClearDocument (encodeThoughtDocumentName E (tsid cfg) docKey)
  end.

(** The keys of a batch that have no cached doc when their call is made:
    the first occurrence of every key that is not in [cached]. *)
Fixpoint firstUncached (cached : gset string) (keys : list string) : list string :=
  match keys with
  | [] => []
  | k :: ks =>
      if decide (k ∈ cached) then firstUncached cached ks
      else k :: firstUncached ({[k]} ∪ cached) ks
  end.

(** The constructions made for the keys [new], one doc, one persistence and
    one provider each, with ids allocated from [n] on. *)
Fixpoint constructionsFor (name : string -> string) (n : nat) (new : list string)
    : list Event :=
  match new with
  | [] => []
  | k :: ks =>
      EvNewDoc n (name k) :: EvNewPersistence (S n) (name k) n ::
      EvNewProvider (S (S (S n))) (name k) n :: constructionsFor name (5 + n) ks
  end.

(** ** Further sample inputs *)

(** The constants of a test run. *)
Definition testEnv : Env :=
  mkEnv "__ROOT__" "__EM__" "__ABSOLUTE__" "__ROOT_PARENT_ID__"
    ["__ROOT__"; "__ABSOLUTE__"] 3000 "test"
    (fun tsid docKey => tsid +:+ "/thought/" +:+ docKey)
    (fun tsid key => tsid +:+ "/lexeme/" +:+ key)
    (fun g => default "" (last (Js.split "/" g)))
    "connecting".

Definition testState : State := initConfig sampleConfig (initialState testEnv).

(** A cursor three levels deep. *)
Definition cursorPath : list string := ["a"; "b"; "c"].

(** The thought doc of parent [p] with one child [a], which has the
    children [b] and [c]. *)
Definition familyDoc : YDoc :=
  mkDoc "tsid/thought/p" false [("docKey", Some (Some "__ROOT__"))]
    [("a", Some [("c", Some (YStr "t0")); ("l", Some (YStr "t0"));
                 ("m", Some (YIdx [("b", "b"); ("c", "c")]));
                 ("p", Some (YStr "p")); ("r", Some (YNum 0)); ("u", Some (YStr "u"));
                 ("v", Some (YStr "old"))])] [] 0 [].

Definition familyThought : Thought.t :=
  Thought.mk "a" (Some [("b", "b"); ("c", "c")]) (Some "t0") (Some "t0") (Some "p")
    (Some 0%Z) (Some "u") (Some "old") None.

(** [p] is resident and holds [familyDoc]; the docKey of [p] is known. *)
Definition familyState : State :=
  with_docKeys <["p" := "__ROOT__"]> (with_docHeap <[0 := familyDoc]> residentState).

(** The Lexeme [apple] is resident and holds the context [X]. *)
Definition appleWritten : State :=
  (exec (updateLexeme sampleEnv "apple" appleInX None) appleUnderP).1.

Definition appleDoc : YDoc :=
  mkDoc "tsid/lexeme/apple" false [] []
    [("cx-X", Some "P"); ("c", Some "t0"); ("l", Some "t0"); ("u", Some "u")] 0 [].

(** The docKeys of the siblings [a] and [b] and of their cousin [c] are
    known. *)
Definition siblingsState : State :=
  with_docKeys (fun dk => <["a" := "p"]> (<["b" := "p"]> (<["c" := "q"]> dk))) sampleState.

(** ** Lexeme docs *)

(** The context ids that [getLexeme] reads from a lexeme Y.Map, in
    iteration order. *)
Definition storedContexts (m : YMap.t string) : list string :=
  omap cxidOfKey (YMap.keys m).

(** Every context field of the map has the name that [updateLexeme] gives
    it. *)
Definition codecKeys (m : YMap.t string) : Prop :=
  forall k c, is_Some (YMap.get k m) -> cxidOfKey k = Some c -> k = "cx-" +:+ c.

(** A context of the new Lexeme that is not in the old one. *)
Definition addedContexts (lexemeNew lexemeOld : Lexeme.t) : list string :=
  List.filter (fun c => negb (bool_decide (c ∈ Lexeme.contexts lexemeOld)))
    (Lexeme.contexts lexemeNew).

(** The lexeme Y.Map after the transaction of [updateLexeme] for a Lexeme
    that is not new: fields of added contexts are set, fields of removed
    contexts are deleted, and the other properties are set. *)
Definition updatedLexemeMap (dk : gmap string string) (lexemeNew lexemeOld : Lexeme.t)
    (m : YMap.t string) : YMap.t string :=
  let added := foldl (fun m c =>
      if bool_decide (c ∈ Lexeme.contexts lexemeOld) then m
      else YMap.set ("cx-" +:+ c) (default "" (dk !! c)) m) m (Lexeme.contexts lexemeNew) in
  let removed := foldl (fun m c =>
      if bool_decide (c ∈ Lexeme.contexts lexemeNew) then m
      else YMap.delete ("cx-" +:+ c) m) added (Lexeme.contexts lexemeOld) in
  foldl (fun m k =>
      match lexemeField lexemeNew k with
      | Some v => YMap.set (lexemeKeyToDb k) v m
      | None => m
      end) removed [KCreated; KLastUpdated; KUpdatedBy].





(** A lexeme Y.Map as this module writes it: no key occurs twice, every
    context field has the name that [updateLexeme] gives it, and no field is
    named after a Lexeme property. *)
Definition wfLexemeMap (m : YMap.t string) : Prop :=
  NoDup m.*1 ∧ codecKeys m ∧
  Forall (fun k => YMap.get (lexemeKeyName k) m = None) [KCreated; KLastUpdated; KUpdatedBy].

(** The Lexeme that a new Lexeme is compared with. *)
Definition noLexeme : Lexeme.t := Lexeme.mk [] None None None.

(** ** Foregrounding *)

(** The docKeys that [onThoughtChange] sets for the children of a thought,
    in the order of the writes. *)
Definition grandchildDocKeys (thought : Thought.t) : list (string * string) :=
  match Thought.childrenMap thought with
  | Some m => (fun kv : string * string => (kv.2, Thought.id thought)) <$> m
  | None => []
  end.

(** The module once the loaded child [child] of the doc [doc] of [docKey]
    has been foregrounded. *)
Definition foregrounded (docKey : string) (doc : nat) (s : State) (child : Thought.t)
    : State :=
  with_docHeap (alter (observeThought (Thought.id child)) doc)
    (with_floating (fun l => l ++ [FlOnThoughtChange child])
       (with_docKeys (writeDocKeys (grandchildDocKeys child))
          (with_thoughts (with_retained (fun r => {[docKey]} ∪ r)) s))).

(** A configuration in which every thought and every Lexeme is loaded. *)
Definition loadedConfig : Config :=
  mkConfig "token" "tsid" None (fun _ => true) (fun _ _ => true).
(** * Properties *)

(** ** Execution of composed programs *)

Lemma exec_andThen {A B} (p : Async A) (f : A -> Async B) (h : Js.Error -> Async B) s :
  exec (andThen p f h) s =
  match exec p s with
  | (s', Done a) => exec (f a) s'
  | (s', Failed e) => exec (h e) s'
  | (s', Suspended aw k) => (s', Suspended aw (fun o => andThen (k o) f h))
  end.
Proof.
  revert s. induction p as [a|e|aw k IH|k IH|g k IH]; intros s; simpl; auto.
Qed.

Lemma exec_bind {A B} (p : Async A) (f : A -> Async B) s :
  exec (p ≫= f) s =
  match exec p s with
  | (s', Done a) => exec (f a) s'
  | (s', Failed e) => (s', Failed e)
  | (s', Suspended aw k) => (s', Suspended aw (fun o => k o ≫= f))
  end.
Proof.
  unfold mbind, Async_bind, bind. rewrite exec_andThen.
  destruct (exec p s) as [s' [a|e|aw k]]; reflexivity.
Qed.

Lemma run_andThen {A B} oracle (p : Async A) (f : A -> Async B)
    (h : Js.Error -> Async B) s :
  run oracle (andThen p f h) s =
  match run oracle p s with
  | (s', inl a) => run oracle (f a) s'
  | (s', inr e) => run oracle (h e) s'
  end.
Proof.
  revert s. induction p as [a|e|aw k IH|k IH|g k IH]; intros s; simpl; auto.
Qed.

Lemma run_bind {A B} oracle (p : Async A) (f : A -> Async B) s :
  run oracle (p ≫= f) s =
  match run oracle p s with
  | (s', inl a) => run oracle (f a) s'
  | (s', inr e) => (s', inr e)
  end.
Proof.
  unfold mbind, Async_bind, bind. rewrite run_andThen.
  destruct (run oracle p s) as [s' [a|e]]; reflexivity.
Qed.

Ltac destruct_state s :=
  let th := fresh "th" in let lx := fresh "lx" in
  destruct s as [th lx ? ? ? ? ? ? ? ? ? ? ? ?];
  destruct th as [? ? ? ? ? ?]; destruct lx as [? ? ? ? ? ?];
  unfold thoughtDocs, thoughtPersistence, thoughtRetained, thoughtWebsocketProvider,
    thoughtIDBSynced, thoughtWebsocketSynced, lexemeDocs, lexemePersistence,
    lexemeRetained, lexemeWebsocketProvider, lexemeIDBSynced, lexemeWebsocketSynced in *;
  cbn [thoughts lexemes docKeys configCache docHeap persHeap provHeap promises nextId
       timers floating throttleAccum throttleWindow trace
       docs persistence retained websocketProvider idbSynced websocketSynced] in *.

(** Symbolic execution: [exec] is pushed through binds by rewriting, and
    only the primitives at the head are unfolded, so that the program still
    to run stays as it is written. *)
Ltac ex1 :=
  cbn [exec run finish resume get gets modify log when await from_option isUndefined mret Async_ret
       setTimeout configThen negb orb andb fst snd awaits default
       background onDoc remote
       thoughtDocs thoughtPersistence thoughtRetained thoughtWebsocketProvider
       thoughtIDBSynced thoughtWebsocketSynced lexemeDocs lexemePersistence
       lexemeRetained lexemeWebsocketProvider lexemeIDBSynced lexemeWebsocketSynced
       with_docs with_persistence with_retained with_websocketProvider with_idbSynced
       with_websocketSynced with_thoughts with_lexemes with_docKeys with_configCache
       with_docHeap with_persHeap with_provHeap with_promises with_nextId with_timers
       with_floating with_throttle with_trace uncache
       thoughts lexemes docKeys configCache docHeap persHeap provHeap promises nextId
       timers floating throttleAccum throttleWindow trace
       docs persistence retained websocketProvider idbSynced websocketSynced].

(** Normal form of a state built with the field updates. *)
Ltac st :=
  unfold with_timers, with_floating, with_throttle, with_trace, with_docKeys,
    with_docHeap, with_persHeap, with_provHeap, with_promises, with_nextId,
    with_configCache, with_thoughts, with_lexemes;
  cbn [thoughts lexemes docKeys configCache docHeap persHeap provHeap promises nextId
       timers floating throttleAccum throttleWindow trace].

Ltac ex :=
  repeat first
    [ rewrite exec_bind
    | progress ex1
    | progress unfold readConfig, newDoc, newPersistence, newProvider, newPromise,
        freshPromise, destroyDoc, destroyProvider ].

Ltac rn :=
  repeat first
    [ rewrite run_bind
    | rewrite run_andThen
    | progress ex1
    | progress unfold readConfig, newDoc, newPersistence, newProvider, newPromise,
        freshPromise, destroyDoc, destroyProvider, awaitCall, tryCatch ].

Lemma creations_app t1 t2 : creations (t1 ++ t2) = creations t1 ++ creations t2.
Proof. apply List.filter_app. Qed.

Section Properties.
Context (E : Env).

(** *** Deduplication of concurrent replications *)

Lemma replicateChildren_fresh k opts s cfg :
  MODE E ≠ "test" -> configCache s = Some cfg -> thoughtDocs s !! k = None ->
  remote opts = true ->
  let n := encodeThoughtDocumentName E (tsid cfg) k in
  let d := nextId s in
  let r := exec (replicateChildren E k opts) s in
  awaits (AwPromise (Some (S (S d)))) r.2 ∧
  configCache r.1 = Some cfg ∧
  resident (thoughts r.1) k d (S d) (S (S (S d))) (S (S d)) (S (S (S (S d)))) ∧
  creations (trace r.1) = creations (trace s) ++
    [EvNewDoc d n; EvNewPersistence (S d) n d; EvNewProvider (S (S (S d))) n d].
Proof.
  intros Hmode Hcfg Hdoc Hrem n d r. subst r n d. unfold resident.
  destruct_state s. subst. destruct opts as [bg od rm]. simpl in Hrem. subst rm.
  unfold replicateChildren. ex. rewrite Hdoc.
  destruct bg, od; ex; rewrite Hdoc, (bool_decide_eq_false_2 _ Hmode); ex;
    unfold replicateChildrenFresh; ex;
    rewrite !lookup_insert_eq, !creations_app; simpl; rewrite ?app_nil_r, <- ?app_assoc;
    auto 10.
Qed.

Lemma replicateChildren_cached k opts s cfg d :
  configCache s = Some cfg -> thoughtDocs s !! k = Some d ->
  let r := exec (replicateChildren E k opts) s in
  awaits (AwPromise (if background opts && remote opts
                     then thoughtWebsocketSynced s !! k
                     else thoughtIDBSynced s !! k)) r.2 ∧
  configCache r.1 = Some cfg ∧
  thoughts r.1 =
    with_retained (fun ret => if background opts then ret else {[k]} ∪ ret) (thoughts s) ∧
  trace r.1 = trace s ++ (if onDoc opts then [EvOnDoc d] else []).
Proof.
  intros Hcfg Hdoc r. subst r.
  destruct_state s. subst. destruct opts as [bg od rm].
  unfold replicateChildren. ex. rewrite Hdoc.
  destruct bg, od, rm; ex; rewrite Hdoc; ex; unfold replicateChildrenCached; ex;
    rewrite ?app_nil_r; auto.
Qed.


Lemma creations_onDoc t (b : bool) d :
  creations (t ++ (if b then [EvOnDoc d] else [])) = creations t.
Proof. rewrite creations_app. destruct b; simpl; by rewrite app_nil_r. Qed.

Lemma destructions_onDoc t (b : bool) d :
  destructions (t ++ (if b then [EvOnDoc d] else [])) = destructions t.
Proof.
  unfold destructions. rewrite List.filter_app. destruct b; simpl; by rewrite app_nil_r.
Qed.


Lemma replicateLexeme_fresh k bg s cfg :
  MODE E ≠ "test" -> configCache s = Some cfg -> lexemeDocs s !! k = None ->
  isSpecialToken E k = false ->
  let n := encodeLexemeDocumentName E (tsid cfg) k in
  let d := nextId s in
  let r := exec (replicateLexeme E k bg) s in
  awaits (AwPromise (Some (S (S d)))) r.2 ∧
  configCache r.1 = Some cfg ∧
  resident (lexemes r.1) k d (S d) (S (S (S d))) (S (S d)) (S (S (S (S d)))) ∧
  creations (trace r.1) = creations (trace s) ++
    [EvNewDoc d n; EvNewPersistence (S d) n d; EvNewProvider (S (S (S d))) n d].
Proof.
  intros Hmode Hcfg Hdoc Hsp n d r. subst r n d. unfold replicateLexeme, resident.
  rewrite Hsp. destruct_state s. subst. ex. rewrite Hdoc.
  destruct bg; ex; rewrite Hdoc, (bool_decide_eq_false_2 _ Hmode); ex;
    unfold replicateLexemeFresh; ex;
    rewrite !lookup_insert_eq, !creations_app; simpl; rewrite ?app_nil_r, <- ?app_assoc;
    auto 10.
Qed.

Lemma replicateLexeme_cached k bg s cfg d :
  configCache s = Some cfg -> lexemeDocs s !! k = Some d ->
  isSpecialToken E k = false ->
  let r := exec (replicateLexeme E k bg) s in
  awaits (AwPromise (if bg then lexemeWebsocketSynced s !! k
                     else lexemeIDBSynced s !! k)) r.2 ∧
  configCache r.1 = Some cfg ∧
  lexemes r.1 = with_retained (fun ret => if bg then ret else {[k]} ∪ ret) (lexemes s) ∧
  trace r.1 = trace s.
Proof.
  intros Hcfg Hdoc Hsp r. subst r. unfold replicateLexeme.
  rewrite Hsp. destruct_state s. subst. ex. rewrite Hdoc.
  destruct bg; ex; rewrite Hdoc; ex; unfold replicateLexemeCached; ex; auto.
Qed.



(** *** Retention *)

Lemma run_forEach {A} oracle (f : A -> Async unit) (g : A -> State -> State) xs s :
  (forall x s, run oracle (f x) s = (g x s, inl tt)) ->
  run oracle (forEach xs f) s = (foldl (fun s x => g x s) s xs, inl tt).
Proof.
  intros Hf. revert s. induction xs as [|x xs IH]; intros s; cbn [forEach foldl].
  { reflexivity. }
  unfold bind. rewrite run_andThen, Hf. apply IH.
Qed.

Lemma tryDeallocateThought_retained k s :
  k ∈ thoughtRetained s -> exec (tryDeallocateThought k) s = (s, Done tt).
Proof.
  intros Hin. destruct_state s. unfold tryDeallocateThought. ex.
  rewrite decide_True by done. reflexivity.
Qed.

Lemma tryDeallocateLexeme_retained k s :
  k ∈ lexemeRetained s -> exec (tryDeallocateLexeme k) s = (s, Done tt).
Proof.
  intros Hin. destruct_state s. unfold tryDeallocateLexeme. ex.
  rewrite decide_True by done. reflexivity.
Qed.

Lemma run_exec_done {A} oracle (p : Async A) s s' a :
  exec p s = (s', Done a) -> run oracle p s = (s', inl a).
Proof.
  revert s. induction p as [b|e|aw k IH|k IH|g k IH]; intros s; simpl; intros Heq;
    try (by inversion Heq); auto.
Qed.

Lemma freeThought_retained_noop oracle k s s2 :
  k ∈ thoughtRetained s2 ->
  finish oracle (exec (freeThought k) s).2 Fulfilled s2 = (s2, inl tt).
Proof.
  intros Hin. destruct_state s. unfold freeThought. ex. rn.
  rewrite (run_exec_done _ _ _ _ _ (tryDeallocateThought_retained k s2 Hin)). rn.
  reflexivity.
Qed.

Lemma freeLexeme_retained_noop oracle k s s2 :
  k ∈ lexemeRetained s2 ->
  finish oracle (exec (freeLexeme k) s).2 Fulfilled s2 = (s2, inl tt).
Proof.
  intros Hin. destruct_state s. unfold freeLexeme. ex. rn.
  rewrite (run_exec_done _ _ _ _ _ (tryDeallocateLexeme_retained k s2 Hin)). rn.
  reflexivity.
Qed.

Lemma freeThought_begin k s :
  (exec (freeThought k) s).1 = with_thoughts (with_retained (fun r => r ∖ {[k]})) s.
Proof. destruct_state s. unfold freeThought. ex. reflexivity. Qed.

Lemma freeLexeme_begin k s :
  (exec (freeLexeme k) s).1 = with_lexemes (with_retained (fun r => r ∖ {[k]})) s.
Proof. destruct_state s. unfold freeLexeme. ex. reflexivity. Qed.

Lemma replicateChildren_foreground k opts s cfg :
  MODE E ≠ "test" -> configCache s = Some cfg -> background opts = false ->
  let r := exec (replicateChildren E k opts) s in
  k ∈ thoughtRetained r.1 ∧ configCache r.1 = Some cfg ∧
  exists d, thoughtDocs r.1 !! k = Some d.
Proof.
  intros Hmode Hcfg Hbg. destruct (thoughtDocs s !! k) eqn:Hdoc.
  all: destruct_state s; subst; destruct opts as [bg od rm].
  all: simpl in Hbg; subst bg; unfold replicateChildren; ex.
  all: rewrite (bool_decide_eq_false_2 _ Hmode).
  all: destruct od, rm;
    repeat first [ progress ex | rewrite Hdoc
                 | progress unfold replicateChildrenCached, replicateChildrenFresh ];
    (split; [set_solver|split; [done|]]); rewrite ?lookup_insert_eq; eauto.
Qed.

Lemma replicateLexeme_foreground k s cfg :
  MODE E ≠ "test" -> configCache s = Some cfg -> isSpecialToken E k = false ->
  let r := exec (replicateLexeme E k false) s in
  k ∈ lexemeRetained r.1 ∧ configCache r.1 = Some cfg ∧
  exists d, lexemeDocs r.1 !! k = Some d.
Proof.
  intros Hmode Hcfg Hsp. destruct (lexemeDocs s !! k) eqn:Hdoc.
  all: destruct_state s; subst; unfold replicateLexeme.
  all: rewrite Hsp; ex; rewrite (bool_decide_eq_false_2 _ Hmode).
  all:
    repeat first [ progress ex | rewrite Hdoc
                 | progress unfold replicateLexemeCached, replicateLexemeFresh ];
    (split; [set_solver|split; [done|]]); rewrite ?lookup_insert_eq; eauto.
Qed.

Lemma with_docKeys_id s : with_docKeys (fun dk => dk) s = s.
Proof. by destruct_state s. Qed.

Lemma foldl_with_docKeys {A} (g : A -> gmap string string -> gmap string string) xs s :
  foldl (fun s x => with_docKeys (g x) s) s xs =
  with_docKeys (fun dk => foldl (fun dk x => g x dk) dk xs) s.
Proof.
  revert s. induction xs as [|x xs IH]; intros s; cbn [foldl].
  - by rewrite with_docKeys_id.
  - by rewrite IH.
Qed.

Lemma run_setChildrenDocKeys oracle k children s :
  Forall (fun child => is_Some (Thought.childrenMap child)) (default [] children) ->
  exists f, run oracle (setChildrenDocKeys k children) s = (with_docKeys f s, inl tt).
Proof.
  intros Hwf. unfold setChildrenDocKeys. revert s.
  induction Hwf as [|child cs [m Hm] _ IH]; intros s; cbn [forEach].
  { exists (fun m => m). by rewrite with_docKeys_id. }
  unfold bind at 1. rewrite run_andThen. rn. rewrite Hm. cbn [objectValues]. rn.
  erewrite (run_forEach oracle _
    (fun g => with_docKeys <[g := Thought.id child]>)) by reflexivity.
  rewrite foldl_with_docKeys.
  match goal with |- context [run oracle _ ?s'] => destruct (IH s') as [f Hf] end.
  rewrite Hf.
  exists (fun dk => f (foldl (fun dk0 x => <[x:=Thought.id child]> dk0)
                        (<[Thought.id child:=k]> dk) m.*2)).
  reflexivity.
Qed.

Lemma replicateChildren_cached_read oracle k opts s cfg d :
  configCache s = Some cfg -> thoughtDocs s !! k = Some d -> wfHeap s ->
  let r := exec (replicateChildren E k opts) s in
  exists s', finish oracle r.2 Fulfilled r.1 = (s', inl (getChildren (docHeap s !! d))) ∧
    thoughtDocs s' !! k = Some d ∧ trace s' = trace r.1.
Proof.
  intros Hcfg Hdoc Hwf r. subst r.
  assert (Forall (fun child => is_Some (Thought.childrenMap child))
            (default [] (getChildren (docHeap s !! d)))) as Hch.
  { destruct (docHeap s !! d) as [doc|] eqn:Hd; [|by constructor].
    by apply (Hwf d doc). }
  destruct_state s. subst. destruct opts as [bg od rm].
  unfold replicateChildren. ex. rewrite Hdoc.
  destruct bg, od, rm; ex; rewrite Hdoc; ex; unfold replicateChildrenCached; ex; rn.
  all: match goal with |- context [run _ (setChildrenDocKeys _ ?c) ?s'] =>
         destruct (run_setChildrenDocKeys oracle k c s' Hch) as [f Hf]; rewrite Hf end.
  all: rn; eexists; split; [reflexivity|]; split; ex1; done.
Qed.

Lemma replicateLexeme_cached_read oracle k bg s cfg d :
  configCache s = Some cfg -> lexemeDocs s !! k = Some d ->
  isSpecialToken E k = false ->
  let r := exec (replicateLexeme E k bg) s in
  finish oracle r.2 Fulfilled r.1 = (r.1, inl (getLexeme (docHeap s !! d))).
Proof.
  intros Hcfg Hdoc Hsp r. subst r. unfold replicateLexeme. rewrite Hsp.
  destruct_state s. subst. ex. rewrite Hdoc.
  destruct bg; ex; rewrite Hdoc; ex; unfold replicateLexemeCached; ex; rn; reflexivity.
Qed.

(** C2.  When [freeThought(k)] (or [freeLexeme(k')]) has been called and a
    foreground replication retains the key again before the teardown
    runs, the teardown is a no-op: [freeThought] completes without
    changing the state, so the document and its providers are neither
    destroyed nor uncached, and a later read is served from the same
    document without constructing anything. *)
Theorem retention_safety
    (s : State) (cfg : Config) (k k' : string) (opts opts' : ReplicateOptions)
    (bg' : bool) (oracle : Awaited -> Settled) :
  MODE E ≠ "test" -> configCache s = Some cfg -> background opts = false ->
  isSpecialToken E k' = false ->
  wfHeap (exec (replicateChildren E k opts) (exec (freeThought k) s).1).1 ->
  (let freed := exec (freeThought k) s in
   let again := exec (replicateChildren E k opts) freed.1 in
   k ∈ thoughtRetained again.1 ∧
   finish oracle freed.2 Fulfilled again.1 = (again.1, inl tt) ∧
   ∃ d, thoughtDocs again.1 !! k = Some d ∧
     let read := exec (replicateChildren E k opts') again.1 in
     ∃ s', finish oracle read.2 Fulfilled read.1 =
             (s', inl (getChildren (docHeap again.1 !! d))) ∧
           thoughtDocs s' !! k = Some d ∧
           creations (trace s') = creations (trace again.1) ∧
           destructions (trace s') = destructions (trace again.1)) ∧
  (let freed := exec (freeLexeme k') s in
   let again := exec (replicateLexeme E k' false) freed.1 in
   k' ∈ lexemeRetained again.1 ∧
   finish oracle freed.2 Fulfilled again.1 = (again.1, inl tt) ∧
   ∃ d, lexemeDocs again.1 !! k' = Some d ∧
     let read := exec (replicateLexeme E k' bg') again.1 in
     finish oracle read.2 Fulfilled read.1 =
       (read.1, inl (getLexeme (docHeap again.1 !! d))) ∧
     lexemeDocs read.1 !! k' = Some d ∧
     trace read.1 = trace again.1).
Proof.
  intros Hmode Hcfg Hbg Hsp Hwf. split.
  - cbn zeta. rewrite freeThought_begin in *.
    assert (configCache (with_thoughts (with_retained (fun r => r ∖ {[k]})) s) = Some cfg)
      as Hcfg1 by (by destruct_state s).
    destruct (replicateChildren_foreground k opts _ cfg Hmode Hcfg1 Hbg)
      as (Hret & Hcfg2 & d & Hd).
    split; [exact Hret|]. split.
    { rewrite <- (freeThought_begin k s).
      apply freeThought_retained_noop, Hret. }
    exists d. split; [exact Hd|].
    destruct (replicateChildren_cached k opts' _ cfg d Hcfg2 Hd)
      as (_ & _ & _ & Htr).
    destruct (replicateChildren_cached_read oracle k opts' _ cfg d Hcfg2 Hd Hwf)
      as (s' & Hfin & Hd' & Htr').
    exists s'. split; [exact Hfin|]. split; [exact Hd'|].
    rewrite Htr', Htr, creations_onDoc, destructions_onDoc. done.
  - cbn zeta. rewrite freeLexeme_begin in *.
    assert (configCache (with_lexemes (with_retained (fun r => r ∖ {[k']})) s) = Some cfg)
      as Hcfg1 by (by destruct_state s).
    destruct (replicateLexeme_foreground k' _ cfg Hmode Hcfg1 Hsp)
      as (Hret & Hcfg2 & d & Hd).
    split; [exact Hret|]. split.
    { rewrite <- (freeLexeme_begin k' s).
      apply freeLexeme_retained_noop, Hret. }
    exists d. split; [exact Hd|].
    destruct (replicateLexeme_cached k' bg' _ cfg d Hcfg2 Hd Hsp)
      as (_ & _ & Hres & Htr).
    split; [by apply replicateLexeme_cached_read with cfg|].
    split; [|exact Htr].
    unfold lexemeDocs in *. rewrite Hres. exact Hd.
Qed.

(** *** Special tokens *)

(** C10.  For a key equal to one of the special context tokens,
    [replicateLexeme] returns [undefined] in its first synchronous segment
    and leaves the whole module state as it was: no document or provider
    is constructed and neither the lexeme caches nor the retained set
    change. *)
Theorem replicateLexeme_special_token (key : string) (bg : bool) (s : State) :
  key = HOME_TOKEN E ∨ key = EM_TOKEN E ∨ key = ABSOLUTE_TOKEN E ->
  exec (replicateLexeme E key bg) s = (s, Done None).
Proof.
  intros H. unfold replicateLexeme.
  assert (isSpecialToken E key = true) as ->.
  { unfold isSpecialToken. rewrite !orb_true_iff, !bool_decide_eq_true. tauto. }
  reflexivity.
Qed.

(** *** Missing document keys *)




(** *** Failures of the local storage sync *)








(** *** Deletion *)

Create HintDb succ.

Section Succeeds.
Context (oracle : Awaited -> Settled).

Lemma succeeds_Ret {A} (a : A) : succeeds oracle (Ret a).
Proof. intros s. by exists s, a. Qed.

Lemma succeeds_Read {A} (k : State -> Async A) :
  (forall s, succeeds oracle (k s)) -> succeeds oracle (Read k).
Proof. intros H s. apply (H s s). Qed.

Lemma succeeds_Upd {A} f (k : Async A) : succeeds oracle k -> succeeds oracle (Upd f k).
Proof. intros H s. apply (H (f s)). Qed.

Lemma succeeds_Await {A} aw (k : Settled -> Async A) :
  succeeds oracle (k (oracle aw)) -> succeeds oracle (Await aw k).
Proof. intros H s. apply (H s). Qed.

Lemma succeeds_andThen {A B} (p : Async A) (f : A -> Async B) h :
  succeeds oracle p -> (forall a, succeeds oracle (f a)) -> succeeds oracle (andThen p f h).
Proof.
  intros Hp Hf s. rewrite run_andThen. destruct (Hp s) as (s' & a & ->). apply Hf.
Qed.

Lemma succeeds_bind {A B} (p : Async A) (f : A -> Async B) :
  succeeds oracle p -> (forall a, succeeds oracle (f a)) -> succeeds oracle (p ≫= f).
Proof. apply succeeds_andThen. Qed.

Lemma succeeds_get : succeeds oracle get.
Proof. apply succeeds_Read. intros s. apply succeeds_Ret. Qed.

Lemma succeeds_gets {A} (f : State -> A) : succeeds oracle (gets f).
Proof. apply succeeds_Read. intros s. apply succeeds_Ret. Qed.

Lemma succeeds_modify f : succeeds oracle (modify f).
Proof. apply succeeds_Upd, succeeds_Ret. Qed.

Lemma succeeds_log ev : succeeds oracle (log ev).
Proof. apply succeeds_modify. Qed.

Lemma succeeds_when b p : succeeds oracle p -> succeeds oracle (when b p).
Proof. destruct b; [done|]. intros _. apply succeeds_Ret. Qed.

Lemma succeeds_await aw : oracle aw = Fulfilled -> succeeds oracle (await aw).
Proof. intros H. apply succeeds_Await. rewrite H. apply succeeds_Ret. Qed.

Lemma succeeds_awaitCall {A} (p : Async A) : succeeds oracle p -> succeeds oracle (awaitCall p).
Proof.
  intros H. apply succeeds_andThen; [done|]. intros a.
  apply succeeds_Await, succeeds_Ret.
Qed.

Lemma succeeds_forEach {A} (f : A -> Async unit) xs :
  (forall x, succeeds oracle (f x)) -> succeeds oracle (forEach xs f).
Proof.
  intros H. induction xs as [|x xs IH]; cbn [forEach]; [apply succeeds_Ret|].
  apply succeeds_andThen; auto.
Qed.

Lemma succeeds_setTimeout f ms : succeeds oracle (setTimeout f ms).
Proof. apply succeeds_modify. Qed.

Lemma succeeds_configThen cb : succeeds oracle (configThen cb).
Proof. apply succeeds_modify. Qed.

Lemma succeeds_from_option {A B} (f : A -> Async B) p o :
  (forall a, succeeds oracle (f a)) -> succeeds oracle p -> succeeds oracle (from_option f p o).
Proof. intros. destruct o; simpl; auto. Qed.

#[local] Hint Resolve succeeds_Ret succeeds_get succeeds_gets succeeds_modify
  succeeds_log succeeds_setTimeout succeeds_configThen : succ.

Hypothesis Horacle : forall aw, (forall n, aw ≠ AwCleared n) -> oracle aw = Fulfilled.

Lemma succeeds_await_other aw : (forall n, aw ≠ AwCleared n) -> succeeds oracle (await aw).
Proof. intros H. apply succeeds_await, Horacle, H. Qed.

(** Syntax-directed proof that a program without [throw] succeeds. *)
Ltac succ1 :=
  lazymatch goal with
  | |- forall _, _ => intros
  | |- succeeds oracle (mbind _ _) => apply succeeds_bind
  | |- succeeds oracle (bind _ _) => apply succeeds_andThen
  | |- succeeds oracle (forEach _ _) => apply succeeds_forEach
  | |- succeeds oracle (when _ _) => apply succeeds_when
  | |- succeeds oracle (awaitCall _) => apply succeeds_awaitCall
  | |- succeeds oracle (from_option _ _ _) => apply succeeds_from_option
  | |- succeeds oracle (await _) => apply succeeds_await_other; intros; discriminate
  | |- succeeds oracle (Await _ _) =>
      apply succeeds_Await; rewrite Horacle by (intros; discriminate)
  | |- succeeds oracle (Read _) => apply succeeds_Read
  | |- succeeds oracle (Upd _ _) => apply succeeds_Upd
  | |- succeeds oracle (match ?x with _ => _ end) => destruct x eqn:?
  | |- _ => solve [auto with succ]
  end.
Ltac succ := repeat succ1.

Lemma succeeds_destroyDoc d : succeeds oracle (destroyDoc d).
Proof. unfold destroyDoc. succ. Qed.

Lemma succeeds_destroyProvider w : succeeds oracle (destroyProvider w).
Proof. unfold destroyProvider. succ. Qed.

#[local] Hint Resolve succeeds_destroyDoc succeeds_destroyProvider : succ.

Lemma succeeds_tryDeallocateThought k : succeeds oracle (tryDeallocateThought k).
Proof. unfold tryDeallocateThought. succ. Qed.

Lemma succeeds_tryDeallocateLexeme k : succeeds oracle (tryDeallocateLexeme k).
Proof. unfold tryDeallocateLexeme. succ. Qed.

#[local] Hint Resolve succeeds_tryDeallocateThought succeeds_tryDeallocateLexeme : succ.

Lemma succeeds_freeThought k : succeeds oracle (freeThought k).
Proof. unfold freeThought. succ. Qed.

Lemma succeeds_freeLexeme k : succeeds oracle (freeLexeme k).
Proof. unfold freeLexeme. succ. Qed.

Lemma succeeds_updateThoughtsThrottled b : succeeds oracle (updateThoughtsThrottled b).
Proof. unfold updateThoughtsThrottled, throttleConcat. succ. Qed.

#[local] Hint Resolve succeeds_freeThought succeeds_freeLexeme
  succeeds_updateThoughtsThrottled : succ.

Lemma succeeds_onLexemeChange doc self : succeeds oracle (onLexemeChange E doc self).
Proof. unfold onLexemeChange. succ. Qed.

#[local] Hint Resolve succeeds_onLexemeChange : succ.

Lemma succeeds_newDoc g : succeeds oracle (newDoc g).
Proof. unfold newDoc. succ. Qed.

Lemma succeeds_newPersistence n d : succeeds oracle (newPersistence n d).
Proof. unfold newPersistence. succ. Qed.

Lemma succeeds_newProvider n d : succeeds oracle (newProvider E n d).
Proof. unfold newProvider. succ. Qed.

Lemma succeeds_newPromise k : succeeds oracle (newPromise k).
Proof. unfold newPromise, freshPromise. succ. Qed.

#[local] Hint Resolve succeeds_newDoc succeeds_newPersistence succeeds_newProvider
  succeeds_newPromise : succ.

Lemma succeeds_setContextDocKeys raw : succeeds oracle (setContextDocKeys raw).
Proof. unfold setContextDocKeys. succ. Qed.

#[local] Hint Resolve succeeds_setContextDocKeys : succ.

Lemma run_await aw s :
  run oracle (await aw) s =
  match oracle aw with Fulfilled => (s, inl tt) | Rejected e => (s, inr e) end.
Proof. unfold await. cbn [run]. by destruct (oracle aw). Qed.

Lemma succeedsAt_replicateLexeme s cfg k :
  configCache s = Some cfg -> succeedsAt oracle s (replicateLexeme E k false).
Proof.
  intros Hcfg. unfold succeedsAt, replicateLexeme.
  destruct (isSpecialToken E k); [by eexists _, _|].
  rewrite run_bind. cbn [get run]. rewrite Hcfg. cbn [isUndefined when].
  rewrite run_bind. cbn [run]. unfold readConfig. rewrite !run_bind. cbn [get run].
  rewrite Hcfg. cbn [run].
  match goal with |- context [run oracle ?p s] =>
    assert (succeeds oracle p) as Hs; [|apply (Hs s)] end.
  unfold replicateLexemeCached, replicateLexemeFresh, replicateLexemeSynced.
  cbn [negb]. succ.
Qed.

Lemma succeedsAt_updateLexeme_clear s cfg key lexemeOld c l u :
  configCache s = Some cfg ->
  succeedsAt oracle s (updateLexeme E key (Lexeme.mk [] c l u) (Some lexemeOld)).
Proof.
  intros Hcfg. unfold succeedsAt, updateLexeme.
  rewrite run_bind. cbn [get run]. rewrite run_bind.
  assert (succeedsAt oracle s (when (isUndefined (lexemeDocs s !! key))
            (awaitCall (replicateLexeme E key false) ≫= λ _, Ret ()))) as (s1 & [] & ->).
  { destruct (lexemeDocs s !! key); cbn [isUndefined when]; [by eexists _, _|].
    unfold succeedsAt. rewrite run_bind. unfold awaitCall. rewrite run_andThen.
    destruct (succeedsAt_replicateLexeme s cfg key Hcfg) as (s1 & a & ->).
    cbn [run]. by eexists _, _. }
  match goal with |- context [run oracle ?p s1] =>
    assert (succeeds oracle p) as Hs; [|apply (Hs s1)] end.
  unfold updateLexemeTransaction, removeContext, setLexemeField, lexemeKeys.
  cbn [Lexeme.contexts forEach]. succ.
Qed.

Context (outcome : Settled).
Hypothesis Hcleared : forall n, oracle (AwCleared n) = outcome.

Lemma run_clear_and_free (free : Async unit) pers n s :
  succeeds oracle free ->
  (run oracle (tryCatch (deleted ← clearStorage pers n;
                         _ ← awaitCall free; await deleted) ignoreNotFound) s).2 =
    deleteResult outcome.
Proof.
  intros Hfree. unfold tryCatch. rewrite run_andThen, run_bind.
  assert (succeeds oracle (clearStorage pers n)) as Hc by (unfold clearStorage; succ).
  assert (exists s1, run oracle (clearStorage pers n) s = (s1, inl (AwCleared n)))
    as (s1 & ->).
  { unfold clearStorage. rewrite run_bind.
    destruct pers; cbn [log modify run]; by eexists. }
  rewrite run_bind.
  destruct (succeeds_awaitCall free Hfree s1) as (s2 & [] & ->).
  rewrite run_await, Hcleared. unfold deleteResult, ignoreNotFound.
  destruct outcome as [|e]; [done|].
  destruct (decide (Js.name e = "NotFoundError")) as [Heq|Hne].
  - by rewrite bool_decide_eq_false_2, bool_decide_eq_true_2 by naive_solver.
  - by rewrite bool_decide_eq_true_2, bool_decide_eq_false_2 by done.
Qed.

Ltac rstep :=
  first
    [ progress cbn [run get gets modify log isUndefined when]
    | rewrite run_await, Horacle by (intros; discriminate)
    | match goal with
      | |- context [run _ ?p ?s] =>
          let Hs := fresh in
          assert (Hs : succeeds oracle p) by succ;
          destruct (Hs s) as (? & [] & ->); clear Hs
      end
    | rewrite run_bind ].

Lemma run_deleteThought docKey s cfg :
  configCache s = Some cfg ->
  (run oracle (deleteThought E docKey) s).2 = deleteResult outcome.
Proof.
  intros Hcfg. unfold deleteThought, readConfig.
  repeat rstep. rewrite Hcfg. repeat rstep.
  apply run_clear_and_free. auto with succ.
Qed.

Lemma run_deleteLexeme key s cfg :
  configCache s = Some cfg ->
  (run oracle (deleteLexeme E key) s).2 = deleteResult outcome.
Proof.
  intros Hcfg. unfold deleteLexeme, readConfig.
  repeat rstep. rewrite Hcfg. cbn [run]. rewrite run_bind. cbn [get run]. cbn zeta.
  rewrite run_bind.
  match goal with |- context [getLexeme ?d] => destruct (getLexeme d) as [lexemeOld|] end.
  - unfold awaitCall at 1. rewrite run_andThen.
    destruct (succeedsAt_updateLexeme_clear s cfg key lexemeOld
                (Lexeme.created lexemeOld) (Lexeme.lastUpdated lexemeOld)
                (Lexeme.updatedBy lexemeOld) Hcfg) as (s1 & [] & ->).
    cbn [run]. apply run_clear_and_free. auto with succ.
  - cbn [run]. apply run_clear_and_free. auto with succ.
Qed.
End Succeeds.

(** C6.  [deleteThought] and [deleteLexeme] treat an absent database as
    success: when clearing the local storage is rejected with
    NotFoundError the returned promise is fulfilled, as it is when
    clearing succeeds, and any other error is rethrown. *)
Theorem delete_ignores_NotFoundError
    (s : State) (cfg : Config) (docKey key : string)
    (oracle : Awaited -> Settled) (outcome : Settled) :
  configCache s = Some cfg ->
  (forall aw, (forall n, aw ≠ AwCleared n) -> oracle aw = Fulfilled) ->
  (forall n, oracle (AwCleared n) = outcome) ->
  (run oracle (deleteThought E docKey) s).2 = deleteResult outcome ∧
  (run oracle (deleteLexeme E key) s).2 = deleteResult outcome ∧
  deleteResult Fulfilled = inl tt ∧
  (forall e, deleteResult (Rejected e) =
     if bool_decide (Js.name e = "NotFoundError") then inl tt else inr e).
Proof.
  intros Hcfg Hor Hcl. split; [|split; [|done]].
  - by apply (run_deleteThought oracle Hor outcome Hcl docKey s cfg).
  - by apply (run_deleteLexeme oracle Hor outcome Hcl key s cfg).
Qed.

(** *** Change notification batching *)

Lemma submit_closed b s :
  throttleWindow s = false ->
  (exec (updateThoughtsThrottled b) s).1 =
    with_timers (fun l => l ++ [(UPDATE_THOUGHTS_THROTTLE, TaThrottleWindow)])
      (with_throttle (throttleAccum s ++ [b]) true s).
Proof.
  intros Hw. destruct_state s. subst.
  unfold updateThoughtsThrottled, throttleConcat. ex. reflexivity.
Qed.

Lemma submit_open b s :
  throttleWindow s = true ->
  (exec (updateThoughtsThrottled b) s).1 = with_throttle (throttleAccum s ++ [b]) true s.
Proof.
  intros Hw. destruct_state s. subst.
  unfold updateThoughtsThrottled, throttleConcat. ex. reflexivity.
Qed.

Lemma submitAll_open bs s :
  throttleWindow s = true ->
  submitAll bs s = with_throttle (throttleAccum s ++ bs) true s.
Proof.
  revert s. induction bs as [|b bs IH]; intros s Hw; unfold submitAll; cbn [foldl].
  - destruct_state s. subst. by rewrite app_nil_r.
  - change (submitAll bs (exec (updateThoughtsThrottled b) s).1 =
            with_throttle (throttleAccum s ++ b :: bs) true s).
    rewrite submit_open by done.
    rewrite IH by (by destruct_state s). destruct_state s. cbn.
    by rewrite <- app_assoc.
Qed.

Lemma mergeBatch_later_wins {V} (proj : PushBatch -> gmap string V)
    acc pre b post key v :
  (forall x y, proj (mergeBatch x y) = proj y ∪ proj x) ->
  proj b !! key = Some v ->
  Forall (fun b' => proj b' !! key = None) post ->
  proj (foldl mergeBatch acc (pre ++ [b] ++ post)) !! key = Some v.
Proof.
  intros Hproj Hb Hpost. rewrite !foldl_app. cbn [foldl].
  generalize (foldl mergeBatch acc pre). intros acc'.
  assert (proj (mergeBatch acc' b) !! key = Some v) as Hacc.
  { rewrite Hproj. by apply lookup_union_Some_l. }
  revert Hacc. generalize (mergeBatch acc' b). clear acc' Hb.
  induction Hpost as [|b' post Hb' _ IH]; intros a Ha; cbn [foldl]; [done|].
  apply IH. rewrite Hproj. rewrite lookup_union_r; done.
Qed.

Lemma lookup_snoc {A} (l : list A) x : (l ++ [x]) !! length l = Some x.
Proof. by apply list_lookup_middle. Qed.

Lemma remove_snoc {A} (l : list A) x :
  take (length l) (l ++ [x]) ++ drop (S (length l)) (l ++ [x]) = l.
Proof.
  rewrite take_app_length, drop_ge, app_nil_r; [done|].
  rewrite length_app. simpl. lia.
Qed.

(** C8.  All batches submitted within one throttle window lead to exactly
    one [onUpdateThoughts] call.  Nothing is delivered while the batches
    are submitted or when the window closes; the callback merges the
    batches and defers the dispatch to a timer, and the call is made with
    the merged batch, in which the last value submitted for a key,
    [null] markers included, is the one delivered. *)
Theorem batched_delivery (s : State) (first : PushBatch) (rest : list PushBatch) :
  throttleAccum s = [] -> throttleWindow s = false ->
  let batches := first :: rest in
  let merged := foldl mergeBatch emptyBatch batches in
  let s1 := submitAll batches s in
  let s2 := fireTimer E (length (timers s)) s1 in
  let s3 := fireTimer E (length (timers s)) s2 in
  let s4 := settleFloating (length (floating s)) Fulfilled s3 in
  (timers s1 = timers s ++ [(UPDATE_THOUGHTS_THROTTLE, TaThrottleWindow)] ∧
   floating s1 = floating s ∧ trace s1 = trace s) ∧
  (timers s2 = timers s ++ [(0, TaDispatch merged)] ∧
   floating s2 = floating s ∧ trace s2 = trace s) ∧
  (timers s3 = timers s ∧ floating s3 = floating s ++ [FlOnUpdateThoughts merged] ∧
   trace s3 = trace s) ∧
  s4 = with_trace (fun t => t ++ [EvOnUpdateThoughts merged false false true]) s ∧
  (forall pre b post key v,
     batches = pre ++ [b] ++ post ->
     Forall (fun b' => thoughtIndexUpdates b' !! key = None) post ->
     thoughtIndexUpdates b !! key = Some v ->
     thoughtIndexUpdates merged !! key = Some v) ∧
  (forall pre b post key v,
     batches = pre ++ [b] ++ post ->
     Forall (fun b' => lexemeIndexUpdates b' !! key = None) post ->
     lexemeIndexUpdates b !! key = Some v ->
     lexemeIndexUpdates merged !! key = Some v).
Proof.
  intros Hacc Hw batches merged s1 s2 s3 s4.
  assert (s1 = with_timers (fun l => l ++ [(UPDATE_THOUGHTS_THROTTLE, TaThrottleWindow)])
                 (with_throttle batches true s)) as Hs1.
  { subst s1 batches. unfold submitAll. cbn [foldl].
    change (foldl _ ?x rest) with (submitAll rest x).
    rewrite submit_closed by done. rewrite submitAll_open by (by destruct_state s).
    destruct_state s. subst. reflexivity. }
  assert (s2 = with_timers (fun l => l ++ [(0, TaDispatch merged)]) s) as Hs2.
  { subst s2. rewrite Hs1. unfold fireTimer. destruct_state s. subst.
    cbn [with_timers with_throttle timers]. rewrite lookup_snoc.
    unfold fire, throttleWindowEnd, dispatchMerged. subst batches. ex. st.
    rewrite remove_snoc. reflexivity. }
  assert (s3 = with_floating (fun l => l ++ [FlOnUpdateThoughts merged]) s) as Hs3.
  { subst s3. rewrite Hs2. unfold fireTimer. destruct_state s. subst.
    cbn [with_timers timers]. rewrite lookup_snoc.
    unfold fire, dispatchTick. ex. st. rewrite remove_snoc. reflexivity. }
  assert (s4 = with_trace (fun t => t ++ [EvOnUpdateThoughts merged false false true]) s)
    as Hs4.
  { subst s4. rewrite Hs3. unfold settleFloating. destruct_state s. subst.
    cbn [with_floating floating]. rewrite lookup_snoc.
    unfold continue. ex. st. rewrite remove_snoc. reflexivity. }
  rewrite Hs1, Hs2, Hs3, Hs4. clear.
  split; [by destruct_state s|]. split; [by destruct_state s|].
  split; [by destruct_state s|]. split; [done|]. split.
  - intros pre b post key v Heq Hpost Hb. subst merged. rewrite Heq.
    by apply (mergeBatch_later_wins thoughtIndexUpdates).
  - intros pre b post key v Heq Hpost Hb. subst merged. rewrite Heq.
    by apply (mergeBatch_later_wins lexemeIndexUpdates).
Qed.
End Properties.

(** ** The Lexeme codec *)

Lemma string_app_cons c (s t : string) : String c s +:+ t = String c (s +:+ t).
Proof. reflexivity. Qed.

Lemma string_app_nil_r (s : string) : s +:+ "" = s.
Proof. induction s as [|c s IH]; [done|]. by rewrite string_app_cons, IH. Qed.

Lemma string_app_assoc (a b c : string) : (a +:+ b) +:+ c = a +:+ (b +:+ c).
Proof. induction a as [|x a IH]; [done|]. by rewrite !string_app_cons, IH. Qed.

Lemma split_go_no_separator sep cur s :
  Js.includes sep s = false -> Js.split_go sep 0 cur s = [cur +:+ s].
Proof.
  revert cur. induction s as [|c s IH]; intros cur Hs; cbn [Js.split_go].
  { by rewrite string_app_nil_r. }
  cbn [Js.includes] in Hs. apply orb_false_iff in Hs as [Hp Hs].
  rewrite Hp, IH by done. by rewrite string_app_assoc.
Qed.

Lemma string_app_nil_l (s : string) : "" +:+ s = s.
Proof. reflexivity. Qed.

Lemma cxidOfKey_context cxid :
  Js.truthy cxid = true -> Js.includes "cx-" cxid = false ->
  cxidOfKey ("cx-" +:+ cxid) = Some cxid.
Proof.
  intros Ht Hs. unfold cxidOfKey, Js.split. rewrite !string_app_cons, string_app_nil_l.
  cbn. assert (String.prefix "" cxid = true) as -> by (by destruct cxid).
  rewrite split_go_no_separator by done. cbn. by rewrite string_app_nil_l, Ht.
Qed.









Lemma withLexemeMap_id doc d0 s :
  docHeap s !! doc = Some d0 -> withLexemeMap doc d0 (lexemeMap d0) s = s.
Proof.
  intros Hd. destruct_state s. unfold withLexemeMap, with_docHeap. cbn. f_equal.
  apply insert_id. rewrite Hd. by destruct d0.
Qed.

Lemma exec_forEach_updates {A} (f : A -> Async unit) (g : A -> State -> State) xs s :
  (forall x s, exec (f x) s = (g x s, Done tt)) ->
  exec (forEach xs f) s = (foldl (fun s x => g x s) s xs, Done tt).
Proof.
  intros Hf. revert s. induction xs as [|x xs IH]; intros s; cbn [forEach foldl].
  { reflexivity. }
  unfold bind. rewrite exec_andThen, Hf. apply IH.
Qed.






Section Codec.
Context (E : Env).


Lemma exec_setContextDocKeys raw s :
  exec (setContextDocKeys raw) s =
    (with_docKeys (fun dk => foldl recordContext dk raw) s, Done tt).
Proof.
  unfold setContextDocKeys.
  rewrite (exec_forEach_updates _ (fun kv => with_docKeys (fun dk => recordContext dk kv))).
  - by rewrite foldl_with_docKeys.
  - intros kv s0. unfold recordContext. destruct (cxidOfKey kv.1); [done|].
    by rewrite with_docKeys_id.
Qed.




End Codec.

(** ** Calls made before [init] has resolved *)

Section BeforeInit.
Context (E : Env).

Lemma replicateChildren_before_init k opts s s' cfg :
  configCache s = None -> configCache s' = Some cfg ->
  let r := exec (replicateChildren E k opts) s in
  r.1 = s ∧ awaits AwConfig r.2 ∧
  resume r.2 Fulfilled s' = exec (replicateChildren E k opts) s'.
Proof.
  intros Hs Hs'. unfold replicateChildren. rewrite !exec_bind. cbn [get exec].
  rewrite Hs, Hs'. cbn [isUndefined when await exec fst snd awaits resume].
  rewrite !exec_bind. cbn [exec]. done.
Qed.

Lemma replicateLexeme_before_init k bg s s' cfg :
  configCache s = None -> configCache s' = Some cfg ->
  isSpecialToken E k = false ->
  let r := exec (replicateLexeme E k bg) s in
  r.1 = s ∧ awaits AwConfig r.2 ∧
  resume r.2 Fulfilled s' = exec (replicateLexeme E k bg) s'.
Proof.
  intros Hs Hs' Hsp. unfold replicateLexeme. rewrite Hsp, !exec_bind. cbn [get exec].
  rewrite Hs, Hs'. cbn [isUndefined when await exec fst snd awaits resume].
  rewrite !exec_bind. cbn [exec]. done.
Qed.

Lemma configCache_replicateChildren k opts s cfg :
  configCache s = Some cfg -> configCache (exec (replicateChildren E k opts) s).1 = Some cfg.
Proof.
  intros Hcfg. destruct (thoughtDocs s !! k) as [d|] eqn:Hd.
  - by destruct (replicateChildren_cached E k opts s cfg d Hcfg Hd) as (_ & H & _).
  - destruct_state s. subst. destruct opts as [bg od rm]. unfold replicateChildren.
    destruct (bool_decide (MODE E = "test")), bg, od, rm;
      repeat first [ progress ex | rewrite Hd
                   | progress unfold replicateChildrenCached, replicateChildrenFresh ];
      done.
Qed.

Lemma configCache_replicateLexeme k bg s cfg :
  configCache s = Some cfg -> configCache (exec (replicateLexeme E k bg) s).1 = Some cfg.
Proof.
  intros Hcfg. unfold replicateLexeme. destruct (isSpecialToken E k); [done|].
  destruct (lexemeDocs s !! k) as [d|] eqn:Hd; destruct_state s; subst;
    destruct (bool_decide (MODE E = "test")), bg;
    repeat first [ progress ex | rewrite Hd
                 | progress unfold replicateLexemeCached, replicateLexemeFresh ];
    done.
Qed.

(** X2.  Calls made while [configCache] is not yet set all suspend on [config]
    without touching the module; when they are resumed in call order after
    [init] has set [configCache], they do what calls made then would do. *)
Theorem replication_before_init
    (s s' : State) (cfg : Config) (k k' : string)
    (calls : list ReplicateOptions) (bgs : list bool) :
  configCache s = None -> configCache s' = Some cfg -> isSpecialToken E k' = false ->
  (let r := concurrently (replicateChildren E k <$> calls) s in
   r.1 = s ∧ Forall (awaits AwConfig) r.2 ∧
   resumeAll r.2 Fulfilled s' = concurrently (replicateChildren E k <$> calls) s') ∧
  (let r := concurrently (replicateLexeme E k' <$> bgs) s in
   r.1 = s ∧ Forall (awaits AwConfig) r.2 ∧
   resumeAll r.2 Fulfilled s' = concurrently (replicateLexeme E k' <$> bgs) s').
Proof.
  intros Hs Hs' Hsp. split.
  - revert s' Hs'. induction calls as [|opts calls IH]; intros s' Hs';
      cbn [fmap list_fmap concurrently resumeAll fst snd].
    { done. }
    destruct (replicateChildren_before_init k opts s s' cfg Hs Hs') as (H1 & H2 & H3).
    rewrite H1. destruct (IH _ (configCache_replicateChildren k opts s' cfg Hs'))
      as (IH1 & IH2 & IH3).
    split; [exact IH1|]. split; [by constructor|].
    rewrite H3. cbn zeta in IH3. by rewrite IH3.
  - revert s' Hs'. induction bgs as [|bg bgs IH]; intros s' Hs';
      cbn [fmap list_fmap concurrently resumeAll fst snd].
    { done. }
    destruct (replicateLexeme_before_init k' bg s s' cfg Hs Hs' Hsp) as (H1 & H2 & H3).
    rewrite H1. destruct (IH _ (configCache_replicateLexeme k' bg s' cfg Hs'))
      as (IH1 & IH2 & IH3).
    split; [exact IH1|]. split; [by constructor|].
    rewrite H3. cbn zeta in IH3. by rewrite IH3.
Qed.

End BeforeInit.

(** ** Reading thoughts *)

Lemma YMap_get_keys {V} (k : string) (m : YMap.t V) v :
  YMap.get k m = Some v -> k ∈ YMap.keys m.
Proof.
  unfold YMap.keys. induction m as [|[k' v'] m IH]; cbn [YMap.get YMap.entries]; [done|].
  destruct (decide (k = k')) as [->|Hne].
  - intros ->. cbn. left.
  - intros Hm. specialize (IH Hm). destruct v'; cbn; [by right|done].
Qed.

Lemma getThought_id doc k t : getThought doc k = Some t -> Thought.id t = k.
Proof.
  unfold getThought. destruct doc as [doc|]; [|done].
  destruct (YMap.get k (childrenYMap doc)) as [tm|]; [|done].
  destruct (decide (YMap.size tm = 0)); [done|]. by intros [= <-].
Qed.

(** X3.  [getChildren] returns [undefined] exactly when there is no doc or
    the doc has no [docKey]; otherwise it returns the thoughts that
    [getThought] finds in the doc, and no others.  A child whose Y.Map is
    empty is not a thought. *)
Theorem getChildren_getThought (doc : YDoc) (t : Thought.t) (id : string) :
  getChildren None = None ∧
  (getChildren (Some doc) = None ↔ YMap.has "docKey" (thoughtMap doc) = false) ∧
  (t ∈ default [] (getChildren (Some doc)) ↔
     YMap.has "docKey" (thoughtMap doc) = true ∧
     getThought (Some doc) (Thought.id t) = Some t) ∧
  (forall thoughtMap, YMap.get id (childrenYMap doc) = Some thoughtMap ->
     YMap.size thoughtMap = 0 -> getThought (Some doc) id = None).
Proof.
  split; [done|]. split; [|split].
  - unfold getChildren. by destruct (YMap.has "docKey" (thoughtMap doc)).
  - unfold getChildren. destruct (YMap.has "docKey" (thoughtMap doc)); simpl.
    + rewrite list_elem_of_omap. split.
      * intros (k & Hk & Ht). split; [done|]. by rewrite (getThought_id _ _ _ Ht).
      * intros [_ Ht]. exists (Thought.id t). split; [|done].
        unfold getThought in Ht.
        destruct (YMap.get (Thought.id t) (childrenYMap doc)) as [tm|] eqn:Hget; [|done].
        by eapply YMap_get_keys.
    + split; [by intros ?%elem_of_nil|by intros [? _]].
  - intros tm Hget Hsize. unfold getThought. by rewrite Hget, decide_True.
Qed.

(** ** Test mode *)

Section TestMode.
Context (E : Env).

(** X4.  In test mode [replicateChildren] and [replicateLexeme] construct a
    Y.Doc for a key that is not cached, but no IndexeddbPersistence and no
    HocuspocusProvider, and they do not cache the doc: the caches are as
    before, and the call returns [undefined] once what it awaits is
    fulfilled. *)
Theorem test_mode_constructs_no_providers
    (s : State) (cfg : Config) (k k' : string) (opts : ReplicateOptions) (bg : bool)
    (oracle : Awaited -> Settled) :
  MODE E = "test" -> configCache s = Some cfg ->
  thoughtDocs s !! k = None -> lexemeDocs s !! k' = None ->
  isSpecialToken E k' = false ->
  (let r := exec (replicateChildren E k opts) s in
   creations (trace r.1) = creations (trace s) ++
     [EvNewDoc (nextId s) (encodeThoughtDocumentName E (tsid cfg) k)] ∧
   thoughts r.1 =
     with_retained (fun ret => if background opts then ret else {[k]} ∪ ret) (thoughts s) ∧
   persHeap r.1 = persHeap s ∧ provHeap r.1 = provHeap s ∧
   awaits (AwPromise (if background opts && remote opts
                      then thoughtWebsocketSynced s !! k
                      else thoughtIDBSynced s !! k)) r.2 ∧
   finish oracle r.2 Fulfilled r.1 = (r.1, inl None)) ∧
  (let r := exec (replicateLexeme E k' bg) s in
   creations (trace r.1) = creations (trace s) ++
     [EvNewDoc (nextId s) (encodeLexemeDocumentName E (tsid cfg) k')] ∧
   lexemes r.1 =
     with_retained (fun ret => if bg then ret else {[k']} ∪ ret) (lexemes s) ∧
   persHeap r.1 = persHeap s ∧ provHeap r.1 = provHeap s ∧
   awaits (AwPromise (if bg then lexemeWebsocketSynced s !! k'
                      else lexemeIDBSynced s !! k')) r.2 ∧
   finish oracle r.2 Fulfilled r.1 = (r.1, inl None)).
Proof.
  intros Hmode Hcfg Hdoc Hdoc' Hsp. split.
  - destruct_state s. subst. destruct opts as [b od rm]. unfold replicateChildren.
    destruct b, od, rm;
      repeat first [ progress ex | rewrite Hdoc | rewrite (bool_decide_eq_true_2 _ Hmode)
                   | progress unfold replicateChildrenCached ];
      rewrite ?creations_app, ?app_nil_r; cbn [creations List.filter isCreation];
      rewrite ?app_nil_r, ?app_assoc; (repeat split; try done);
      rn; rewrite ?lookup_insert_eq; reflexivity.
  - unfold replicateLexeme. rewrite Hsp. destruct_state s. subst.
    destruct bg;
      repeat first [ progress ex | rewrite Hdoc' | rewrite (bool_decide_eq_true_2 _ Hmode)
                   | progress unfold replicateLexemeCached ];
      rewrite ?creations_app, ?app_nil_r; cbn [creations List.filter isCreation];
      rewrite ?app_nil_r, ?app_assoc; (repeat split; try done);
      rn; rewrite ?lookup_insert_eq; reflexivity.
Qed.

End TestMode.

(** ** The Document Key Index *)

(** Writes of docKeys, one after the other. *)
Lemma writes_lookup_notin (kvs : list (string * string)) (dk : gmap string string) k :
  k ∉ kvs.*1 -> writeDocKeys kvs dk !! k = dk !! k.
Proof.
  unfold writeDocKeys.
  revert dk. induction kvs as [|[k0 v0] kvs IH]; intros dk Hk; cbn [foldl]; [done|].
  rewrite fmap_cons, not_elem_of_cons in Hk. destruct Hk as [Hne Hk].
  rewrite IH by done. cbn. by rewrite lookup_insert_ne.
Qed.

Lemma writes_lookup (kvs : list (string * string)) (dk : gmap string string) k v :
  NoDup kvs.*1 -> (k, v) ∈ kvs ->
  writeDocKeys kvs dk !! k = Some v.
Proof.
  unfold writeDocKeys.
  revert dk. induction kvs as [|[k0 v0] kvs IH]; intros dk Hnd Hin; cbn [foldl].
  { by apply elem_of_nil in Hin. }
  rewrite fmap_cons in Hnd. apply NoDup_cons in Hnd as [Hk0 Hnd].
  apply elem_of_cons in Hin as [[= -> ->]|Hin].
  - fold (writeDocKeys kvs (<[(k0, v0).1:=(k0, v0).2]> dk)).
    rewrite writes_lookup_notin by done. cbn. apply lookup_insert_eq.
  - by apply IH.
Qed.

Lemma with_docKeys_ext f g s :
  f (docKeys s) = g (docKeys s) -> with_docKeys f s = with_docKeys g s.
Proof. intros H. destruct_state s. unfold with_docKeys. cbn in *. by rewrite H. Qed.

Lemma foldl_imap_writes (h : nat -> nat) (p : nat -> string) (l : list string)
    (dk : gmap string string) :
  foldl (fun dk (entry : nat * string) => <[entry.2 := p entry.1]> dk) dk
    (imap (fun i id => (h i, id)) l) =
  foldl (fun dk kv => <[kv.1 := kv.2]> dk) dk (imap (fun i id => (id, p (h i))) l).
Proof.
  revert h dk. induction l as [|id l IH]; intros h dk; [done|].
  cbn [imap foldl fst snd]. apply (IH (fun i => h (S i))).
Qed.

Lemma imap_keys {B} (g : nat -> B) (l : list string) :
  (imap (fun i id => (id, g i)) l).*1 = l.
Proof.
  revert g. induction l as [|id l IH]; intros g; [done|].
  cbn [imap fmap list_fmap fst]. f_equal. apply (IH (fun i => g (S i))).
Qed.

Section Cursor.
Context (E : Env).

(** The docKeys that [init] writes for a cursor. *)
Lemma exec_seedCursor path s :
  exec (seedCursor E (Some path)) s =
    (with_docKeys (fun dk =>
       foldl (fun dk kv => <[kv.1 := kv.2]> dk) dk
         (imap (fun i id => (id, default (HOME_TOKEN E)
                                   (match i with O => None | S j => path !! j end))) path))
       s, Done tt).
Proof.
  unfold seedCursor.
  rewrite (exec_forEach_updates _ (fun entry : nat * string =>
    with_docKeys <[entry.2 := default (HOME_TOKEN E)
                     (match entry.1 with O => None | S j => path !! j end)]>)) by done.
  rewrite foldl_with_docKeys. f_equal. apply with_docKeys_ext.
  apply (foldl_imap_writes (fun i => i)
           (fun i => default (HOME_TOKEN E) (match i with O => None | S j => path !! j end))).
Qed.

(** X5.  [init] seeds the Document Key Index from the cursor: the first id of
    the path gets the docKey [HOME_TOKEN] and every other id the id before
    it, the docKeys of ids outside the path are kept, and nothing else
    changes.  When the ids are not empty, every id of the path has the
    docKey that [replicateThought] requires. *)
Theorem seedCursor_docKeys (s : State) (path : list string) :
  NoDup path ->
  let r := exec (seedCursor E (Some path)) s in
  r.2 = Done tt ∧
  r.1 = with_docKeys (fun _ => docKeys r.1) s ∧
  (forall id, path !! 0 = Some id -> docKeys r.1 !! id = Some (HOME_TOKEN E)) ∧
  (forall i parent id, path !! i = Some parent -> path !! S i = Some id ->
     docKeys r.1 !! id = Some parent) ∧
  (forall id, id ∉ path -> docKeys r.1 !! id = docKeys s !! id) ∧
  (Js.truthy (HOME_TOKEN E) = true -> Forall (fun id => Js.truthy id = true) path ->
   forall id, id ∈ path ->
     exists docKey, docKeys r.1 !! id = Some docKey ∧ Js.truthy docKey = true) ∧
  exec (seedCursor E None) s = (s, Done tt).
Proof.
  intros Hnd r. subst r. rewrite exec_seedCursor. cbn [fst snd].
  set (writes := imap (fun i id => (id, default (HOME_TOKEN E)
                   (match i with O => None | S j => path !! j end))) path).
  assert (writes.*1 = path) as Hkeys.
  { apply imap_keys. }
  assert (forall i id, path !! i = Some id ->
            (id, default (HOME_TOKEN E) (match i with O => None | S j => path !! j end))
              ∈ writes) as Hin.
  { intros i id Hi. apply list_elem_of_lookup. exists i. subst writes.
    by rewrite list_lookup_imap, Hi. }
  assert (forall f s0, docKeys (with_docKeys f s0) = f (docKeys s0)) as Hwd
    by (intros f s0; by destruct_state s0).
  rewrite !Hwd.
  assert (forall i id, path !! i = Some id ->
            foldl (fun dk kv => <[kv.1 := kv.2]> dk) (docKeys s) writes !! id =
              Some (default (HOME_TOKEN E) (match i with O => None | S j => path !! j end)))
    as Hlookup.
  { intros i id Hi. apply writes_lookup; [by rewrite Hkeys|by apply Hin]. }
  split; [done|]. split; [by destruct_state s|]. split; [|split; [|split; [|split]]].
  - intros id H0. by rewrite (Hlookup 0 id H0).
  - intros i parent id Hp Hi. by rewrite (Hlookup (S i) id Hi), Hp.
  - intros id Hid. apply writes_lookup_notin. by rewrite Hkeys.
  - intros Hhome Hids id Hid. apply list_elem_of_lookup in Hid as [i Hi].
    rewrite (Hlookup i id Hi). eexists. split; [done|].
    destruct i as [|j]; [done|]. destruct (path !! j) as [parent|] eqn:Hj; [|done].
    cbn. rewrite Forall_forall in Hids. apply Hids. by eapply list_elem_of_lookup_2.
  - done.
Qed.

End Cursor.

(** ** Deallocation *)

Lemma run_forget_children oracle (tms : list (YMap.t YVal)) s :
  run oracle (forEach tms (fun thoughtMap =>
     match as_str (YMap.get "id" thoughtMap) with
     | Some childId => modify (with_docKeys (delete childId))
     | None => Ret tt
     end)) s =
  (with_docKeys (fun dk => foldl forgetChild dk tms) s, inl tt).
Proof.
  rewrite (run_forEach oracle _ (fun tm => with_docKeys (fun dk => forgetChild dk tm))).
  - by rewrite foldl_with_docKeys.
  - intros tm s0. unfold forgetChild. destruct (as_str (YMap.get "id" tm)); [done|].
    by rewrite with_docKeys_id.
Qed.

Lemma run_tryDeallocateThought oracle k s :
  k ∉ thoughtRetained s ->
  run oracle (tryDeallocateThought k) s =
    (with_thoughts (uncache k)
      (from_option (fun w => with_trace (fun t => t ++ [EvDestroyProvider w]) ∘
          with_provHeap (alter (fun p => mkProvider (w_name p) (w_doc p) (w_status p) true) w))
         (fun s => s) (thoughtWebsocketProvider s !! k)
      (from_option (fun d => with_trace (fun t => t ++ [EvDestroyDoc d]) ∘
          with_docHeap (alter markDestroyed d)) (fun s => s) (thoughtDocs s !! k)
      (with_docKeys (fun dk => foldl forgetChild dk
          (default [] (YMap.values ∘ childrenYMap <$>
             (thoughtDocs s !! k ≫= (docHeap s !!.))))) s))), inl tt).
Proof.
  intros Hret. unfold tryDeallocateThought.
  destruct (thoughtDocs s !! k) as [d|] eqn:Hd;
    destruct (thoughtWebsocketProvider s !! k) as [w|] eqn:Hw;
    destruct_state s; rn; rewrite decide_False by exact Hret;
    rn; rewrite Hd; rewrite run_forget_children;
    repeat first [ progress rn | rewrite Hd | rewrite Hw ]; reflexivity.
Qed.

Lemma run_freeThought oracle k s :
  oracle (AwPromise (thoughtIDBSynced s !! k)) = Fulfilled ->
  run oracle (freeThought k) s =
    (with_thoughts (uncache k)
      (from_option (fun w => with_trace (fun t => t ++ [EvDestroyProvider w]) ∘
          with_provHeap (alter (fun p => mkProvider (w_name p) (w_doc p) (w_status p) true) w))
         (fun s => s) (thoughtWebsocketProvider s !! k)
      (from_option (fun d => with_trace (fun t => t ++ [EvDestroyDoc d]) ∘
          with_docHeap (alter markDestroyed d)) (fun s => s) (thoughtDocs s !! k)
      (with_docKeys (fun dk => foldl forgetChild dk
          (default [] (YMap.values ∘ childrenYMap <$>
             (thoughtDocs s !! k ≫= (docHeap s !!.)))))
      (with_thoughts (with_retained (fun r => r ∖ {[k]})) s)))), inl tt).
Proof.
  intros Hor. unfold freeThought.
  destruct (thoughtDocs s !! k) as [d|] eqn:Hd;
    destruct (thoughtWebsocketProvider s !! k) as [w|] eqn:Hw;
    destruct_state s; rn; rewrite Hor; rn; unfold tryDeallocateThought; rn;
    (rewrite decide_False by (apply not_elem_of_difference; right; by apply elem_of_singleton));
    rn; rewrite Hd; rewrite run_forget_children;
    repeat first [ progress rn | rewrite Hd | rewrite Hw ]; reflexivity.
Qed.

Lemma forgetChildren_lookup (tms : list (YMap.t YVal)) (dk : gmap string string) id :
  foldl forgetChild dk tms !! id = None ∨ foldl forgetChild dk tms !! id = dk !! id.
Proof.
  revert dk. induction tms as [|tm tms IH]; intros dk; cbn [foldl]; [by right|].
  destruct (IH (forgetChild dk tm)) as [H|H]; [by left|]. rewrite H.
  unfold forgetChild. destruct (as_str (YMap.get "id" tm)) as [c|]; [|by right].
  destruct (decide (c = id)) as [->|Hne].
  - left. apply lookup_delete_eq.
  - right. by apply lookup_delete_ne.
Qed.

Lemma forgetChildren_no_id (tms : list (YMap.t YVal)) (dk : gmap string string) :
  Forall (fun tm => YMap.get "id" tm = None) tms -> foldl forgetChild dk tms = dk.
Proof.
  intros H. revert dk. induction H as [|tm tms Htm _ IH]; intros dk; cbn [foldl]; [done|].
  rewrite IH. unfold forgetChild. by rewrite Htm.
Qed.

Lemma uncache_lookup k (c : ShardCache) :
  docs (uncache k c) !! k = None ∧ persistence (uncache k c) !! k = None ∧
  idbSynced (uncache k c) !! k = None ∧ websocketProvider (uncache k c) !! k = None ∧
  websocketSynced (uncache k c) !! k = None.
Proof. destruct c. cbn. by rewrite !lookup_delete_eq. Qed.

Lemma uncache_lookup_ne k k' (c : ShardCache) :
  k' ≠ k ->
  docs (uncache k c) !! k' = docs c !! k' ∧
  persistence (uncache k c) !! k' = persistence c !! k' ∧
  idbSynced (uncache k c) !! k' = idbSynced c !! k' ∧
  websocketProvider (uncache k c) !! k' = websocketProvider c !! k' ∧
  websocketSynced (uncache k c) !! k' = websocketSynced c !! k'.
Proof. intros Hne. destruct c. cbn. by rewrite !lookup_delete_ne. Qed.

(** X6.  [freeThought(k)], when nothing retains [k] again before its
    teardown runs, removes [k] from the retained set and from the five
    caches, destroys the doc and the websocket provider that were cached
    for [k], and leaves every other key, the lexeme caches and all other
    docs as they were; it constructs nothing and never adds a docKey.
    Thought maps in the [ThoughtDb] format have no [id] field, so no docKey
    is removed for them.  Freeing the key once more changes nothing. *)
Theorem freeThought_deallocates
    (s : State) (k : string) (oracle : Awaited -> Settled) :
  oracle (AwPromise (thoughtIDBSynced s !! k)) = Fulfilled ->
  oracle (AwPromise None) = Fulfilled ->
  let r := run oracle (freeThought k) s in
  let doc := thoughtDocs s !! k in
  let provider := thoughtWebsocketProvider s !! k in
  r.2 = inl tt ∧
  thoughts r.1 = uncache k (with_retained (fun ret => ret ∖ {[k]}) (thoughts s)) ∧
  (thoughtDocs r.1 !! k = None ∧ thoughtPersistence r.1 !! k = None ∧
   thoughtIDBSynced r.1 !! k = None ∧ thoughtWebsocketProvider r.1 !! k = None ∧
   thoughtWebsocketSynced r.1 !! k = None ∧ (k ∉ thoughtRetained r.1)) ∧
  (forall k', k' ≠ k ->
     thoughtDocs r.1 !! k' = thoughtDocs s !! k' ∧
     thoughtPersistence r.1 !! k' = thoughtPersistence s !! k' ∧
     thoughtIDBSynced r.1 !! k' = thoughtIDBSynced s !! k' ∧
     thoughtWebsocketProvider r.1 !! k' = thoughtWebsocketProvider s !! k' ∧
     thoughtWebsocketSynced r.1 !! k' = thoughtWebsocketSynced s !! k' ∧
     (k' ∈ thoughtRetained r.1 ↔ k' ∈ thoughtRetained s)) ∧
  lexemes r.1 = lexemes s ∧
  docHeap r.1 = from_option (alter markDestroyed) (fun h => h) doc (docHeap s) ∧
  (forall w p, provider = Some w -> provHeap s !! w = Some p ->
     w_destroyed <$> provHeap r.1 !! w = Some true) ∧
  trace r.1 = trace s ++ from_option (fun d => [EvDestroyDoc d]) [] doc ++
                         from_option (fun w => [EvDestroyProvider w]) [] provider ∧
  (forall id, docKeys r.1 !! id = None ∨ docKeys r.1 !! id = docKeys s !! id) ∧
  (Forall (fun thoughtMap => YMap.get "id" thoughtMap = None)
     (default [] (YMap.values ∘ childrenYMap <$> (doc ≫= (docHeap s !!.)))) ->
   docKeys r.1 = docKeys s) ∧
  run oracle (freeThought k) r.1 = (r.1, inl tt).
Proof.
  intros Hor Hnone r doc provider. subst r doc provider.
  rewrite (run_freeThought oracle k s Hor). cbn [fst snd].
  set (tms := default [] (YMap.values ∘ childrenYMap <$>
                (thoughtDocs s !! k ≫= (docHeap s !!.)))).
  set (s' := with_thoughts _ _).
  assert (thoughts s' = uncache k (with_retained (fun ret => ret ∖ {[k]}) (thoughts s)) ∧
          lexemes s' = lexemes s ∧
          docKeys s' = foldl forgetChild (docKeys s) tms ∧
          docHeap s' = from_option (alter markDestroyed) (fun h => h)
                         (thoughtDocs s !! k) (docHeap s) ∧
          provHeap s' = from_option
            (fun w => alter (fun p => mkProvider (w_name p) (w_doc p) (w_status p) true) w)
            (fun h => h) (thoughtWebsocketProvider s !! k) (provHeap s) ∧
          trace s' = trace s ++
            from_option (fun d => [EvDestroyDoc d]) [] (thoughtDocs s !! k) ++
            from_option (fun w => [EvDestroyProvider w]) [] (thoughtWebsocketProvider s !! k))
    as (Hth & Hlx & Hdk & Hdh & Hph & Htr).
  { subst s' tms. destruct (thoughtDocs s !! k) as [d|];
      destruct (thoughtWebsocketProvider s !! k) as [w|]; destruct_state s;
      cbn; rewrite <- ?app_assoc, ?app_nil_r; done. }
  clearbody s'.
  split; [done|]. split; [exact Hth|].
  unfold thoughtDocs, thoughtPersistence, thoughtIDBSynced, thoughtWebsocketProvider,
    thoughtWebsocketSynced, thoughtRetained in *.
  rewrite Hth. split.
  { destruct (uncache_lookup k (with_retained (fun ret => ret ∖ {[k]}) (thoughts s)))
      as (H1 & H2 & H3 & H4 & H5).
    repeat split; try done. destruct (thoughts s). cbn.
    apply not_elem_of_difference. right. by apply elem_of_singleton. }
  split.
  { intros k' Hne.
    destruct (uncache_lookup_ne k k' (with_retained (fun ret => ret ∖ {[k]}) (thoughts s)) Hne)
      as (H1 & H2 & H3 & H4 & H5).
    rewrite H1, H2, H3, H4, H5. destruct (thoughts s). cbn. repeat split; try done.
    - intros [H _]%elem_of_difference. exact H.
    - intros H. apply elem_of_difference. split; [exact H|].
      by intros ?%elem_of_singleton. }
  split; [exact Hlx|]. split; [exact Hdh|]. split.
  { intros w p Hw Hp. rewrite Hph, Hw. cbn. by rewrite lookup_alter_eq, Hp. }
  split; [exact Htr|]. split.
  { intros id. rewrite Hdk. apply forgetChildren_lookup. }
  split.
  { intros Hno. rewrite Hdk. by apply forgetChildren_no_id. }
  rewrite run_freeThought.
  2:{ unfold thoughtIDBSynced. rewrite Hth.
      destruct (uncache_lookup k (with_retained (fun ret => ret ∖ {[k]}) (thoughts s)))
        as (_ & _ & -> & _). exact Hnone. }
  f_equal. unfold thoughtDocs, thoughtWebsocketProvider. rewrite Hth.
  destruct (uncache_lookup k (with_retained (fun ret => ret ∖ {[k]}) (thoughts s)))
    as (-> & _ & _ & -> & _).
  cbn [from_option mbind option_bind fmap option_fmap option_map default foldl].
  rewrite with_docKeys_id. destruct_state s'. cbn in Hth. unfold with_thoughts. cbn.
  f_equal. destruct (thoughts s). cbn in *. inversion Hth; subst. cbn.
  unfold uncache, with_retained. cbn. by rewrite !delete_delete_eq, difference_twice_L.
Qed.

Ltac flatten_state :=
  cbv [with_thoughts with_lexemes with_trace with_provHeap with_docHeap with_docKeys
       with_retained uncache
       thoughts lexemes docKeys configCache docHeap persHeap provHeap promises nextId
       timers floating throttleAccum throttleWindow trace
       docs persistence retained websocketProvider idbSynced websocketSynced].

Lemma alter_unobserved (d : nat) (h : gmap nat YDoc) :
  (forall doc0, h !! d = Some doc0 -> lexemeObservers doc0 = 0) ->
  alter markDestroyed d h = alter (fun x => markDestroyed (unobserveLexeme x)) d h.
Proof.
  intros H. apply alter_ext. intros doc0 Hx. specialize (H doc0 Hx).
  destruct doc0; cbn in *; by subst.
Qed.

Lemma alter_observed (d : nat) (h : gmap nat YDoc) :
  alter markDestroyed d (alter unobserveLexeme d h) =
    alter (fun x => markDestroyed (unobserveLexeme x)) d h.
Proof. apply alter_alter_eq. Qed.

Lemma run_tryDeallocateLexeme oracle k s :
  k ∉ lexemeRetained s ->
  run oracle (tryDeallocateLexeme k) s =
    (with_lexemes (uncache k)
      (from_option (fun w => with_trace (fun t => t ++ [EvDestroyProvider w]) ∘
          with_provHeap (alter (fun p => mkProvider (w_name p) (w_doc p) (w_status p) true) w))
         (fun s => s) (lexemeWebsocketProvider s !! k)
      (from_option (fun d => with_trace (fun t => t ++ [EvDestroyDoc d]) ∘
          with_docHeap (alter (markDestroyed ∘ unobserveLexeme) d))
         (fun s => s) (lexemeDocs s !! k) s)), inl tt).
Proof.
  intros Hret. unfold tryDeallocateLexeme.
  destruct (lexemeDocs s !! k) as [d|] eqn:Hd;
    destruct (lexemeWebsocketProvider s !! k) as [w|] eqn:Hw.
  1,2: destruct (docHeap s !! d) as [doc0|] eqn:Hdoc;
         [destruct (decide (lexemeObservers doc0 = 0)) as [Hobs|Hobs]|].
  all: destruct_state s.
  all: rn.
  all: rewrite decide_False by exact Hret.
  all: rewrite ?Hd, ?Hdoc.
  all: rewrite ?(bool_decide_eq_false_2 _ (fun H => H Hobs)), ?(bool_decide_eq_true_2 _ Hobs).
  all: repeat first [ progress rn | rewrite Hd | rewrite Hw | rewrite Hdoc ].
  all: unfold compose.
  all: flatten_state.
  all: rewrite ?alter_observed.
  all: rewrite ?alter_unobserved by (intros ? ?; congruence).
  all: reflexivity.
Qed.

Lemma run_freeLexeme oracle k s :
  oracle (AwPromise (lexemeIDBSynced s !! k)) = Fulfilled ->
  run oracle (freeLexeme k) s =
    (with_lexemes (uncache k)
      (from_option (fun w => with_trace (fun t => t ++ [EvDestroyProvider w]) ∘
          with_provHeap (alter (fun p => mkProvider (w_name p) (w_doc p) (w_status p) true) w))
         (fun s => s) (lexemeWebsocketProvider s !! k)
      (from_option (fun d => with_trace (fun t => t ++ [EvDestroyDoc d]) ∘
          with_docHeap (alter (markDestroyed ∘ unobserveLexeme) d))
         (fun s => s) (lexemeDocs s !! k)
      (with_lexemes (with_retained (fun r => r ∖ {[k]})) s))), inl tt).
Proof.
  intros Hor. unfold freeLexeme.
  destruct (lexemeDocs s !! k) as [d|] eqn:Hd;
    destruct (lexemeWebsocketProvider s !! k) as [w|] eqn:Hw.
  1,2: destruct (docHeap s !! d) as [doc0|] eqn:Hdoc;
         [destruct (decide (lexemeObservers doc0 = 0)) as [Hobs|Hobs]|].
  all: destruct_state s.
  all: rn.
  all: rewrite Hor.
  all: rn.
  all: unfold tryDeallocateLexeme.
  all: rn.
  all: rewrite decide_False
         by (apply not_elem_of_difference; right; by apply elem_of_singleton).
  all: rewrite ?Hd, ?Hdoc.
  all: rewrite ?(bool_decide_eq_false_2 _ (fun H => H Hobs)), ?(bool_decide_eq_true_2 _ Hobs).
  all: repeat first [ progress rn | rewrite Hd | rewrite Hw | rewrite Hdoc ].
  all: unfold compose.
  all: flatten_state.
  all: rewrite ?alter_observed.
  all: rewrite ?alter_unobserved by (intros ? ?; congruence).
  all: reflexivity.
Qed.

(** X7.  [freeLexeme(k)], when nothing retains [k] again before its teardown
    runs, removes [k] from the retained set and from the five lexeme
    caches, stops observing the doc, destroys the doc and the websocket
    provider that were cached for [k], and leaves every other key, the
    thought caches and the Document Key Index as they were.  Freeing the
    key once more changes nothing. *)
Theorem freeLexeme_deallocates
    (s : State) (k : string) (oracle : Awaited -> Settled) :
  oracle (AwPromise (lexemeIDBSynced s !! k)) = Fulfilled ->
  oracle (AwPromise None) = Fulfilled ->
  let r := run oracle (freeLexeme k) s in
  let doc := lexemeDocs s !! k in
  let provider := lexemeWebsocketProvider s !! k in
  r.2 = inl tt ∧
  lexemes r.1 = uncache k (with_retained (fun ret => ret ∖ {[k]}) (lexemes s)) ∧
  (lexemeDocs r.1 !! k = None ∧ lexemePersistence r.1 !! k = None ∧
   lexemeIDBSynced r.1 !! k = None ∧ lexemeWebsocketProvider r.1 !! k = None ∧
   lexemeWebsocketSynced r.1 !! k = None ∧ (k ∉ lexemeRetained r.1)) ∧
  (forall k', k' ≠ k ->
     lexemeDocs r.1 !! k' = lexemeDocs s !! k' ∧
     lexemePersistence r.1 !! k' = lexemePersistence s !! k' ∧
     lexemeIDBSynced r.1 !! k' = lexemeIDBSynced s !! k' ∧
     lexemeWebsocketProvider r.1 !! k' = lexemeWebsocketProvider s !! k' ∧
     lexemeWebsocketSynced r.1 !! k' = lexemeWebsocketSynced s !! k' ∧
     (k' ∈ lexemeRetained r.1 ↔ k' ∈ lexemeRetained s)) ∧
  thoughts r.1 = thoughts s ∧ docKeys r.1 = docKeys s ∧
  docHeap r.1 =
    from_option (alter (markDestroyed ∘ unobserveLexeme)) (fun h => h) doc (docHeap s) ∧
  (forall w p, provider = Some w -> provHeap s !! w = Some p ->
     w_destroyed <$> provHeap r.1 !! w = Some true) ∧
  trace r.1 = trace s ++ from_option (fun d => [EvDestroyDoc d]) [] doc ++
                         from_option (fun w => [EvDestroyProvider w]) [] provider ∧
  run oracle (freeLexeme k) r.1 = (r.1, inl tt).
Proof.
  intros Hor Hnone r doc provider. subst r doc provider.
  rewrite (run_freeLexeme oracle k s Hor). cbn [fst snd].
  set (s' := with_lexemes _ _).
  assert (lexemes s' = uncache k (with_retained (fun ret => ret ∖ {[k]}) (lexemes s)) ∧
          thoughts s' = thoughts s ∧ docKeys s' = docKeys s ∧
          docHeap s' = from_option (alter (markDestroyed ∘ unobserveLexeme)) (fun h => h)
                         (lexemeDocs s !! k) (docHeap s) ∧
          provHeap s' = from_option
            (fun w => alter (fun p => mkProvider (w_name p) (w_doc p) (w_status p) true) w)
            (fun h => h) (lexemeWebsocketProvider s !! k) (provHeap s) ∧
          trace s' = trace s ++
            from_option (fun d => [EvDestroyDoc d]) [] (lexemeDocs s !! k) ++
            from_option (fun w => [EvDestroyProvider w]) [] (lexemeWebsocketProvider s !! k))
    as (Hlx & Hth & Hdk & Hdh & Hph & Htr).
  { subst s'. destruct (lexemeDocs s !! k) as [d|];
      destruct (lexemeWebsocketProvider s !! k) as [w|]; destruct_state s;
      cbn; rewrite <- ?app_assoc, ?app_nil_r; done. }
  clearbody s'.
  split; [done|]. split; [exact Hlx|].
  unfold lexemeDocs, lexemePersistence, lexemeIDBSynced, lexemeWebsocketProvider,
    lexemeWebsocketSynced, lexemeRetained in *.
  rewrite Hlx. split.
  { destruct (uncache_lookup k (with_retained (fun ret => ret ∖ {[k]}) (lexemes s)))
      as (H1 & H2 & H3 & H4 & H5).
    repeat split; try done. destruct (lexemes s). cbn.
    apply not_elem_of_difference. right. by apply elem_of_singleton. }
  split.
  { intros k' Hne.
    destruct (uncache_lookup_ne k k' (with_retained (fun ret => ret ∖ {[k]}) (lexemes s)) Hne)
      as (H1 & H2 & H3 & H4 & H5).
    rewrite H1, H2, H3, H4, H5. destruct (lexemes s). cbn. repeat split; try done.
    - intros [H _]%elem_of_difference. exact H.
    - intros H. apply elem_of_difference. split; [exact H|].
      by intros ?%elem_of_singleton. }
  split; [exact Hth|]. split; [exact Hdk|]. split; [exact Hdh|]. split.
  { intros w p Hw Hp. rewrite Hph, Hw. cbn. by rewrite lookup_alter_eq, Hp. }
  split; [exact Htr|].
  rewrite run_freeLexeme.
  2:{ unfold lexemeIDBSynced. rewrite Hlx.
      destruct (uncache_lookup k (with_retained (fun ret => ret ∖ {[k]}) (lexemes s)))
        as (_ & _ & -> & _). exact Hnone. }
  f_equal. unfold lexemeDocs, lexemeWebsocketProvider. rewrite Hlx.
  destruct (uncache_lookup k (with_retained (fun ret => ret ∖ {[k]}) (lexemes s)))
    as (-> & _ & _ & -> & _).
  cbn [from_option]. destruct_state s'. cbn in Hlx. unfold with_lexemes. cbn.
  f_equal. destruct (lexemes s). cbn in *. inversion Hlx; subst.
  unfold uncache, with_retained. cbn. by rewrite !delete_delete_eq, difference_twice_L.
Qed.

(** ** The Document Key Index after a sync *)

Lemma writeDocKeys_app kvs1 kvs2 dk :
  writeDocKeys (kvs1 ++ kvs2) dk = writeDocKeys kvs2 (writeDocKeys kvs1 dk).
Proof. apply foldl_app. Qed.

Lemma with_docKeys_writes kvs1 kvs2 s :
  with_docKeys (writeDocKeys kvs2) (with_docKeys (writeDocKeys kvs1) s) =
    with_docKeys (writeDocKeys (kvs1 ++ kvs2)) s.
Proof. destruct_state s. st. by rewrite writeDocKeys_app. Qed.

Lemma foldl_grandchildren (m : list (string * string)) (parent : string)
    (dk : gmap string string) :
  foldl (fun dk g => <[g := parent]> dk) dk m.*2 =
    writeDocKeys ((fun kv : string * string => (kv.2, parent)) <$> m) dk.
Proof.
  unfold writeDocKeys. revert dk. induction m as [|[k g] m IH]; intros dk; cbn; [done|].
  apply IH.
Qed.

Lemma exec_setChildDocKeys docKey (child : Thought.t) s :
  is_Some (Thought.childrenMap child) ->
  exec (_ ← modify (with_docKeys <[Thought.id child := docKey]>);
        grandchildIds ← objectValues (Thought.childrenMap child);
        forEach grandchildIds (fun grandchildId =>
          modify (with_docKeys <[grandchildId := Thought.id child]>))) s =
    (with_docKeys (writeDocKeys (childDocKeys docKey child)) s, Done tt).
Proof.
  intros [m Hm]. unfold childDocKeys. rewrite Hm. ex. cbn [objectValues]. ex.
  rewrite (exec_forEach_updates _ (fun g => with_docKeys <[g := Thought.id child]>)) by done.
  rewrite foldl_with_docKeys. f_equal. destruct_state s. unfold with_docKeys. cbn.
  f_equal. apply foldl_grandchildren.
Qed.

Lemma exec_setChildrenDocKeys docKey (children : list Thought.t) s :
  Forall (fun child => is_Some (Thought.childrenMap child)) children ->
  exec (setChildrenDocKeys docKey (Some children)) s =
    (with_docKeys (writeDocKeys (docKeyWrites docKey children)) s, Done tt).
Proof.
  intros Hwf. unfold setChildrenDocKeys. change (default [] (Some children)) with children.
  revert s. induction Hwf as [|child cs Hc _ IH]; intros s; cbn [forEach].
  { by rewrite with_docKeys_id. }
  unfold bind at 1. rewrite exec_andThen, exec_setChildDocKeys, IH by done.
  f_equal. apply with_docKeys_writes.
Qed.

Section SyncHandlers.
Context (E : Env).

Lemma exec_setParentDocKey docKey doc d0 s :
  docHeap s !! doc = Some d0 ->
  exec (setParentDocKey E docKey doc) s =
    (with_docKeys (writeDocKeys (parentDocKeyWrite E docKey d0)) s, Done tt).
Proof.
  intros Hd. unfold setParentDocKey, parentDocKeyWrite. ex. rewrite Hd.
  destruct (parentDocKeyOf E docKey (Some d0)) as [p|]; [destruct (Js.truthy p)|]; ex;
    by rewrite ?with_docKeys_id.
Qed.

Lemma exec_log_all {A} (f : A -> Event) xs s :
  exec (forEach xs (fun x => log (f x))) s = (with_trace (fun t => t ++ (f <$> xs)) s, Done tt).
Proof.
  rewrite (exec_forEach_updates _ (fun x => with_trace (fun t => t ++ [f x]))) by done.
  f_equal. revert s. induction xs as [|x xs IH]; intros s; cbn [foldl fmap list_fmap].
  - destruct_state s. unfold with_trace. cbn. by rewrite app_nil_r.
  - rewrite IH. destruct_state s. unfold with_trace. cbn. by rewrite <- app_assoc.
Qed.

Lemma exec_onThoughtIdbSynced docKey doc d0 children prov ws opts s :
  docHeap s !! doc = Some d0 -> getChildren (Some d0) = Some children ->
  Forall (fun child => is_Some (Thought.childrenMap child)) children ->
  exec (onThoughtIdbSynced E docKey doc prov ws opts Fulfilled) s =
    (with_trace (fun t => t ++
         ((fun child => EvOnThoughtIDBSynced child (background opts)) <$> children))
       (with_docKeys (writeDocKeys (parentDocKeyWrite E docKey d0 ++
                                    docKeyWrites docKey children)) s),
     Done tt).
Proof.
  intros Hd Hch Hwf. unfold onThoughtIdbSynced, tryCatch. rewrite exec_andThen.
  ex. rewrite Hd, Hch. ex. rewrite Hd, Hch.
  rewrite (exec_setParentDocKey docKey doc d0) by done. ex.
  rewrite exec_setChildrenDocKeys by done. ex. rewrite exec_log_all.
  f_equal. f_equal. apply with_docKeys_writes.
Qed.

Lemma exec_replicatedChild docKey doc d0 (child : Thought.t) s0 :
  docHeap s0 !! doc = Some d0 -> is_Some (Thought.childrenMap child) ->
  exec (s ← get;
        _ ← log (EvOnThoughtReplicated (Thought.id child)
                   (getThought (docHeap s !! doc) (Thought.id child)));
        _ ← modify (with_docKeys <[Thought.id child := docKey]>);
        grandchildIds ← objectValues (Thought.childrenMap child);
        forEach grandchildIds (fun grandchildId =>
          modify (with_docKeys <[grandchildId := Thought.id child]>))) s0 =
    (with_docKeys (writeDocKeys (childDocKeys docKey child))
       (with_trace (fun t => t ++ [EvOnThoughtReplicated (Thought.id child)
                                     (getThought (Some d0) (Thought.id child))]) s0),
     Done tt).
Proof.
  intros Hd Hc. rewrite exec_bind. cbn [exec get]. rewrite exec_bind.
  unfold log at 1. cbn [exec]. rewrite Hd. by apply exec_setChildDocKeys.
Qed.

Lemma exec_onThoughtWebsocketSynced docKey doc d0 children s :
  docHeap s !! doc = Some d0 -> getChildren (Some d0) = Some children ->
  Forall (fun child => is_Some (Thought.childrenMap child)) children ->
  exec (onThoughtWebsocketSynced E docKey doc) s =
    (with_trace (fun t => t ++
         ((fun child => EvOnThoughtReplicated (Thought.id child)
                          (getThought (Some d0) (Thought.id child))) <$> children))
       (with_docKeys (writeDocKeys (parentDocKeyWrite E docKey d0 ++
                                    docKeyWrites docKey children)) s),
     Done tt).
Proof.
  intros Hd Hch Hwf. unfold onThoughtWebsocketSynced.
  rewrite exec_bind. cbn [exec get]. rewrite Hd, Hch, exec_bind.
  rewrite (exec_setParentDocKey docKey doc d0) by done.
  change (default [] (Some children)) with children.
  rewrite <- with_docKeys_writes.
  assert (docHeap (with_docKeys (writeDocKeys (parentDocKeyWrite E docKey d0)) s) !! doc
            = Some d0) as Hd' by (by destruct_state s).
  revert Hd'. generalize (with_docKeys (writeDocKeys (parentDocKeyWrite E docKey d0)) s).
  clear Hd Hch. intros s1 Hd. revert s1 Hd.
  induction Hwf as [|child cs Hc _ IH]; intros s0 Hd0; cbn [forEach].
  { destruct_state s0. st. by rewrite app_nil_r. }
  unfold bind at 1. rewrite exec_andThen.
  rewrite (exec_replicatedChild docKey doc d0) by done.
  rewrite IH by (by destruct_state s0).
  f_equal. unfold docKeyWrites. cbn [mbind list_bind fmap list_fmap].
  destruct_state s0. st. by rewrite writeDocKeys_app, <- app_assoc.
Qed.

(** X8.  When the IndexedDB sync or the websocket sync of a thought doc
    that holds children is fulfilled, the handler runs to its end, calls
    [onThoughtIDBSynced] (or [onThoughtReplicated]) once per child in
    order, and changes nothing but the Document Key Index: when the ids of the children and of their children are
    distinct, every child has the docKey of the doc and every child of a
    child has the id of its parent, which is what [replicateThought]
    requires of them. *)
Theorem sync_sets_docKeys
    (s : State) (docKey : string) (doc : nat) (d0 : YDoc) (children : list Thought.t)
    (prov ws : option nat) (opts : ReplicateOptions) :
  docHeap s !! doc = Some d0 -> getChildren (Some d0) = Some children ->
  Forall (fun child => is_Some (Thought.childrenMap child)) children ->
  NoDup (docKeyWrites docKey children).*1 ->
  let idb := exec (onThoughtIdbSynced E docKey doc prov ws opts Fulfilled) s in
  let websocket := exec (onThoughtWebsocketSynced E docKey doc) s in
  let index :=
    writeDocKeys (parentDocKeyWrite E docKey d0 ++ docKeyWrites docKey children)
      (docKeys s) in
  idb = (with_trace (fun t => t ++
           ((fun child => EvOnThoughtIDBSynced child (background opts)) <$> children))
           (with_docKeys (fun _ => index) s), Done tt) ∧
  websocket = (with_trace (fun t => t ++
           ((fun child => EvOnThoughtReplicated (Thought.id child)
                            (getThought (Some d0) (Thought.id child))) <$> children))
           (with_docKeys (fun _ => index) s), Done tt) ∧
  (forall child, child ∈ children -> index !! Thought.id child = Some docKey) ∧
  (forall child m grandchildId, child ∈ children -> Thought.childrenMap child = Some m ->
     grandchildId ∈ m.*2 -> index !! grandchildId = Some (Thought.id child)) ∧
  (forall id, id ≠ docKey -> id ∉ (docKeyWrites docKey children).*1 ->
     index !! id = docKeys s !! id).
Proof.
  intros Hd Hch Hwf Hnd idb websocket index. subst idb websocket.
  rewrite (exec_onThoughtIdbSynced docKey doc d0 children) by done.
  rewrite (exec_onThoughtWebsocketSynced docKey doc d0 children) by done.
  assert (with_docKeys (writeDocKeys (parentDocKeyWrite E docKey d0 ++
            docKeyWrites docKey children)) s = with_docKeys (fun _ => index) s) as ->.
  { by apply with_docKeys_ext. }
  split; [done|]. split; [done|]. subst index. rewrite writeDocKeys_app.
  split; [|split].
  - intros child Hin. apply writes_lookup; [done|].
    unfold docKeyWrites. apply list_elem_of_bind. exists child. split; [|done]. left.
  - intros child m g Hin Hm Hg. apply writes_lookup; [done|].
    unfold docKeyWrites. apply list_elem_of_bind. exists child. split; [|done].
    unfold childDocKeys. rewrite Hm. right.
    apply list_elem_of_fmap in Hg as ([k g'] & -> & Hkv).
    apply list_elem_of_fmap. by exists (k, g').
  - intros id Hne Hid. rewrite writes_lookup_notin by done.
    apply writes_lookup_notin. unfold parentDocKeyWrite.
    destruct (parentDocKeyOf E docKey (Some d0)) as [p|]; [destruct (Js.truthy p)|];
      cbn; rewrite ?not_elem_of_cons; try split; try done; apply not_elem_of_nil.
Qed.

End SyncHandlers.

(** ** Change handlers *)

Lemma foldl_same_docKey (parent : string) (ids : list string) (dk : gmap string string)
    (id : string) :
  foldl (fun dk g => <[g := parent]> dk) dk ids !! id =
    if decide (id ∈ ids) then Some parent else dk !! id.
Proof.
  revert dk. induction ids as [|g ids IH]; intros dk; cbn [foldl].
  { rewrite decide_False by apply not_elem_of_nil. done. }
  rewrite IH. destruct (decide (id ∈ ids)) as [Hin|Hin].
  - rewrite decide_True by (by right). done.
  - destruct (decide (id = g)) as [->|Hne].
    + rewrite decide_True by left. apply lookup_insert_eq.
    + rewrite decide_False by (rewrite elem_of_cons; tauto).
      by apply lookup_insert_ne.
Qed.

Section ChangeHandlers.
Context (E : Env).

Lemma exec_onThoughtChange id doc thought m s :
  getThought (docHeap s !! doc) id = Some thought -> Thought.childrenMap thought = Some m ->
  exec (onThoughtChange id doc false) s =
    (with_floating (fun l => l ++ [FlOnThoughtChange thought])
       (with_docKeys (fun dk => foldl (fun dk g => <[g := id]> dk) dk m.*2) s), Done tt).
Proof.
  intros Hth Hm. unfold onThoughtChange. rewrite exec_bind. cbn [exec get].
  rewrite Hth, Hm. cbn [objectValues]. rewrite !exec_bind. cbn [exec].
  rewrite exec_bind.
  rewrite (exec_forEach_updates _ (fun g => with_docKeys <[g := id]>)) by done.
  rewrite foldl_with_docKeys. reflexivity.
Qed.

(** X9.  A change of a thought that comes from another client sets the
    docKey of every child of the changed thought to the id of the thought,
    leaves every other docKey as it is, and queues one call of
    [onThoughtChange] with the thought behind [config]; nothing else
    changes.  A change that originates from the doc's own client, or a
    thought that is not in the doc, leaves the module as it is, and so does
    a change of a lexeme doc by its own client or of an empty lexeme doc;
    any other lexeme change hands one batch with the Lexeme under the key
    of its document name to [updateThoughtsThrottled]. *)
Theorem change_handlers
    (s : State) (id : string) (doc : nat) (thought : Thought.t) (m : Index string) :
  getThought (docHeap s !! doc) id = Some thought ->
  Thought.childrenMap thought = Some m ->
  let r := exec (onThoughtChange id doc false) s in
  r.2 = Done tt ∧
  r.1 = with_floating (fun l => l ++ [FlOnThoughtChange thought])
          (with_docKeys (fun _ => docKeys r.1) s) ∧
  (forall childId, childId ∈ m.*2 -> docKeys r.1 !! childId = Some id) ∧
  (forall other, other ∉ m.*2 -> docKeys r.1 !! other = docKeys s !! other) ∧
  (forall s' id' doc', exec (onThoughtChange id' doc' true) s' = (s', Done tt) ∧
     exec (onLexemeChange E doc' true) s' = (s', Done tt) ∧
     (getThought (docHeap s' !! doc') id' = None ->
      exec (onThoughtChange id' doc' false) s' = (s', Done tt)) ∧
     (getLexeme (docHeap s' !! doc') = None ->
      exec (onLexemeChange E doc' false) s' = (s', Done tt)) ∧
     (forall d lexeme, docHeap s' !! doc' = Some d -> getLexeme (Some d) = Some lexeme ->
      exec (onLexemeChange E doc' false) s' =
        exec (updateThoughtsThrottled
                (mkBatch ∅ {[parseDocumentName E (guid d) := Some lexeme]} ∅)) s')).
Proof.
  intros Hth Hm r. subst r. rewrite (exec_onThoughtChange id doc thought m) by done.
  cbn [fst snd]. split; [done|]. split.
  { by destruct_state s. }
  assert (docKeys (with_floating (fun l => l ++ [FlOnThoughtChange thought])
            (with_docKeys (fun dk => foldl (fun dk g => <[g := id]> dk) dk m.*2) s)) =
          foldl (fun dk g => <[g := id]> dk) (docKeys s) m.*2) as ->
    by (by destruct_state s).
  split; [|split].
  - intros c Hc. rewrite foldl_same_docKey. by rewrite decide_True.
  - intros c Hc. rewrite foldl_same_docKey. by rewrite decide_False.
  - intros s' id' doc'. split; [done|]. split; [done|]. split; [|split].
    + intros Hnone. unfold onThoughtChange. rewrite exec_bind. cbn [exec get].
      by rewrite Hnone.
    + intros Hnone. unfold onLexemeChange. rewrite exec_bind. cbn [exec get].
      by rewrite Hnone.
    + intros d lexeme Hd Hl. unfold onLexemeChange. rewrite exec_bind. cbn [exec get].
      by rewrite Hd, Hl.
Qed.

End ChangeHandlers.

(** ** Deletion of a thought *)

Lemma YMap_get_delete {V} (k : string) (m : YMap.t V) : YMap.get k (YMap.delete k m) = None.
Proof.
  induction m as [|[k' v] m IH]; cbn [YMap.get YMap.delete]; [done|].
  destruct (decide (k = k')) as [->|Hne]; cbn [YMap.get].
  - by rewrite decide_True.
  - by rewrite decide_False.
Qed.

Lemma foldl_delete_lookup {A} (f : A -> string) (xs : list A) (dk : gmap string string) id :
  foldl (fun dk x => delete (f x) dk) dk xs !! id =
    if decide (id ∈ f <$> xs) then None else dk !! id.
Proof.
  revert dk. induction xs as [|x xs IH]; intros dk; cbn [foldl fmap list_fmap].
  { by rewrite decide_False by apply not_elem_of_nil. }
  rewrite IH. destruct (decide (id ∈ f <$> xs)) as [Hin|Hin].
  - by rewrite decide_True by (by right).
  - destruct (decide (id = f x)) as [->|Hne].
    + rewrite decide_True by left. apply lookup_delete_eq.
    + rewrite decide_False by (rewrite elem_of_cons; tauto). by apply lookup_delete_ne.
Qed.

Section DeleteThought.
Context (E : Env).

Lemma run_removeFromParent oracle docKey s :
  run oracle
    (match docKeys s !! docKey with
     | Some docKeyParent =>
         if Js.truthy docKeyParent then
           match thoughtDocs s !! docKeyParent with
           | Some docParent =>
               modify (with_docHeap (alter (setChildrenYMap (YMap.delete docKey)) docParent))
           | None => Ret tt
           end
         else Ret tt
     | None => Ret tt
     end) s = (with_docHeap (fun _ => removeFromParent docKey s) s, inl tt).
Proof.
  unfold removeFromParent, parentDocOf.
  destruct (docKeys s !! docKey) as [p|]; [destruct (Js.truthy p);
    [destruct (thoughtDocs s !! p)|]|]; cbn [run modify from_option];
    by destruct_state s.
Qed.

Lemma run_deleteThought_state oracle docKey s cfg :
  configCache s = Some cfg -> (forall aw, oracle aw = Fulfilled) ->
  let heap := removeFromParent docKey s in
  let children := default [] (getChildren (thoughtDocs s !! docKey ≫= (heap !!.))) in
  let tms := default [] (YMap.values ∘ childrenYMap <$>
                           (thoughtDocs s !! docKey ≫= (heap !!.))) in
  run oracle (deleteThought E docKey) s =
    (with_thoughts (uncache docKey)
      (from_option (fun w => with_trace (fun t => t ++ [EvDestroyProvider w]) ∘
          with_provHeap (alter (fun p => mkProvider (w_name p) (w_doc p) (w_status p) true) w))
         (fun s => s) (thoughtWebsocketProvider s !! docKey)
      (from_option (fun d => with_trace (fun t => t ++ [EvDestroyDoc d]) ∘
          with_docHeap (alter markDestroyed d)) (fun s => s) (thoughtDocs s !! docKey)
      (with_docKeys (fun dk => foldl forgetChild dk tms)
      (with_thoughts (with_retained (fun r => r ∖ {[docKey]}))
      (with_trace (fun t => t ++ [clearEvent E cfg docKey s])
      (with_docKeys (fun dk => foldl (fun dk child => delete (Thought.id child) dk) dk children)
      (with_docKeys (delete docKey)
      (with_docHeap (fun _ => heap) s)))))))), inl tt).
Proof.
  intros Hcfg Hor heap children tms. unfold deleteThought.
  rewrite run_bind. cbn [await run]. rewrite Hor. cbn [run].
  rewrite run_bind. unfold readConfig. rewrite run_bind. cbn [run get]. rewrite Hcfg. cbn [run].
  rewrite run_bind. cbn [run get]. rewrite run_bind, run_removeFromParent.
  rewrite run_bind. cbn [run modify]. rewrite run_bind. cbn [run get].
  set (s2 := with_docKeys (delete docKey) (with_docHeap (fun _ => removeFromParent docKey s) s)).
  assert (thoughtDocs s2 = thoughtDocs s ∧ docHeap s2 = heap ∧
          thoughtWebsocketProvider s2 = thoughtWebsocketProvider s ∧
          thoughtIDBSynced s2 = thoughtIDBSynced s) as (Hdocs & Hheap & Hprov & Hidb)
    by (subst s2 heap; by destruct_state s).
  rewrite Hdocs, Hheap. fold children.
  rewrite run_bind.
  rewrite (run_forEach oracle _
             (fun child => with_docKeys (delete (Thought.id child)))) by done.
  rewrite foldl_with_docKeys.
  unfold tryCatch. rewrite run_andThen, run_bind.
  unfold clearStorage. rewrite run_bind.
  assert (forall s0, run oracle
            match thoughtPersistence s !! docKey with
            | Some p => log (EvClearData p)
            | None => log (EvClearDocument (encodeThoughtDocumentName E (tsid cfg) docKey))
            end s0 = (with_trace (fun t => t ++ [clearEvent E cfg docKey s]) s0, inl tt)) as ->.
  { intros s0. unfold clearEvent. by destruct (thoughtPersistence s !! docKey). }
  cbn [run]. rewrite run_bind. unfold awaitCall at 1. rewrite run_andThen.
  rewrite run_freeThought by apply Hor.
  cbn [run await]. rewrite Hor. cbn [run].
  reflexivity.
Qed.

(** X10.  [deleteThought(docKey)], run to completion when every awaited
    promise is fulfilled, is fulfilled and leaves no trace of the thought
    in memory: the thought is deleted from the children of its parent's doc
    when that doc is cached; the docKey of the thought and of each of its
    children is deleted, and no docKey is added or changed; the key is
    removed from the retained set and from the five caches, and its doc and
    websocket provider are destroyed; clearing the database is started
    through the cached persistence when there is one, and by document name
    otherwise.  Other keys and the lexeme caches are as they were. *)
Theorem deleteThought_removes
    (s : State) (cfg : Config) (docKey : string) (oracle : Awaited -> Settled) :
  configCache s = Some cfg -> (forall aw, oracle aw = Fulfilled) ->
  let r := run oracle (deleteThought E docKey) s in
  let doc := thoughtDocs s !! docKey in
  let provider := thoughtWebsocketProvider s !! docKey in
  let heap := removeFromParent docKey s in
  let children := default [] (getChildren (doc ≫= (heap !!.))) in
  r.2 = inl tt ∧
  (forall docParent, parentDocOf docKey s = Some docParent ->
     getThought (docHeap r.1 !! docParent) docKey = None) ∧
  docHeap r.1 = from_option (alter markDestroyed) (fun h => h) doc heap ∧
  docKeys r.1 !! docKey = None ∧
  (forall child, child ∈ children -> docKeys r.1 !! Thought.id child = None) ∧
  (forall id, docKeys r.1 !! id = None ∨ docKeys r.1 !! id = docKeys s !! id) ∧
  thoughts r.1 = uncache docKey (with_retained (fun ret => ret ∖ {[docKey]}) (thoughts s)) ∧
  (thoughtDocs r.1 !! docKey = None ∧ thoughtPersistence r.1 !! docKey = None ∧
   thoughtIDBSynced r.1 !! docKey = None ∧ thoughtWebsocketProvider r.1 !! docKey = None ∧
   thoughtWebsocketSynced r.1 !! docKey = None ∧ (docKey ∉ thoughtRetained r.1)) ∧
  lexemes r.1 = lexemes s ∧
  trace r.1 = trace s ++ [clearEvent E cfg docKey s] ++
                from_option (fun d => [EvDestroyDoc d]) [] doc ++
                from_option (fun w => [EvDestroyProvider w]) [] provider.
Proof.
  intros Hcfg Hor r doc provider heap children. subst r doc provider.
  rewrite (run_deleteThought_state oracle docKey s cfg Hcfg Hor). cbn [fst snd].
  fold heap. fold children.
  set (tms := default [] (YMap.values ∘ childrenYMap <$> (thoughtDocs s !! docKey ≫= (heap !!.)))).
  set (s' := with_thoughts _ _).
  assert (thoughts s' = uncache docKey (with_retained (fun ret => ret ∖ {[docKey]}) (thoughts s)) ∧
          lexemes s' = lexemes s ∧
          docKeys s' = foldl forgetChild
            (foldl (fun dk child => delete (Thought.id child) dk)
               (delete docKey (docKeys s)) children) tms ∧
          docHeap s' = from_option (alter markDestroyed) (fun h => h)
                         (thoughtDocs s !! docKey) heap ∧
          trace s' = trace s ++ [clearEvent E cfg docKey s] ++
            from_option (fun d => [EvDestroyDoc d]) [] (thoughtDocs s !! docKey) ++
            from_option (fun w => [EvDestroyProvider w]) [] (thoughtWebsocketProvider s !! docKey))
    as (Hth & Hlx & Hdk & Hdh & Htr).
  { subst s'. generalize heap children tms. intros heap' children' tms'.
    destruct (thoughtDocs s !! docKey) as [d|];
      destruct (thoughtWebsocketProvider s !! docKey) as [w|]; destruct_state s;
      unfold compose; flatten_state; cbn [from_option];
      rewrite <- ?app_assoc, ?app_nil_r; done. }
  clearbody s'.
  assert (forall id, docKeys s' !! id = None ∨
            docKeys s' !! id =
              (foldl (fun dk child => delete (Thought.id child) dk)
                 (delete docKey (docKeys s)) children) !! id) as Hforget.
  { intros id. rewrite Hdk. apply forgetChildren_lookup. }
  split; [done|]. split.
  { intros dp Hdp. rewrite Hdh. subst heap. unfold removeFromParent. rewrite Hdp.
    cbn [from_option].
    assert (forall h : gmap nat YDoc,
              getThought (h !! dp) docKey = None ->
              getThought (from_option (alter markDestroyed) (fun h => h)
                            (thoughtDocs s !! docKey) h !! dp) docKey = None) as Hmark.
    { intros h Hh. destruct (thoughtDocs s !! docKey) as [d|]; [|done]. cbn [from_option].
      destruct (decide (d = dp)) as [->|Hne]; [|by rewrite lookup_alter_ne].
      rewrite lookup_alter_eq. destruct (h !! dp) as [x|]; [|done]. by destruct x. }
    apply Hmark. rewrite lookup_alter_eq.
    destruct (docHeap s !! dp) as [x|]; [|done]. destruct x. cbn.
    by rewrite YMap_get_delete. }
  split; [exact Hdh|]. split.
  { destruct (Hforget docKey) as [H|H]; [done|]. rewrite H, foldl_delete_lookup.
    destruct (decide _); [done|]. apply lookup_delete_eq. }
  split.
  { intros child Hin. destruct (Hforget (Thought.id child)) as [H|H]; [done|].
    rewrite H, foldl_delete_lookup. rewrite decide_True; [done|].
    apply list_elem_of_fmap. by exists child. }
  split.
  { intros id. destruct (Hforget id) as [H|H]; [by left|]. rewrite H, foldl_delete_lookup.
    destruct (decide _); [by left|]. destruct (decide (id = docKey)) as [->|Hne].
    - left. apply lookup_delete_eq.
    - right. by apply lookup_delete_ne. }
  split; [exact Hth|].
  unfold thoughtDocs, thoughtPersistence, thoughtIDBSynced, thoughtWebsocketProvider,
    thoughtWebsocketSynced, thoughtRetained in *.
  rewrite Hth. split.
  { destruct (uncache_lookup docKey (with_retained (fun ret => ret ∖ {[docKey]}) (thoughts s)))
      as (H1 & H2 & H3 & H4 & H5).
    repeat split; try done. destruct (thoughts s). cbn.
    apply not_elem_of_difference. right. by apply elem_of_singleton. }
  split; [exact Hlx|exact Htr].
Qed.

End DeleteThought.

(** ** Replication after the IndexedDB sync *)

Lemma getLexeme_observeLexeme d : getLexeme (Some (observeLexeme d)) = getLexeme (Some d).
Proof. by destruct d. Qed.

Lemma run_setContextDocKeys oracle raw s :
  run oracle (setContextDocKeys raw) s =
    (with_docKeys (fun dk => foldl recordContext dk raw) s, inl tt).
Proof. apply run_exec_done, exec_setContextDocKeys. Qed.

Lemma run_tryDeallocateLexeme_retained oracle k s :
  k ∈ lexemeRetained s -> run oracle (tryDeallocateLexeme k) s = (s, inl tt).
Proof. intros Hin. by apply run_exec_done, tryDeallocateLexeme_retained. Qed.

Lemma run_tryDeallocateThought_retained oracle k s :
  k ∈ thoughtRetained s -> run oracle (tryDeallocateThought k) s = (s, inl tt).
Proof. intros Hin. by apply run_exec_done, tryDeallocateThought_retained. Qed.

Section AfterSync.
Context (E : Env).

Lemma run_replicateLexemeSynced_tail oracle key doc d s :
  docHeap s !! doc = Some d ->
  run oracle
    (s ← get;
     let lexeme := getLexeme (docHeap s !! doc) in
     let lexemeRaw := default [] (YMap.entries ∘ lexemeMap <$> docHeap s !! doc) in
     _ ← setContextDocKeys lexemeRaw;
     _ ← tryDeallocateLexeme key;
     Ret lexeme) s =
  (let r := run oracle (tryDeallocateLexeme key)
              (with_docKeys (fun dk => foldl recordContext dk (YMap.entries (lexemeMap d))) s) in
   (r.1, match r.2 with inl _ => inl (getLexeme (Some d)) | inr e => inr e end)).
Proof.
  intros Hd. rewrite run_bind. cbn [run get]. rewrite Hd.
  cbn [fmap option_fmap option_map default compose].
  rewrite run_bind, run_setContextDocKeys, run_bind.
  cbn zeta. destruct (run oracle (tryDeallocateLexeme key) _) as [s' [[]|e]]; done.
Qed.

Lemma run_replicateLexemeSynced_foreground oracle key cfg doc w pw d s :
  docHeap s !! doc = Some d ->
  run oracle (replicateLexemeSynced E key false cfg doc w pw) s =
  (let r := run oracle (tryDeallocateLexeme key)
              (with_docKeys (fun dk => foldl recordContext dk (YMap.entries (lexemeMap d)))
                 (with_docHeap (alter observeLexeme doc) s)) in
   (r.1, match r.2 with inl _ => inl (getLexeme (Some d)) | inr e => inr e end)).
Proof.
  intros Hd. unfold replicateLexemeSynced. rewrite run_bind. cbn [negb run modify].
  rewrite (run_replicateLexemeSynced_tail oracle key doc (observeLexeme d)).
  - rewrite getLexeme_observeLexeme. by destruct d.
  - destruct_state s. cbn. by rewrite lookup_alter_eq, Hd.
Qed.

Lemma run_replicateLexemeSynced_background oracle key cfg doc w pw d s :
  (forall aw, oracle aw = Fulfilled) ->
  docHeap s !! doc = Some d -> isLexemeLoaded cfg key (getLexeme (Some d)) = false ->
  run oracle (replicateLexemeSynced E key true cfg doc w pw) s =
  (let r := run oracle (tryDeallocateLexeme key)
              (with_docKeys (fun dk => foldl recordContext dk (YMap.entries (lexemeMap d))) s) in
   (r.1, match r.2 with inl _ => inl (getLexeme (Some d)) | inr e => inr e end)).
Proof.
  intros Hor Hd Hload. unfold replicateLexemeSynced. rewrite run_bind. cbn [negb].
  rewrite run_bind. cbn [run await]. rewrite Hor. cbn [run].
  rewrite run_bind. cbn [run get]. rewrite Hd, run_bind. cbn [run await]. rewrite Hor.
  cbn [run]. rewrite Hload. cbn [when run].
  by rewrite (run_replicateLexemeSynced_tail oracle key doc d).
Qed.

(** X11.  What [replicateLexeme] does once the IndexedDB sync of its doc is
    fulfilled, when [isLexemeLoaded] resolves to false.  The call returns
    the Lexeme of the doc and sets the docKey of every context found in the
    doc.  A key that is retained stays cached: in the foreground the doc is
    observed and nothing else changes, in the background nothing changes at
    all.  A key that is not retained is deallocated after the read: it is
    removed from the five caches, and the doc, no longer observed, and the
    websocket provider are destroyed. *)
Theorem replicateLexeme_after_sync
    (s : State) (cfg : Config) (key : string) (doc w pw : nat) (d : YDoc)
    (oracle : Awaited -> Settled) :
  (forall aw, oracle aw = Fulfilled) ->
  docHeap s !! doc = Some d -> lexemeDocs s !! key = Some doc ->
  isLexemeLoaded cfg key (getLexeme (Some d)) = false ->
  let foreground := run oracle (replicateLexemeSynced E key false cfg doc w pw) s in
  let background := run oracle (replicateLexemeSynced E key true cfg doc w pw) s in
  let index := foldl recordContext (docKeys s) (YMap.entries (lexemeMap d)) in
  let provider := lexemeWebsocketProvider s !! key in
  foreground.2 = inl (getLexeme (Some d)) ∧ background.2 = inl (getLexeme (Some d)) ∧
  docKeys foreground.1 = index ∧ docKeys background.1 = index ∧
  thoughts foreground.1 = thoughts s ∧ thoughts background.1 = thoughts s ∧
  (key ∈ lexemeRetained s ->
     foreground.1 = with_docKeys (fun _ => index) (with_docHeap (alter observeLexeme doc) s) ∧
     background.1 = with_docKeys (fun _ => index) s) ∧
  (key ∉ lexemeRetained s ->
     lexemes foreground.1 = uncache key (lexemes s) ∧
     lexemes background.1 = uncache key (lexemes s) ∧
     docHeap foreground.1 = alter (markDestroyed ∘ unobserveLexeme) doc (docHeap s) ∧
     docHeap background.1 = alter (markDestroyed ∘ unobserveLexeme) doc (docHeap s) ∧
     trace foreground.1 = trace s ++ [EvDestroyDoc doc] ++
                            from_option (fun w => [EvDestroyProvider w]) [] provider ∧
     trace background.1 = trace foreground.1).
Proof.
  intros Hor Hd Hdoc Hload foreground background index provider.
  subst foreground background index provider.
  rewrite (run_replicateLexemeSynced_foreground oracle key cfg doc w pw d s Hd).
  rewrite (run_replicateLexemeSynced_background oracle key cfg doc w pw d s Hor Hd Hload).
  cbn zeta. cbn [fst snd].
  set (raw := YMap.entries (lexemeMap d)).
  destruct (decide (key ∈ lexemeRetained s)) as [Hret|Hret].
  - rewrite !run_tryDeallocateLexeme_retained by (by destruct_state s).
    cbn [fst snd]. repeat split; try (by destruct_state s).
  - rewrite !run_tryDeallocateLexeme by (by destruct_state s).
    cbn [fst snd].
    assert (forall f, lexemeDocs (with_docKeys f (with_docHeap (alter observeLexeme doc) s)) !! key
              = Some doc) as Hdoc1 by (intros; by destruct_state s).
    assert (forall f, lexemeDocs (with_docKeys f s) !! key = Some doc) as Hdoc2
      by (intros; by destruct_state s).
    rewrite Hdoc1, Hdoc2. cbn [from_option].
    assert (forall f, lexemeWebsocketProvider
              (with_docKeys f (with_docHeap (alter observeLexeme doc) s)) !! key =
              lexemeWebsocketProvider s !! key) as -> by (intros; by destruct_state s).
    assert (forall f, lexemeWebsocketProvider (with_docKeys f s) !! key =
              lexemeWebsocketProvider s !! key) as -> by (intros; by destruct_state s).
    split; [done|]. split; [done|].
    destruct (lexemeWebsocketProvider s !! key) as [w0|]; destruct_state s;
      unfold compose; flatten_state; cbn [from_option];
      rewrite ?alter_alter_eq; unfold compose;
      repeat split; try done; rewrite <- ?app_assoc; try done.
    all: try (intros Hin; by destruct (Hret Hin)).
Qed.
End AfterSync.

Lemma getChildren_observeThought id d :
  getChildren (Some (observeThought id d)) = getChildren (Some d).
Proof. by destruct d. Qed.

Lemma getChildren_observed (ids : list string) d :
  getChildren (Some (foldl (fun d id => observeThought id d) d ids)) = getChildren (Some d).
Proof.
  revert d. induction ids as [|id ids IH]; intros d; cbn [foldl]; [done|].
  by rewrite IH, getChildren_observeThought.
Qed.

Lemma childrenYMap_observed (ids : list string) d :
  childrenYMap (foldl (fun d id => observeThought id d) d ids) = childrenYMap d.
Proof.
  revert d. induction ids as [|id ids IH]; intros d; cbn [foldl]; [done|].
  rewrite IH. by destruct d.
Qed.

Lemma lookup_observed (ids : list string) (doc : nat) (h : gmap nat YDoc) :
  foldl (fun h id => alter (observeThought id) doc h) h ids !! doc =
    (fun d => foldl (fun d id => observeThought id d) d ids) <$> h !! doc.
Proof.
  revert h. induction ids as [|id ids IH]; intros h; cbn [foldl].
  { by destruct (h !! doc). }
  rewrite IH, lookup_alter_eq. by destruct (h !! doc).
Qed.

Lemma foldl_with_docHeap {A} (g : A -> gmap nat YDoc -> gmap nat YDoc) xs s :
  foldl (fun s x => with_docHeap (g x) s) s xs =
  with_docHeap (fun h => foldl (fun h x => g x h) h xs) s.
Proof.
  revert s. induction xs as [|x xs IH]; intros s; cbn [foldl].
  - by destruct_state s.
  - rewrite IH. by destruct_state s.
Qed.

Lemma with_docHeap_insert_id doc d s :
  docHeap s !! doc = Some d -> with_docHeap <[doc := d]> s = s.
Proof. intros H. destruct_state s. st. f_equal. apply insert_id, H. Qed.

Lemma with_docHeap_observed doc d (ids : list string) s :
  docHeap s !! doc = Some d ->
  with_docHeap (fun h => foldl (fun h id => alter (observeThought id) doc h) h ids) s =
    with_docHeap <[doc := foldl (fun d id => observeThought id d) d ids]> s.
Proof.
  intros Hd. destruct_state s. st. f_equal. apply map_eq. intros i.
  destruct (decide (i = doc)) as [->|Hne].
  - rewrite lookup_observed, lookup_insert_eq. by rewrite Hd.
  - rewrite lookup_insert_ne by done. clear Hd.
    induction ids as [|x xs IH] using rev_ind; [done|].
    rewrite foldl_app. cbn [foldl]. by rewrite lookup_alter_ne.
Qed.

Section ChildrenAfterSync.
Context (E : Env).

Lemma run_promiseAll_unloaded oracle cfg docKey doc (children : list Thought.t) s :
  Forall (fun child => isThoughtLoaded cfg child = false) children ->
  run oracle (promiseAll ((fun child =>
      when (isThoughtLoaded cfg child) (foregroundChild docKey doc child)) <$> children)) s =
    (s, inl tt).
Proof.
  induction 1 as [|child cs Hc _ IH]; cbn [fmap list_fmap promiseAll]; [done|].
  rewrite run_andThen, Hc. cbn [when run]. exact IH.
Qed.

Lemma run_replicateChildrenSynced oracle docKey opts cfg doc ws d s :
  (forall aw, oracle aw = Fulfilled) -> docHeap s !! doc = Some d ->
  Forall (fun child => isThoughtLoaded cfg child = false)
    (default [] (getChildren (Some d))) ->
  run oracle (replicateChildrenSynced docKey opts cfg doc ws) s =
  (let r := run oracle (tryDeallocateThought docKey)
              (if background opts then s
               else with_docHeap (fun h => foldl (fun h id => alter (observeThought id) doc h) h
                                             (YMap.keys (childrenYMap d))) s) in
   (r.1, match r.2 with inl _ => inl (getChildren (Some d)) | inr e => inr e end)).
Proof.
  intros Hor Hd Hload. unfold replicateChildrenSynced. rewrite run_bind.
  destruct opts as [[] od []]; cbn [background remote negb andb].
  - rewrite run_bind. cbn [run await]. rewrite Hor. cbn [run].
    rewrite run_bind. cbn [run get]. rewrite Hd, run_bind. cbn [run await]. rewrite Hor.
    cbn [run]. rewrite run_bind, run_promiseAll_unloaded by done.
    cbn [run await]. rewrite Hor. cbn [run]. rewrite run_bind. cbn [run get].
    rewrite Hd, run_bind. cbn zeta.
    by destruct (run oracle (tryDeallocateThought docKey) s) as [s' [[]|e]].
  - cbn [run]. rewrite run_bind. cbn [run get]. rewrite Hd, run_bind. cbn zeta.
    by destruct (run oracle (tryDeallocateThought docKey) s) as [s' [[]|e]].
  - rewrite run_bind. cbn [run get]. rewrite Hd.
    change (default [] (YMap.keys ∘ childrenYMap <$> Some d)) with (YMap.keys (childrenYMap d)).
    rewrite (run_forEach oracle _ (fun id => with_docHeap (alter (observeThought id) doc)))
      by done.
    rewrite foldl_with_docHeap, run_bind. cbn [run get].
    assert (docHeap (with_docHeap (fun h => foldl (fun h id => alter (observeThought id) doc h) h
                       (YMap.keys (childrenYMap d))) s) !! doc =
            Some (foldl (fun d id => observeThought id d) d (YMap.keys (childrenYMap d)))) as ->.
    { destruct_state s. cbn. rewrite lookup_observed. cbn in Hd. by rewrite Hd. }
    rewrite getChildren_observed, run_bind. cbn zeta.
    by destruct (run oracle (tryDeallocateThought docKey) _) as [s' [[]|e]].
  - rewrite run_bind. cbn [run get]. rewrite Hd.
    change (default [] (YMap.keys ∘ childrenYMap <$> Some d)) with (YMap.keys (childrenYMap d)).
    rewrite (run_forEach oracle _ (fun id => with_docHeap (alter (observeThought id) doc)))
      by done.
    rewrite foldl_with_docHeap, run_bind. cbn [run get].
    assert (docHeap (with_docHeap (fun h => foldl (fun h id => alter (observeThought id) doc h) h
                       (YMap.keys (childrenYMap d))) s) !! doc =
            Some (foldl (fun d id => observeThought id d) d (YMap.keys (childrenYMap d)))) as ->.
    { destruct_state s. cbn. rewrite lookup_observed. cbn in Hd. by rewrite Hd. }
    rewrite getChildren_observed, run_bind. cbn zeta.
    by destruct (run oracle (tryDeallocateThought docKey) _) as [s' [[]|e]].
Qed.
(** X12.  What [replicateChildren] does once the IndexedDB sync of its doc is
    fulfilled, when [isThoughtLoaded] resolves to false for every child.
    The call returns the children of the doc.  In the foreground every
    child map of the doc is observed first.  A docKey that is retained
    stays cached and nothing else changes; a docKey that is not retained is
    deallocated after the read: it is removed from the five caches, its doc
    and websocket provider are destroyed, and no docKey is added or
    changed.  The lexeme caches are never touched. *)
Theorem replicateChildren_after_sync
    (s : State) (cfg : Config) (docKey : string) (opts : ReplicateOptions)
    (doc : nat) (ws : option nat) (d : YDoc) (oracle : Awaited -> Settled) :
  (forall aw, oracle aw = Fulfilled) ->
  docHeap s !! doc = Some d -> thoughtDocs s !! docKey = Some doc ->
  Forall (fun child => isThoughtLoaded cfg child = false)
    (default [] (getChildren (Some d))) ->
  let r := run oracle (replicateChildrenSynced docKey opts cfg doc ws) s in
  let observed :=
    if background opts then d
    else foldl (fun d id => observeThought id d) d (YMap.keys (childrenYMap d)) in
  let provider := thoughtWebsocketProvider s !! docKey in
  r.2 = inl (getChildren (Some d)) ∧
  lexemes r.1 = lexemes s ∧
  (docKey ∈ thoughtRetained s -> r.1 = with_docHeap <[doc := observed]> s) ∧
  (docKey ∉ thoughtRetained s ->
     thoughts r.1 = uncache docKey (thoughts s) ∧
     docHeap r.1 = <[doc := markDestroyed observed]> (docHeap s) ∧
     trace r.1 = trace s ++ [EvDestroyDoc doc] ++
                   from_option (fun w => [EvDestroyProvider w]) [] provider ∧
     (forall id, docKeys r.1 !! id = None ∨ docKeys r.1 !! id = docKeys s !! id)).
Proof.
  intros Hor Hd Hdoc Hload r observed provider. subst r provider.
  rewrite (run_replicateChildrenSynced oracle docKey opts cfg doc ws d s Hor Hd Hload).
  cbn zeta. cbn [fst snd].
  set (s1 := if background opts then s else with_docHeap _ s).
  assert (thoughts s1 = thoughts s ∧ lexemes s1 = lexemes s ∧ docKeys s1 = docKeys s ∧
          trace s1 = trace s ∧ provHeap s1 = provHeap s ∧
          s1 = with_docHeap <[doc := observed]> s) as (Hth & Hlx & Hdk & Htr & Hph & Hs1).
  { subst s1 observed. destruct (background opts).
    - repeat split. by rewrite with_docHeap_insert_id.
    - repeat split; try (by destruct_state s). by apply with_docHeap_observed. }
  destruct (decide (docKey ∈ thoughtRetained s)) as [Hret|Hret].
  - rewrite run_tryDeallocateThought_retained by (unfold thoughtRetained; by rewrite Hth).
    cbn [fst snd]. repeat split; try done.
  - rewrite run_tryDeallocateThought by (unfold thoughtRetained; by rewrite Hth).
    cbn [fst snd]. split; [done|].
    unfold thoughtDocs, thoughtWebsocketProvider in *. rewrite Hth, Hdoc.
    cbn [from_option mbind option_bind].
    assert (docHeap s1 !! doc = Some observed) as Hobs.
    { rewrite Hs1. destruct_state s. cbn. apply lookup_insert_eq. }
    rewrite Hobs. cbn [fmap option_fmap option_map default].
    set (tms := id _).
    clearbody tms. rewrite Hs1. clear Hobs Hs1 Hth Hlx Hdk Htr Hph s1.
    split.
    { destruct (websocketProvider (thoughts s) !! docKey); by destruct_state s. }
    split; [intros Hin; by destruct (Hret Hin)|]. intros _.
    split; [|split; [|split]].
    + destruct (websocketProvider (thoughts s) !! docKey); by destruct_state s.
    + destruct (websocketProvider (thoughts s) !! docKey); destruct_state s;
        unfold compose; flatten_state; cbn [from_option];
        by rewrite alter_insert_eq.
    + destruct (websocketProvider (thoughts s) !! docKey); destruct_state s;
        unfold compose; flatten_state; cbn [from_option]; by rewrite <- ?app_assoc, ?app_nil_r.
    + intros id0.
      assert (forall s0, docKeys (with_thoughts (uncache docKey)
                (from_option (fun w => with_trace (fun t => t ++ [EvDestroyProvider w]) ∘
                   with_provHeap (alter (fun p => mkProvider (w_name p) (w_doc p) (w_status p) true) w))
                  (fun s => s) (websocketProvider (thoughts s) !! docKey)
                  ((with_trace (fun t => t ++ [EvDestroyDoc doc]) ∘
                    with_docHeap (alter markDestroyed doc)) s0))) = docKeys s0) as ->.
      { intros s0. destruct (websocketProvider (thoughts s) !! docKey); by destruct_state s0. }
      assert (docKeys (with_docKeys (fun dk => foldl forgetChild dk tms)
                 (with_docHeap <[doc := observed]> s)) =
              foldl forgetChild (docKeys s) tms) as -> by (by destruct_state s).
      apply forgetChildren_lookup.
Qed.

End ChildrenAfterSync.

(** ** Batched reads *)

Lemma firstUncached_spec cached keys k :
  k ∈ firstUncached cached keys ↔ k ∈ keys ∧ k ∉ cached.
Proof.
  revert cached. induction keys as [|a keys IH]; intros cached; cbn [firstUncached].
  { split; [by intros ?%elem_of_nil|by intros [?%elem_of_nil _]]. }
  destruct (decide (a ∈ cached)) as [Hin|Hin].
  - rewrite IH, elem_of_cons. split; [tauto|]. intros [[->|?] ?]; tauto.
  - rewrite !elem_of_cons, IH. rewrite not_elem_of_union, not_elem_of_singleton.
    split.
    + intros [->|(? & ? & ?)]; tauto.
    + intros [[->|?] ?]; [by left|]. destruct (decide (k = a)); tauto.
Qed.

Lemma firstUncached_NoDup cached keys : NoDup (firstUncached cached keys).
Proof.
  revert cached. induction keys as [|a keys IH]; intros cached; cbn [firstUncached].
  { constructor. }
  destruct (decide (a ∈ cached)); [apply IH|]. constructor; [|apply IH].
  rewrite firstUncached_spec. intros [_ H]. apply H. apply elem_of_union_l.
  by apply elem_of_singleton.
Qed.

Section BatchedReads.
Context (E : Env).

Lemma replicateLexeme_fresh_frame k bg s cfg :
  MODE E ≠ "test" -> configCache s = Some cfg -> lexemeDocs s !! k = None ->
  isSpecialToken E k = false ->
  let d := nextId s in
  let r := exec (replicateLexeme E k bg) s in
  nextId r.1 = 5 + d ∧ lexemeDocs r.1 = <[k := d]> (lexemeDocs s) ∧
  lexemeIDBSynced r.1 = <[k := S (S d)]> (lexemeIDBSynced s).
Proof.
  intros Hmode Hcfg Hdoc Hsp d r. subst r d. unfold replicateLexeme.
  rewrite Hsp. destruct_state s. subst. ex. rewrite Hdoc.
  destruct bg; ex; rewrite Hdoc, (bool_decide_eq_false_2 _ Hmode); ex;
    unfold replicateLexemeFresh; ex; auto.
Qed.

Lemma replicateLexeme_cached_frame k bg s cfg d :
  configCache s = Some cfg -> lexemeDocs s !! k = Some d ->
  isSpecialToken E k = false ->
  nextId (exec (replicateLexeme E k bg) s).1 = nextId s.
Proof.
  intros Hcfg Hdoc Hsp. unfold replicateLexeme.
  rewrite Hsp. destruct_state s. subst. ex. rewrite Hdoc.
  destruct bg; ex; rewrite Hdoc; ex; unfold replicateLexemeCached; ex; auto.
Qed.

Lemma getLexemesByIds_invariant cfg keys s :
  MODE E ≠ "test" -> configCache s = Some cfg ->
  Forall (fun k => isSpecialToken E k = false) keys ->
  let r := getLexemesByIds E keys s in
  configCache r.1 = Some cfg ∧
  creations (trace r.1) = creations (trace s) ++
    constructionsFor (encodeLexemeDocumentName E (tsid cfg)) (nextId s)
      (firstUncached (dom (lexemeDocs s)) keys) ∧
  dom (lexemeDocs r.1) = dom (lexemeDocs s) ∪ list_to_set keys ∧
  (forall k, k ∈ dom (lexemeDocs s) ->
     lexemeDocs r.1 !! k = lexemeDocs s !! k ∧
     lexemeIDBSynced r.1 !! k = lexemeIDBSynced s !! k) ∧
  Forall2 (fun k o => awaits (AwPromise (lexemeIDBSynced r.1 !! k)) o) keys r.2.
Proof.
  intros Hmode Hcfg Hsp. unfold getLexemesByIds. revert s Hcfg.
  induction Hsp as [|k ks Hk _ IH]; intros s Hcfg;
    cbn [fmap list_fmap concurrently firstUncached constructionsFor fst snd list_to_set].
  { rewrite app_nil_r, union_empty_r_L. repeat split; done. }
  change (exec (getLexemeById E k) s) with (exec (replicateLexeme E k false) s).
  destruct (lexemeDocs s !! k) as [d|] eqn:Hdoc.
  - destruct (replicateLexeme_cached E k false s cfg d Hcfg Hdoc Hk)
      as (Haw & Hcfg1 & Hlx & Htr).
    pose proof (replicateLexeme_cached_frame k false s cfg d Hcfg Hdoc Hk) as Hn.
    set (s1 := (exec (replicateLexeme E k false) s).1) in *.
    assert (lexemeDocs s1 = lexemeDocs s ∧ lexemeIDBSynced s1 = lexemeIDBSynced s)
      as [Hd1 Hi1].
    { unfold lexemeDocs, lexemeIDBSynced. rewrite Hlx. by destruct (lexemes s). }
    destruct (IH s1 Hcfg1) as (Hc & Hcr & Hdom & Hfr & Hall).
    rewrite decide_True by (by apply elem_of_dom).
    rewrite Hd1, Hn, Htr in *.
    assert (k ∈ dom (lexemeDocs s)) as Hin by (by apply elem_of_dom).
    split; [exact Hc|]. split; [exact Hcr|]. split.
    { rewrite Hdom. apply set_eq. intros x.
      rewrite !elem_of_union, elem_of_singleton. split; [tauto|].
      intros [?|[->|?]]; tauto. }
    split.
    { intros k0 Hk0. destruct (Hfr k0 Hk0) as [H1 H2]. by rewrite H1, H2, Hi1. }
    constructor; [|exact Hall].
    destruct (Hfr k Hin) as [_ ->]. by rewrite Hi1.
  - destruct (replicateLexeme_fresh E k false s cfg Hmode Hcfg Hdoc Hk)
      as (Haw & Hcfg1 & Hres & Htr).
    destruct (replicateLexeme_fresh_frame k false s cfg Hmode Hcfg Hdoc Hk)
      as (Hn & Hd1 & Hi1).
    set (s1 := (exec (replicateLexeme E k false) s).1) in *.
    destruct (IH s1 Hcfg1) as (Hc & Hcr & Hdom & Hfr & Hall).
    rewrite decide_False by (by apply not_elem_of_dom).
    rewrite Hd1, Hn, Htr, dom_insert_L in *.
    cbn [constructionsFor].
    split; [exact Hc|]. split; [by rewrite Hcr, <- app_assoc|]. split.
    { rewrite Hdom. apply set_eq. intros x.
      rewrite !elem_of_union, elem_of_singleton. tauto. }
    split.
    { intros k0 Hk0.
      assert (k0 ≠ k) as Hne by (intros ->; by apply not_elem_of_dom in Hdoc).
      destruct (Hfr k0) as [H1 H2]; [by apply elem_of_union_r|].
      by rewrite H1, H2, Hi1, !lookup_insert_ne. }
    constructor; [|exact Hall].
    destruct (Hfr k) as [_ ->]; [by apply elem_of_union_l, elem_of_singleton|].
    by rewrite Hi1, lookup_insert_eq.
Qed.
(** X13.  [getLexemesByIds(keys)] starts one [replicateLexeme] per key in the
    same turn.  Exactly one Y.Doc, one IndexeddbPersistence and one
    HocuspocusProvider are constructed for every distinct key that has no
    cached doc, in the order of first occurrence, and none for a key that is
    cached or repeated; afterwards every key has a cached doc, the docs that
    were cached are the same, and every call is waiting for the IndexedDB
    sync promise cached for its key. *)
Theorem getLexemesByIds_one_doc_per_key
    (s : State) (cfg : Config) (keys : list string) :
  MODE E ≠ "test" -> configCache s = Some cfg ->
  Forall (fun k => isSpecialToken E k = false) keys ->
  let r := getLexemesByIds E keys s in
  let new := firstUncached (dom (lexemeDocs s)) keys in
  creations (trace r.1) = creations (trace s) ++
    constructionsFor (encodeLexemeDocumentName E (tsid cfg)) (nextId s) new ∧
  NoDup new ∧
  (forall k, k ∈ new ↔ k ∈ keys ∧ lexemeDocs s !! k = None) ∧
  (forall k, k ∈ keys -> is_Some (lexemeDocs r.1 !! k)) ∧
  (forall k, is_Some (lexemeDocs s !! k) -> lexemeDocs r.1 !! k = lexemeDocs s !! k) ∧
  Forall2 (fun k o => awaits (AwPromise (lexemeIDBSynced r.1 !! k)) o) keys r.2.
Proof.
  intros Hmode Hcfg Hsp r new. subst r new.
  destruct (getLexemesByIds_invariant cfg keys s Hmode Hcfg Hsp)
    as (_ & Hcr & Hdom & Hfr & Hall).
  split; [exact Hcr|]. split; [apply firstUncached_NoDup|]. split.
  { intros k. by rewrite firstUncached_spec, not_elem_of_dom. }
  split.
  { intros k Hk. apply elem_of_dom. rewrite Hdom. apply elem_of_union_r.
    by apply elem_of_list_to_set. }
  split; [|exact Hall].
  intros k Hk. by apply Hfr, elem_of_dom.
Qed.

Lemma exec_bind_suspended {A B} (p : Async A) (f : A -> Async B) aw s :
  awaits aw (exec p s).2 ->
  (exec (p ≫= f) s).1 = (exec p s).1 ∧ awaits aw (exec (p ≫= f) s).2.
Proof. rewrite exec_bind. by destruct (exec p s) as [s' [a|e|aw' k]]. Qed.

Lemma exec_awaitCall_suspended {A} (p : Async A) aw s :
  awaits aw (exec p s).2 ->
  (exec (awaitCall p) s).1 = (exec p s).1 ∧ awaits aw (exec (awaitCall p) s).2.
Proof.
  unfold awaitCall. rewrite exec_andThen. by destruct (exec p s) as [s' [a|e|aw' k]].
Qed.

Lemma exec_getThoughtById id docKey aw s :
  docKeys s !! id = Some docKey -> Js.truthy docKey = true ->
  awaits aw (exec (replicateChildren E docKey defaultOptions) s).2 ->
  (exec (getThoughtById E id) s).1 = (exec (replicateChildren E docKey defaultOptions) s).1 ∧
  awaits aw (exec (getThoughtById E id) s).2.
Proof.
  intros Hdk Htruthy Haw. unfold getThoughtById.
  assert ((exec (replicateThought E id defaultOptions) s).1 =
            (exec (replicateChildren E docKey defaultOptions) s).1 ∧
          awaits aw (exec (replicateThought E id defaultOptions) s).2) as [H1 H2].
  { unfold replicateThought. rewrite exec_bind. cbn [exec get]. rewrite Hdk, Htruthy.
    destruct (exec_awaitCall_suspended _ aw s Haw) as [H1 H2].
    destruct (exec_bind_suspended (awaitCall (replicateChildren E docKey defaultOptions))
                (fun children => Ret (children ≫=
                   List.find (fun child => bool_decide (Thought.id child = id)))) aw s H2)
      as [H3 H4].
    split; [by rewrite <- H1|exact H4]. }
  destruct (exec_awaitCall_suspended _ aw s H2) as [H3 H4].
  match goal with |- context [exec (?p ≫= ?f) s] =>
    destruct (exec_bind_suspended p f aw s H4) as [H5 H6] end.
  split; [by rewrite H5, H3|exact H6].
Qed.

Lemma replicateChildren_fresh_frame k s cfg :
  MODE E ≠ "test" -> configCache s = Some cfg -> thoughtDocs s !! k = None ->
  let d := nextId s in
  let r := exec (replicateChildren E k defaultOptions) s in
  nextId r.1 = 5 + d ∧ thoughtDocs r.1 = <[k := d]> (thoughtDocs s) ∧
  thoughtIDBSynced r.1 = <[k := S (S d)]> (thoughtIDBSynced s) ∧
  docKeys r.1 = docKeys s.
Proof.
  intros Hmode Hcfg Hdoc d r. subst r d. unfold replicateChildren, defaultOptions.
  destruct_state s. subst. ex. rewrite Hdoc. ex.
  rewrite Hdoc, (bool_decide_eq_false_2 _ Hmode). ex.
  unfold replicateChildrenFresh. ex. auto.
Qed.

Lemma replicateChildren_cached_frame k s cfg d :
  configCache s = Some cfg -> thoughtDocs s !! k = Some d ->
  let r := exec (replicateChildren E k defaultOptions) s in
  nextId r.1 = nextId s ∧ docKeys r.1 = docKeys s.
Proof.
  intros Hcfg Hdoc r. subst r. unfold replicateChildren, defaultOptions.
  destruct_state s. subst. ex. rewrite Hdoc. ex. rewrite Hdoc. ex.
  unfold replicateChildrenCached. ex. auto.
Qed.

Lemma getThoughtsByIds_invariant cfg ids keys s :
  MODE E ≠ "test" -> configCache s = Some cfg ->
  Forall2 (fun id k => docKeys s !! id = Some k ∧ Js.truthy k = true) ids keys ->
  let r := getThoughtsByIds E ids s in
  configCache r.1 = Some cfg ∧ docKeys r.1 = docKeys s ∧
  creations (trace r.1) = creations (trace s) ++
    constructionsFor (encodeThoughtDocumentName E (tsid cfg)) (nextId s)
      (firstUncached (dom (thoughtDocs s)) keys) ∧
  dom (thoughtDocs r.1) = dom (thoughtDocs s) ∪ list_to_set keys ∧
  (forall k, k ∈ dom (thoughtDocs s) ->
     thoughtDocs r.1 !! k = thoughtDocs s !! k ∧
     thoughtIDBSynced r.1 !! k = thoughtIDBSynced s !! k) ∧
  Forall2 (fun k o => awaits (AwPromise (thoughtIDBSynced r.1 !! k)) o) keys r.2.
Proof.
  intros Hmode Hcfg Hdk. unfold getThoughtsByIds. revert s Hcfg Hdk.
  induction keys as [|k ks IH] in ids |- *; intros s Hcfg Hdk;
    inversion Hdk as [|id ? ids' ? [Hid Htruthy] Hrest]; subst;
    cbn [fmap list_fmap concurrently firstUncached constructionsFor fst snd list_to_set].
  { rewrite app_nil_r, union_empty_r_L. repeat split; done. }
  destruct (thoughtDocs s !! k) as [d|] eqn:Hdoc.
  - destruct (replicateChildren_cached E k defaultOptions s cfg d Hcfg Hdoc)
      as (Haw & Hcfg1 & Hth & Htr).
    destruct (replicateChildren_cached_frame k s cfg d Hcfg Hdoc) as [Hn Hdk1].
    destruct (exec_getThoughtById id k _ s Hid Htruthy Haw) as [Hs1 Haw1].
    cbn [defaultOptions background remote onDoc andb] in Htr, Haw1.
    rewrite app_nil_r in Htr. rewrite <- Hs1 in *.
    set (s1 := (exec (getThoughtById E id) s).1) in *.
    assert (thoughtDocs s1 = thoughtDocs s ∧ thoughtIDBSynced s1 = thoughtIDBSynced s)
      as [Hd1 Hi1].
    { unfold thoughtDocs, thoughtIDBSynced. rewrite Hth. by destruct (thoughts s). }
    destruct (IH ids' s1 Hcfg1) as (Hc & Hk & Hcr & Hdom & Hfr & Hall).
    { by rewrite Hdk1. }
    rewrite decide_True by (by apply elem_of_dom).
    rewrite Hd1, Hn, Htr in *.
    assert (k ∈ dom (thoughtDocs s)) as Hin by (by apply elem_of_dom).
    split; [exact Hc|]. split; [by rewrite Hk|]. split; [exact Hcr|]. split.
    { rewrite Hdom. apply set_eq. intros x.
      rewrite !elem_of_union, elem_of_singleton. split; [tauto|].
      intros [?|[->|?]]; tauto. }
    split.
    { intros k0 Hk0. destruct (Hfr k0 Hk0) as [H1 H2]. by rewrite H1, H2, Hi1. }
    constructor; [|exact Hall].
    destruct (Hfr k Hin) as [_ ->]. by rewrite Hi1.
  - destruct (replicateChildren_fresh E k defaultOptions s cfg Hmode Hcfg Hdoc eq_refl)
      as (Haw & Hcfg1 & Hres & Htr).
    destruct (replicateChildren_fresh_frame k s cfg Hmode Hcfg Hdoc)
      as (Hn & Hd1 & Hi1 & Hdk1).
    destruct (exec_getThoughtById id k _ s Hid Htruthy Haw) as [Hs1 Haw1].
    rewrite <- Hs1 in *.
    set (s1 := (exec (getThoughtById E id) s).1) in *.
    destruct (IH ids' s1 Hcfg1) as (Hc & Hk & Hcr & Hdom & Hfr & Hall).
    { by rewrite Hdk1. }
    rewrite decide_False by (by apply not_elem_of_dom).
    rewrite Hd1, Hn, Htr, dom_insert_L in *.
    cbn [constructionsFor].
    assert (forall k0, k0 ∈ dom (thoughtDocs s) -> k0 ≠ k) as Hother
      by (intros k0 Hk0 ->; by apply not_elem_of_dom in Hdoc).
    split; [exact Hc|]. split; [by rewrite Hk|].
    split; [by rewrite Hcr, <- app_assoc|]. split.
    { rewrite Hdom. apply set_eq. intros x.
      rewrite !elem_of_union, elem_of_singleton. tauto. }
    split.
    { intros k0 Hk0. pose proof (Hother k0 Hk0) as Hne.
      destruct (Hfr k0) as [H1 H2]; [by apply elem_of_union_r|].
      by rewrite H1, H2, Hi1, !lookup_insert_ne. }
    constructor; [|exact Hall].
    destruct (Hfr k) as [_ ->]; [by apply elem_of_union_l, elem_of_singleton|].
    by rewrite Hi1, lookup_insert_eq.
Qed.

(** X14.  [getThoughtsByIds(ids)] starts one [replicateThought] per id in the
    same turn; the thoughts of one parent live in one doc.  When the docKey
    of every id is known, exactly one Y.Doc, one IndexeddbPersistence and
    one HocuspocusProvider are constructed for every distinct docKey that
    has no cached doc, in the order of first occurrence, and none for a
    docKey that is cached or shared with an earlier id; the Document Key
    Index is as it was, and every call is waiting for the IndexedDB sync
    promise cached for the docKey of its id. *)
Theorem getThoughtsByIds_one_doc_per_parent
    (s : State) (cfg : Config) (ids keys : list string) :
  MODE E ≠ "test" -> configCache s = Some cfg ->
  Forall2 (fun id k => docKeys s !! id = Some k ∧ Js.truthy k = true) ids keys ->
  let r := getThoughtsByIds E ids s in
  let new := firstUncached (dom (thoughtDocs s)) keys in
  creations (trace r.1) = creations (trace s) ++
    constructionsFor (encodeThoughtDocumentName E (tsid cfg)) (nextId s) new ∧
  NoDup new ∧
  (forall k, k ∈ new ↔ k ∈ keys ∧ thoughtDocs s !! k = None) ∧
  (forall k, k ∈ keys -> is_Some (thoughtDocs r.1 !! k)) ∧
  (forall k, is_Some (thoughtDocs s !! k) -> thoughtDocs r.1 !! k = thoughtDocs s !! k) ∧
  docKeys r.1 = docKeys s ∧
  Forall2 (fun k o => awaits (AwPromise (thoughtIDBSynced r.1 !! k)) o) keys r.2.
Proof.
  intros Hmode Hcfg Hdk r new. subst r new.
  destruct (getThoughtsByIds_invariant cfg ids keys s Hmode Hcfg Hdk)
    as (_ & Hk & Hcr & Hdom & Hfr & Hall).
  split; [exact Hcr|]. split; [apply firstUncached_NoDup|]. split.
  { intros k. by rewrite firstUncached_spec, not_elem_of_dom. }
  split.
  { intros k Hin. apply elem_of_dom. rewrite Hdom. apply elem_of_union_r.
    by apply elem_of_list_to_set. }
  split; [|split; [exact Hk|exact Hall]].
  intros k Hin. by apply Hfr, elem_of_dom.
Qed.
End BatchedReads.

(** ** Reading a resident thought *)

Lemma find_getThought (d : YDoc) (keys : list string) (id : string) :
  id ∈ keys ∨ getThought (Some d) id = None ->
  List.find (fun child => bool_decide (Thought.id child = id))
    (omap (getThought (Some d)) keys) = getThought (Some d) id.
Proof.
  induction keys as [|k keys IH]; intros Hin; cbn [omap list_omap List.find].
  { destruct Hin as [Hin|Hnone]; [by apply elem_of_nil in Hin|done]. }
  destruct (getThought (Some d) k) as [t|] eqn:Hk.
  - cbn [List.find]. pose proof (getThought_id _ _ _ Hk) as Hid.
    destruct (decide (k = id)) as [->|Hne].
    + by rewrite bool_decide_eq_true_2.
    + rewrite bool_decide_eq_false_2 by congruence. apply IH.
      destruct Hin as [Hin|Hnone]; [|by right]. left.
      apply elem_of_cons in Hin as [->|Hin]; done.
  - apply IH. destruct Hin as [Hin|Hnone]; [|by right].
    apply elem_of_cons in Hin as [->|Hin]; [by right|by left].
Qed.

Lemma find_child (d : YDoc) (id : string) :
  List.find (fun child => bool_decide (Thought.id child = id))
    (omap (getThought (Some d)) (YMap.keys (childrenYMap d))) = getThought (Some d) id.
Proof.
  apply find_getThought.
  destruct (getThought (Some d) id) as [t|] eqn:Ht; [left|by right].
  unfold getThought in Ht.
  destruct (YMap.get id (childrenYMap d)) as [tm|] eqn:Hget; [|done].
  by eapply YMap_get_keys.
Qed.

Lemma writeDocKeys_same_value (kvs : list (string * string)) (dk : gmap string string)
    (id v : string) :
  dk !! id = Some v -> (forall v', (id, v') ∈ kvs -> v' = v) ->
  writeDocKeys kvs dk !! id = Some v.
Proof.
  revert dk. unfold writeDocKeys.
  induction kvs as [|[k v'] kvs IH]; intros dk Hdk Hsame; cbn [foldl]; [done|].
  apply IH.
  - cbn. destruct (decide (k = id)) as [->|Hne].
    + rewrite lookup_insert_eq. f_equal. apply Hsame. left.
    + by rewrite lookup_insert_ne.
  - intros v0 Hin. apply Hsame. by right.
Qed.

Section ReadResident.
Context (E : Env).

Lemma run_replicateChildren_resident oracle docKey cfg doc d s :
  (forall aw, oracle aw = Fulfilled) -> configCache s = Some cfg ->
  thoughtDocs s !! docKey = Some doc -> docHeap s !! doc = Some d -> wfDoc d ->
  run oracle (replicateChildren E docKey defaultOptions) s =
    (with_docKeys (writeDocKeys (docKeyWrites docKey (default [] (getChildren (Some d)))))
       (with_thoughts (with_retained (fun r => {[docKey]} ∪ r)) s),
     inl (getChildren (Some d))).
Proof.
  intros Hor Hcfg Hdoc Hd Hwf. unfold replicateChildren, defaultOptions.
  rewrite run_bind. cbn [run get]. rewrite Hcfg. cbn [isUndefined when].
  rewrite run_bind. cbn [run]. unfold readConfig. rewrite !run_bind. cbn [run get].
  rewrite Hcfg. cbn [run]. rewrite run_bind. cbn [run gets]. rewrite Hdoc.
  cbn [from_option]. rewrite run_bind. cbn [run onDoc when].
  rewrite run_bind. cbn [run]. rewrite run_bind.
  cbn [background negb when modify run]. rewrite run_bind. cbn [run gets].
  set (s1 := with_thoughts (with_retained (fun r => {[docKey]} ∪ r)) s).
  assert (thoughtDocs s1 !! docKey = Some doc ∧ docHeap s1 !! doc = Some d ∧
          thoughtIDBSynced s1 = thoughtIDBSynced s) as (Hdoc1 & Hd1 & Hidb)
    by (subst s1; by destruct_state s).
  rewrite Hdoc1. cbn [isUndefined negb orb].
  unfold replicateChildrenCached. cbn [background remote andb].
  rewrite !run_bind. cbn [run gets await]. rewrite Hor. cbn [run].
  rewrite run_bind. cbn [run get]. rewrite Hd1, run_bind.
  destruct (getChildren (Some d)) as [children|] eqn:Hch.
  - assert (Forall (fun child => is_Some (Thought.childrenMap child)) children) as Hwf'
      by (unfold wfDoc in Hwf; by rewrite Hch in Hwf).
    by rewrite (run_exec_done oracle _ _ _ _ (exec_setChildrenDocKeys docKey children s1 Hwf')).
  - unfold setChildrenDocKeys. cbn [default forEach run docKeyWrites mbind list_bind].
    by rewrite with_docKeys_id.
Qed.

Lemma run_awaitCall_done {A} oracle (p : Async A) s s' a :
  run oracle p s = (s', inl a) -> run oracle (awaitCall p) s = (s', inl a).
Proof. intros H. unfold awaitCall. by rewrite run_andThen, H. Qed.

(** X15.  Reading a thought whose parent doc is resident.  When the docKey
    of [id] is known, its doc is cached and holds well-formed children, and
    [id] is not the id of a grandchild in that doc, [getThoughtById(id)]
    resolves to what [getThought] finds for [id] in the doc, and
    [replicateThought(id)] resolves to the same thought when the doc has a
    docKey and to [undefined] otherwise.  The read retains the docKey,
    writes the docKeys of the children and grandchildren of the doc, keeps
    the docKey of [id], and constructs and destroys nothing. *)
Theorem read_resident_thought
    (s : State) (cfg : Config) (id docKey : string) (doc : nat) (d : YDoc)
    (oracle : Awaited -> Settled) :
  (forall aw, oracle aw = Fulfilled) -> configCache s = Some cfg ->
  docKeys s !! id = Some docKey -> Js.truthy docKey = true ->
  thoughtDocs s !! docKey = Some doc -> docHeap s !! doc = Some d -> wfDoc d ->
  (forall child m, child ∈ default [] (getChildren (Some d)) ->
     Thought.childrenMap child = Some m -> id ∉ m.*2) ->
  let read := run oracle (getThoughtById E id) s in
  let replicated := run oracle (replicateThought E id defaultOptions) s in
  read.2 = inl (getThought (Some d) id) ∧
  replicated.2 = inl (if YMap.has "docKey" (thoughtMap d) then getThought (Some d) id
                      else None) ∧
  read.1 = replicated.1 ∧
  read.1 = with_docKeys (fun _ => docKeys read.1)
             (with_thoughts (with_retained (fun r => {[docKey]} ∪ r)) s) ∧
  docKeys read.1 =
    writeDocKeys (docKeyWrites docKey (default [] (getChildren (Some d)))) (docKeys s) ∧
  docKeys read.1 !! id = Some docKey.
Proof.
  intros Hor Hcfg Hid Htruthy Hdoc Hd Hwf Hgrand read replicated.
  set (W := docKeyWrites docKey (default [] (getChildren (Some d)))).
  set (s' := with_docKeys (writeDocKeys W)
               (with_thoughts (with_retained (fun r => {[docKey]} ∪ r)) s)).
  assert (run oracle (replicateThought E id defaultOptions) s =
            (s', inl (getChildren (Some d) ≫=
                        List.find (fun child => bool_decide (Thought.id child = id)))))
    as Hrep.
  { unfold replicateThought. rewrite run_bind. cbn [run get]. rewrite Hid, Htruthy.
    rewrite run_bind.
    rewrite (run_awaitCall_done oracle _ s s' (getChildren (Some d)))
      by (by apply run_replicateChildren_resident with cfg doc).
    done. }
  assert (docKeys s' = writeDocKeys W (docKeys s) ∧ thoughtDocs s' = thoughtDocs s ∧
          docHeap s' = docHeap s ∧
          s' = with_docKeys (fun _ => docKeys s')
                 (with_thoughts (with_retained (fun r => {[docKey]} ∪ r)) s))
    as (Hdk' & Hdocs' & Hheap' & Hs').
  { subst s'. by destruct_state s. }
  assert (docKeys s' !! id = Some docKey) as Hid'.
  { rewrite Hdk'. apply writeDocKeys_same_value; [exact Hid|].
    intros v' Hin. subst W. unfold docKeyWrites in Hin.
    apply list_elem_of_bind in Hin as (child & Hin & Hchild).
    unfold childDocKeys in Hin. apply elem_of_cons in Hin as [[= _ ->]|Hin]; [done|].
    destruct (Thought.childrenMap child) as [m|] eqn:Hm; [|by apply elem_of_nil in Hin].
    apply list_elem_of_fmap in Hin as ([k g] & [= -> ->] & Hkv).
    destruct (Hgrand child m Hchild Hm). apply list_elem_of_fmap. by exists (k, g). }
  assert (read = (s', inl (getThought (Some d) id))) as ->.
  { subst read. unfold getThoughtById. rewrite run_bind.
    rewrite (run_awaitCall_done oracle _ s s' _ Hrep). rewrite run_bind. cbn [run get].
    by rewrite Hid', Hdocs', Hdoc, Hheap'; cbn [mbind option_bind]; rewrite Hd. }
  subst replicated. rewrite Hrep. cbn [fst snd].
  split; [done|]. split.
  { f_equal. unfold getChildren. destruct (YMap.has "docKey" (thoughtMap d)); [|done].
    cbn [negb mbind option_bind]. apply find_child. }
  done.
Qed.
End ReadResident.

(** ** Updating a stored Lexeme *)

Lemma YMap_get_set_eq {V} k (v : V) (m : YMap.t V) : YMap.get k (YMap.set k v m) = Some v.
Proof.
  induction m as [|[k' v'] m IH]; cbn [YMap.set YMap.get].
  { by rewrite decide_True. }
  destruct (decide (k = k')) as [->|Hne]; cbn [YMap.get].
  - by rewrite decide_True.
  - by rewrite decide_False.
Qed.

Lemma YMap_get_set_ne {V} k k' (v : V) (m : YMap.t V) :
  k ≠ k' -> YMap.get k (YMap.set k' v m) = YMap.get k m.
Proof.
  intros Hne. induction m as [|[k0 v0] m IH]; cbn [YMap.set YMap.get].
  { by rewrite decide_False. }
  destruct (decide (k' = k0)) as [->|Hne0]; cbn [YMap.get].
  - by rewrite !decide_False.
  - destruct (decide (k = k0)); [done|exact IH].
Qed.

Lemma YMap_get_delete_ne {V} k k' (m : YMap.t V) :
  k ≠ k' -> YMap.get k (YMap.delete k' m) = YMap.get k m.
Proof.
  intros Hne. induction m as [|[k0 v0] m IH]; cbn [YMap.delete YMap.get]; [done|].
  destruct (decide (k' = k0)) as [->|Hne0]; cbn [YMap.get].
  - by rewrite !decide_False.
  - destruct (decide (k = k0)); [done|exact IH].
Qed.

Lemma YMap_set_slots {V} k (v : V) (m : YMap.t V) :
  (YMap.set k v m).*1 = if decide (k ∈ m.*1) then m.*1 else m.*1 ++ [k].
Proof.
  induction m as [|[k' v'] m IH]; cbn [YMap.set fmap list_fmap fst].
  { by rewrite decide_False by apply not_elem_of_nil. }
  destruct (decide (k = k')) as [->|Hne]; cbn [fmap list_fmap fst].
  - by rewrite decide_True by left.
  - rewrite IH. destruct (decide (k ∈ m.*1)) as [Hin|Hin].
    + by rewrite decide_True by (by right).
    + by rewrite decide_False by (rewrite not_elem_of_cons; tauto).
Qed.

Lemma YMap_delete_slots {V} k (m : YMap.t V) : (YMap.delete k m).*1 = m.*1.
Proof.
  induction m as [|[k' v'] m IH]; cbn [YMap.delete fmap list_fmap fst]; [done|].
  destruct (decide (k = k')); cbn [fmap list_fmap fst]; [done|]. by rewrite IH.
Qed.

Lemma YMap_set_NoDup {V} k (v : V) (m : YMap.t V) :
  NoDup m.*1 -> NoDup (YMap.set k v m).*1.
Proof.
  intros Hnd. rewrite YMap_set_slots. destruct (decide (k ∈ m.*1)); [done|].
  apply NoDup_app. split; [done|]. split; [|apply NoDup_singleton].
  intros x Hx ->%list_elem_of_singleton. done.
Qed.

Lemma YMap_delete_NoDup {V} k (m : YMap.t V) :
  NoDup m.*1 -> NoDup (YMap.delete k m).*1.
Proof. by rewrite YMap_delete_slots. Qed.

Lemma YMap_keys_get {V} (k : string) (m : YMap.t V) :
  NoDup m.*1 -> k ∈ YMap.keys m ↔ is_Some (YMap.get k m).
Proof.
  intros Hnd. split; [|intros [v Hv]; by eapply YMap_get_keys].
  unfold YMap.keys. induction m as [|[k' v'] m IH]; cbn [YMap.entries YMap.get].
  { by intros ?%elem_of_nil. }
  apply NoDup_cons in Hnd as [Hk' Hnd]. cbn [fst] in Hk'.
  assert (forall m0 : YMap.t V, k ∈ (YMap.entries m0).*1 -> k ∈ m0.*1) as Hsub.
  { clear. intros m0. induction m0 as [|[k0 [v0|]] m0 IH]; cbn; [done| |].
    - rewrite !elem_of_cons. tauto.
    - rewrite elem_of_cons. tauto. }
  destruct (decide (k = k')) as [->|Hne].
  - destruct v' as [v|]; [by eexists|]. intros Hin. destruct Hk'. by apply Hsub.
  - destruct v' as [v|]; cbn [fmap list_fmap fst]; [|by apply IH].
    rewrite elem_of_cons. intros [?|Hin]; [done|]. by apply IH.
Qed.

Lemma YMap_keys_NoDup {V} (m : YMap.t V) : NoDup m.*1 -> NoDup (YMap.keys m).
Proof.
  unfold YMap.keys. induction m as [|[k [v|]] m IH]; cbn [YMap.entries fmap list_fmap fst];
    intros Hnd; [constructor| |]; apply NoDup_cons in Hnd as [Hk Hnd]; [|by apply IH].
  constructor; [|by apply IH]. intros Hin. apply Hk. clear -Hin.
  induction m as [|[k0 [v0|]] m IH]; cbn in *; [done| |].
  - apply elem_of_cons in Hin as [->|Hin]; [left|right; by apply IH].
  - right. by apply IH.
Qed.



Lemma exec_addContext_diff doc d0 m contextsOld c s :
  c ∈ contextsOld ∨ from_option Js.truthy false (docKeys s !! c) = true ->
  exec (addContext doc contextsOld c) (withLexemeMap doc d0 m s) =
    (withLexemeMap doc d0
       (if bool_decide (c ∈ contextsOld) then m
        else YMap.set ("cx-" +:+ c) (default "" (docKeys s !! c)) m) s, Done tt).
Proof.
  intros Hc. unfold addContext. destruct (bool_decide (c ∈ contextsOld)) eqn:Hin; [done|].
  destruct Hc as [Hc|Hdk]; [by apply bool_decide_eq_false_1 in Hin|].
  destruct (docKeys s !! c) as [docKey|] eqn:Hl; [|done]. cbn in Hdk.
  destruct_state s. unfold withLexemeMap. ex. rewrite Hl, Hdk. ex.
  st. by rewrite alter_insert_eq.
Qed.

Lemma exec_removeContext_diff doc d0 m contextsNew c s :
  exec (removeContext doc contextsNew c) (withLexemeMap doc d0 m s) =
    (withLexemeMap doc d0
       (if bool_decide (c ∈ contextsNew) then m else YMap.delete ("cx-" +:+ c) m) s,
     Done tt).
Proof.
  unfold removeContext. destruct (bool_decide (c ∈ contextsNew)); [done|].
  destruct_state s. unfold withLexemeMap. ex. st. by rewrite alter_insert_eq.
Qed.

Lemma exec_setLexemeField_diff doc d0 m l k s :
  YMap.get (lexemeKeyName k) m = None ->
  exec (setLexemeField doc l k) (withLexemeMap doc d0 m s) =
    (withLexemeMap doc d0
       (match lexemeField l k with
        | Some v => YMap.set (lexemeKeyToDb k) v m
        | None => m
        end) s, Done tt).
Proof.
  intros Hk. destruct_state s. unfold setLexemeField, withLexemeMap. ex.
  rewrite lookup_insert_eq. cbn [mbind option_bind setLexemeMap lexemeMap].
  rewrite Hk. destruct (lexemeField l k) as [v|]; [|done].
  rewrite bool_decide_eq_true_2 by done. ex. st. by rewrite alter_insert_eq.
Qed.

Lemma withLexemeMap_docKeys doc d0 m s : docKeys (withLexemeMap doc d0 m s) = docKeys s.
Proof. by destruct_state s. Qed.

Lemma exec_addContexts_diff doc d0 contextsOld cs m s :
  Forall (fun c => c ∈ contextsOld ∨ from_option Js.truthy false (docKeys s !! c) = true)
    cs ->
  exec (forEach cs (addContext doc contextsOld)) (withLexemeMap doc d0 m s) =
    (withLexemeMap doc d0
       (foldl (fun m c => if bool_decide (c ∈ contextsOld) then m
                          else YMap.set ("cx-" +:+ c) (default "" (docKeys s !! c)) m)
          m cs) s, Done tt).
Proof.
  intros Hcs. revert m. induction Hcs as [|c cs Hc _ IH]; intros m; cbn [forEach foldl].
  { reflexivity. }
  unfold bind. rewrite exec_andThen, exec_addContext_diff by done. apply IH.
Qed.

Lemma exec_removeContexts_diff doc d0 contextsNew cs m s :
  exec (forEach cs (removeContext doc contextsNew)) (withLexemeMap doc d0 m s) =
    (withLexemeMap doc d0
       (foldl (fun m c => if bool_decide (c ∈ contextsNew) then m
                          else YMap.delete ("cx-" +:+ c) m) m cs) s, Done tt).
Proof.
  revert m. induction cs as [|c cs IH]; intros m; cbn [forEach foldl].
  { reflexivity. }
  unfold bind. rewrite exec_andThen, exec_removeContext_diff. apply IH.
Qed.

(** The names of the Lexeme properties are not keys that the transaction
    writes. *)
Lemma get_name_added (name : string) (dk : gmap string string) (contextsOld cs : list string)
    (m : YMap.t string) :
  (forall c, name ≠ "cx-" +:+ c) ->
  YMap.get name
    (foldl (fun m c => if bool_decide (c ∈ contextsOld) then m
                       else YMap.set ("cx-" +:+ c) (default "" (dk !! c)) m) m cs) =
  YMap.get name m.
Proof.
  intros Hname. revert m. induction cs as [|c cs IH]; intros m; cbn [foldl]; [done|].
  rewrite IH. destruct (bool_decide (c ∈ contextsOld)); [done|].
  by apply YMap_get_set_ne.
Qed.

Lemma get_name_removed (name : string) (contextsNew cs : list string) (m : YMap.t string) :
  (forall c, name ≠ "cx-" +:+ c) ->
  YMap.get name
    (foldl (fun m c => if bool_decide (c ∈ contextsNew) then m
                       else YMap.delete ("cx-" +:+ c) m) m cs) =
  YMap.get name m.
Proof.
  intros Hname. revert m. induction cs as [|c cs IH]; intros m; cbn [foldl]; [done|].
  rewrite IH. destruct (bool_decide (c ∈ contextsNew)); [done|].
  by apply YMap_get_delete_ne.
Qed.

Lemma context_key_inj (a b : string) : "cx-" +:+ a = "cx-" +:+ b -> a = b.
Proof. rewrite !string_app_cons, !string_app_nil_l. by intros [= ->]. Qed.

Lemma get_context_added (dk : gmap string string) (contextsOld cs : list string)
    (m : YMap.t string) (c : string) :
  YMap.get ("cx-" +:+ c)
    (foldl (fun m c => if bool_decide (c ∈ contextsOld) then m
                       else YMap.set ("cx-" +:+ c) (default "" (dk !! c)) m) m cs) =
  if bool_decide (c ∈ cs ∧ c ∉ contextsOld) then Some (default "" (dk !! c))
  else YMap.get ("cx-" +:+ c) m.
Proof.
  revert m. induction cs as [|a cs IH]; intros m; cbn [foldl].
  { rewrite bool_decide_eq_false_2; [done|]. by intros [?%elem_of_nil _]. }
  rewrite IH. destruct (decide (c ∈ cs ∧ c ∉ contextsOld)) as [[Hin Hold]|Hno].
  { rewrite !bool_decide_eq_true_2; [done| |done]. split; [by right|done]. }
  rewrite (bool_decide_eq_false_2 _ Hno).
  destruct (decide (a ∈ contextsOld)) as [Ha|Ha].
  - rewrite (bool_decide_eq_true_2 _ Ha). rewrite bool_decide_eq_false_2; [done|].
    intros [[->|?]%elem_of_cons ?]; tauto.
  - rewrite (bool_decide_eq_false_2 _ Ha). destruct (decide (c = a)) as [->|Hne].
    + rewrite YMap_get_set_eq, bool_decide_eq_true_2; [done|]. split; [left|done].
    + rewrite YMap_get_set_ne by (by intros ?%context_key_inj).
      rewrite bool_decide_eq_false_2; [done|].
      intros [[->|?]%elem_of_cons ?]; tauto.
Qed.

Lemma get_context_removed (contextsNew cs : list string) (m : YMap.t string) (c : string) :
  YMap.get ("cx-" +:+ c)
    (foldl (fun m c => if bool_decide (c ∈ contextsNew) then m
                       else YMap.delete ("cx-" +:+ c) m) m cs) =
  if bool_decide (c ∈ cs ∧ c ∉ contextsNew) then None else YMap.get ("cx-" +:+ c) m.
Proof.
  revert m. induction cs as [|a cs IH]; intros m; cbn [foldl].
  { rewrite bool_decide_eq_false_2; [done|]. by intros [?%elem_of_nil _]. }
  rewrite IH. destruct (decide (c ∈ cs ∧ c ∉ contextsNew)) as [[Hin Hnew]|Hno].
  { rewrite !bool_decide_eq_true_2; [done| |done]. split; [by right|done]. }
  rewrite (bool_decide_eq_false_2 _ Hno).
  destruct (decide (a ∈ contextsNew)) as [Ha|Ha].
  - rewrite (bool_decide_eq_true_2 _ Ha). rewrite bool_decide_eq_false_2; [done|].
    intros [[->|?]%elem_of_cons ?]; tauto.
  - rewrite (bool_decide_eq_false_2 _ Ha). destruct (decide (c = a)) as [->|Hne].
    + rewrite YMap_get_delete, bool_decide_eq_true_2; [done|]. split; [left|done].
    + rewrite YMap_get_delete_ne by (by intros ?%context_key_inj).
      rewrite bool_decide_eq_false_2; [done|].
      intros [[->|?]%elem_of_cons ?]; tauto.
Qed.

Lemma get_fields (l : Lexeme.t) (m : YMap.t string) (k : string) :
  YMap.get k
    (foldl (fun m f => match lexemeField l f with
                       | Some v => YMap.set (lexemeKeyToDb f) v m
                       | None => m
                       end) m [KCreated; KLastUpdated; KUpdatedBy]) =
  if decide (k = "c") then from_option Some (YMap.get k m) (Lexeme.created l)
  else if decide (k = "l") then from_option Some (YMap.get k m) (Lexeme.lastUpdated l)
  else if decide (k = "u") then from_option Some (YMap.get k m) (Lexeme.updatedBy l)
  else YMap.get k m.
Proof.
  cbn [foldl lexemeField lexemeKeyToDb].
  destruct l as [cs [c|] [lu|] [u|]];
    cbn [Lexeme.created Lexeme.lastUpdated Lexeme.updatedBy from_option];
    (destruct (decide (k = "c")) as [->|H1];
     [by rewrite ?(YMap_get_set_ne "c" "u"), ?(YMap_get_set_ne "c" "l"), ?YMap_get_set_eq|]);
    (destruct (decide (k = "l")) as [->|H2];
     [by rewrite ?(YMap_get_set_ne "l" "u"), ?YMap_get_set_eq,
                 ?(YMap_get_set_ne "l" "c")|]);
    (destruct (decide (k = "u")) as [->|H3];
     [by rewrite ?YMap_get_set_eq, ?(YMap_get_set_ne "u" "l"), ?(YMap_get_set_ne "u" "c")|]);
    by rewrite ?YMap_get_set_ne.
Qed.

Lemma updatedLexemeMap_NoDup dk lexemeNew lexemeOld (m : YMap.t string) :
  NoDup m.*1 -> NoDup (updatedLexemeMap dk lexemeNew lexemeOld m).*1.
Proof.
  intros Hnd. unfold updatedLexemeMap. cbn zeta.
  assert (forall (m : YMap.t string),
    NoDup m.*1 ->
    NoDup (foldl (fun m c => if bool_decide (c ∈ Lexeme.contexts lexemeOld) then m
              else YMap.set ("cx-" +:+ c) (default "" (dk !! c)) m) m
             (Lexeme.contexts lexemeNew)).*1) as Hadd.
  { clear. induction (Lexeme.contexts lexemeNew) as [|c cs IH]; intros m Hm; cbn [foldl];
      [done|]. apply IH. destruct (bool_decide _); [done|by apply YMap_set_NoDup]. }
  assert (forall (m : YMap.t string),
    NoDup m.*1 ->
    NoDup (foldl (fun m c => if bool_decide (c ∈ Lexeme.contexts lexemeNew) then m
              else YMap.delete ("cx-" +:+ c) m) m (Lexeme.contexts lexemeOld)).*1) as Hrem.
  { clear. induction (Lexeme.contexts lexemeOld) as [|c cs IH]; intros m Hm; cbn [foldl];
      [done|]. apply IH. destruct (bool_decide _); [done|by apply YMap_delete_NoDup]. }
  cbn [foldl]. repeat (destruct (lexemeField lexemeNew _); [apply YMap_set_NoDup|]); auto.
Qed.

Lemma key_cases (p k : string) : (exists c, k = p +:+ c) ∨ (forall c, k ≠ p +:+ c).
Proof.
  revert k. induction p as [|a p IH]; intros k.
  { left. by exists k. }
  destruct k as [|b k].
  { right. intros c. by rewrite string_app_cons. }
  destruct (decide (a = b)) as [->|Hne].
  - destruct (IH k) as [[c ->]|Hno].
    + left. by exists c.
    + right. intros c. rewrite string_app_cons. intros [= ->]. by apply (Hno c).
  - right. intros c. rewrite string_app_cons. by intros [= ->].
Qed.

Lemma context_key_not_field (c : string) :
  "cx-" +:+ c ≠ "c" ∧ "cx-" +:+ c ≠ "l" ∧ "cx-" +:+ c ≠ "u".
Proof. rewrite !string_app_cons. by repeat split. Qed.

Lemma updatedLexemeMap_get_context dk lexemeNew lexemeOld (m : YMap.t string) (c : string) :
  YMap.get ("cx-" +:+ c) (updatedLexemeMap dk lexemeNew lexemeOld m) =
    if bool_decide (c ∈ Lexeme.contexts lexemeOld ∧ c ∉ Lexeme.contexts lexemeNew) then None
    else if bool_decide (c ∈ Lexeme.contexts lexemeNew ∧ c ∉ Lexeme.contexts lexemeOld)
         then Some (default "" (dk !! c))
         else YMap.get ("cx-" +:+ c) m.
Proof.
  unfold updatedLexemeMap. cbn zeta. rewrite get_fields.
  destruct (context_key_not_field c) as (H1 & H2 & H3).
  rewrite !decide_False by done.
  by rewrite get_context_removed, get_context_added.
Qed.

Lemma updatedLexemeMap_get_other dk lexemeNew lexemeOld (m : YMap.t string) (k : string) :
  (forall c, k ≠ "cx-" +:+ c) ->
  YMap.get k (updatedLexemeMap dk lexemeNew lexemeOld m) =
    if decide (k = "c") then from_option Some (YMap.get k m) (Lexeme.created lexemeNew)
    else if decide (k = "l") then from_option Some (YMap.get k m) (Lexeme.lastUpdated lexemeNew)
    else if decide (k = "u") then from_option Some (YMap.get k m) (Lexeme.updatedBy lexemeNew)
    else YMap.get k m.
Proof.
  intros Hk. unfold updatedLexemeMap. cbn zeta.
  by rewrite get_fields, get_name_removed, get_name_added.
Qed.

Lemma NoDup_omap_inj {A B} (f : A -> option B) (l : list A) :
  NoDup l ->
  (forall x y z, x ∈ l -> y ∈ l -> f x = Some z -> f y = Some z -> x = y) ->
  NoDup (omap f l).
Proof.
  induction 1 as [|x l Hx Hnd IH]; intros Hinj; cbn [omap list_omap]; [constructor|].
  assert (NoDup (omap f l)) as IH'.
  { apply IH. intros a b z Ha Hb. apply Hinj; by right. }
  destruct (f x) as [z|] eqn:Hfx; [|done]. constructor; [|done].
  intros (y & Hy & Hfy)%list_elem_of_omap.
  assert (x = y) as <- by (apply (Hinj x y z); [left|by right|done|done]). done.
Qed.

Lemma storedContexts_elem (m : YMap.t string) (c : string) :
  NoDup m.*1 -> codecKeys m ->
  c ∈ storedContexts m ↔
    is_Some (YMap.get ("cx-" +:+ c) m) ∧ cxidOfKey ("cx-" +:+ c) = Some c.
Proof.
  intros Hnd Hcodec. unfold storedContexts. rewrite list_elem_of_omap. split.
  - intros (k & Hk & Hc). apply YMap_keys_get in Hk; [|done].
    pose proof (Hcodec k c Hk Hc) as ->. done.
  - intros [Hlive Hc]. exists ("cx-" +:+ c). split; [|done]. by apply YMap_keys_get.
Qed.

Lemma storedContexts_NoDup (m : YMap.t string) :
  NoDup m.*1 -> codecKeys m -> NoDup (storedContexts m).
Proof.
  intros Hnd Hcodec. apply NoDup_omap_inj; [by apply YMap_keys_NoDup|].
  intros x y z Hx Hy Hfx Hfy. apply YMap_keys_get in Hx, Hy; [|done..].
  by rewrite (Hcodec x z Hx Hfx), (Hcodec y z Hy Hfy).
Qed.

Lemma addedContexts_elem lexemeNew lexemeOld c :
  c ∈ addedContexts lexemeNew lexemeOld ↔
    c ∈ Lexeme.contexts lexemeNew ∧ c ∉ Lexeme.contexts lexemeOld.
Proof.
  unfold addedContexts. rewrite list_elem_of_In, List.filter_In, <- list_elem_of_In.
  rewrite negb_true_iff, bool_decide_eq_false. done.
Qed.

Lemma updatedLexemeMap_codecKeys dk lexemeNew lexemeOld (m : YMap.t string) :
  codecKeys m ->
  Forall (fun c => cxidOfKey ("cx-" +:+ c) = Some c) (addedContexts lexemeNew lexemeOld) ->
  codecKeys (updatedLexemeMap dk lexemeNew lexemeOld m).
Proof.
  intros Hcodec Hadded k c Hlive Hc.
  destruct (key_cases "cx-" k) as [[c0 ->]|Hother].
  - rewrite updatedLexemeMap_get_context in Hlive.
    destruct (bool_decide (c0 ∈ Lexeme.contexts lexemeOld ∧ _));
      [by destruct Hlive|].
    destruct (decide (c0 ∈ Lexeme.contexts lexemeNew ∧ c0 ∉ Lexeme.contexts lexemeOld))
      as [Hin|Hno].
    + rewrite Forall_forall in Hadded.
      rewrite (Hadded c0) in Hc by (by apply addedContexts_elem). by injection Hc as ->.
    + rewrite (bool_decide_eq_false_2 _ Hno) in Hlive. by apply Hcodec.
  - rewrite updatedLexemeMap_get_other in Hlive by done.
    destruct (decide (k = "c")) as [->|?]; [vm_compute in Hc; discriminate|].
    destruct (decide (k = "l")) as [->|?]; [vm_compute in Hc; discriminate|].
    destruct (decide (k = "u")) as [->|?]; [vm_compute in Hc; discriminate|].
    by apply Hcodec.
Qed.

Lemma storedContexts_updated dk lexemeNew lexemeOld (m : YMap.t string) :
  NoDup m.*1 -> codecKeys m ->
  (forall c, c ∈ storedContexts m ↔ c ∈ Lexeme.contexts lexemeOld) ->
  NoDup (Lexeme.contexts lexemeNew) ->
  Forall (fun c => cxidOfKey ("cx-" +:+ c) = Some c) (addedContexts lexemeNew lexemeOld) ->
  storedContexts (updatedLexemeMap dk lexemeNew lexemeOld m) ≡ₚ Lexeme.contexts lexemeNew.
Proof.
  intros Hnd Hcodec Hold Hnew Hadded.
  pose proof (updatedLexemeMap_NoDup dk lexemeNew lexemeOld m Hnd) as Hnd'.
  pose proof (updatedLexemeMap_codecKeys dk lexemeNew lexemeOld m Hcodec Hadded) as Hcodec'.
  apply NoDup_Permutation; [by apply storedContexts_NoDup|done|].
  intros c. rewrite storedContexts_elem, updatedLexemeMap_get_context by done.
  specialize (Hold c). rewrite storedContexts_elem in Hold by done.
  rewrite Forall_forall in Hadded. specialize (Hadded c).
  rewrite addedContexts_elem in Hadded.
  destruct (decide (c ∈ Lexeme.contexts lexemeOld)) as [Ho|Ho];
    destruct (decide (c ∈ Lexeme.contexts lexemeNew)) as [Hn|Hn].
  - rewrite !bool_decide_eq_false_2 by tauto. tauto.
  - rewrite bool_decide_eq_true_2 by tauto. split; [by intros [[? [=]] _]|done].
  - rewrite bool_decide_eq_false_2 by tauto. rewrite bool_decide_eq_true_2 by tauto.
    split; [done|]. intros _. split; [by eexists|tauto].
  - rewrite !bool_decide_eq_false_2 by tauto. tauto.
Qed.

Section UpdateStored.
Context (E : Env).

Lemma exec_updateLexemeTransaction_diff key doc d0 m lexemeNew lexemeOld replicated s :
  Forall (fun c => c ∈ Lexeme.contexts lexemeOld ∨
                   from_option Js.truthy false (docKeys s !! c) = true)
    (Lexeme.contexts lexemeNew) ->
  Forall (fun k => YMap.get (lexemeKeyName k) m = None) [KCreated; KLastUpdated; KUpdatedBy] ->
  exec (updateLexemeTransaction E key doc lexemeNew (Some lexemeOld) replicated)
       (withLexemeMap doc d0 m s) =
    (withLexemeMap doc d0 (updatedLexemeMap (docKeys s) lexemeNew lexemeOld m) s, Done tt).
Proof.
  intros Hcs Hnames. unfold updateLexemeTransaction, updatedLexemeMap.
  change (default [] (Lexeme.contexts <$> Some lexemeOld)) with (Lexeme.contexts lexemeOld).
  cbn [isUndefined negb andb when].
  rewrite exec_bind.
  assert (forall c : string, "created" ≠ "cx-" +:+ c) as H1 by (intros c; discriminate).
  assert (forall c : string, "lastUpdated" ≠ "cx-" +:+ c) as H2 by (intros c; discriminate).
  assert (forall c : string, "updatedBy" ≠ "cx-" +:+ c) as H3 by (intros c; discriminate).
  apply Forall_cons in Hnames as [Hn1 Hnames]. apply Forall_cons in Hnames as [Hn2 Hnames].
  apply Forall_cons in Hnames as [Hn3 _]. cbn [lexemeKeyName] in Hn1, Hn2, Hn3.
  set (added := foldl _ m (Lexeme.contexts lexemeNew)).
  set (removed := foldl _ added (Lexeme.contexts lexemeOld)).
  assert (YMap.get "created" removed = None ∧ YMap.get "lastUpdated" removed = None ∧
          YMap.get "updatedBy" removed = None) as (Hr1 & Hr2 & Hr3).
  { subst removed added. by rewrite !get_name_removed, !get_name_added. }
  assert (exec (_ ← forEach (Lexeme.contexts lexemeNew)
                      (addContext doc (Lexeme.contexts lexemeOld));
                forEach (Lexeme.contexts lexemeOld)
                  (removeContext doc (Lexeme.contexts lexemeNew)))
            (withLexemeMap doc d0 m s) = (withLexemeMap doc d0 removed s, Done tt)) as Hcx.
  { rewrite exec_bind, exec_addContexts_diff by done. apply exec_removeContexts_diff. }
  destruct lexemeNew as [cs [c|] [lu|] [u|]]; unfold lexemeKeys;
    cbn [Lexeme.contexts Lexeme.created Lexeme.lastUpdated Lexeme.updatedBy
         isUndefined app forEach foldl lexemeField lexemeKeyToDb] in *.
  all: unfold bind; rewrite exec_andThen.
  all: rewrite Hcx.
  all: repeat (rewrite exec_andThen, exec_setLexemeField_diff;
            [cbn [lexemeField Lexeme.created Lexeme.lastUpdated Lexeme.updatedBy lexemeKeyToDb]
            |cbn [lexemeKeyName]; rewrite ?YMap_get_set_ne by discriminate; done]).
  all: reflexivity.
Qed.


End UpdateStored.

(** ** Deletion of a Lexeme *)

Section DeleteLexeme.
Context (E : Env).





End DeleteLexeme.

(** ** Lexeme docs stay well formed *)

Lemma updatedLexemeMap_wf dk lexemeNew lexemeOld (m : YMap.t string) :
  wfLexemeMap m ->
  Forall (fun c => cxidOfKey ("cx-" +:+ c) = Some c) (addedContexts lexemeNew lexemeOld) ->
  wfLexemeMap (updatedLexemeMap dk lexemeNew lexemeOld m).
Proof.
  intros (Hnd & Hcodec & Hnames) Hadded. split; [by apply updatedLexemeMap_NoDup|].
  split; [by apply updatedLexemeMap_codecKeys|].
  apply Forall_cons in Hnames as [Hn1 Hnames]. apply Forall_cons in Hnames as [Hn2 Hnames].
  apply Forall_cons in Hnames as [Hn3 _]. cbn [lexemeKeyName] in Hn1, Hn2, Hn3.
  repeat constructor; cbn [lexemeKeyName];
    (rewrite updatedLexemeMap_get_other by (intros c; discriminate));
    by rewrite !decide_False by discriminate.
Qed.

Lemma wfLexemeMap_empty : wfLexemeMap [].
Proof.
  split; [constructor|]. split; [|by repeat constructor].
  intros k c [v Hv]. discriminate.
Qed.

Section WellFormed.
Context (E : Env).

Lemma exec_onLexemeChange_docHeap doc s :
  exists s', exec (onLexemeChange E doc false) s = (s', Done tt) ∧ docHeap s' = docHeap s.
Proof.
  unfold onLexemeChange. rewrite exec_bind. cbn [exec get].
  destruct (getLexeme (docHeap s !! doc)) as [l|]; [|by eexists].
  destruct (docHeap s !! doc) as [d|]; [|by eexists].
  unfold updateThoughtsThrottled, throttleConcat.
  destruct (throttleWindow s) eqn:Hw; destruct_state s; subst; ex; by eexists.
Qed.

Lemma exec_updateLexemeTransaction_any key doc d0 m lexemeNew lexemeOld replicated s :
  Forall (fun c => c ∈ Lexeme.contexts (default noLexeme lexemeOld) ∨
                   from_option Js.truthy false (docKeys s !! c) = true)
    (Lexeme.contexts lexemeNew) ->
  Forall (fun k => YMap.get (lexemeKeyName k) m = None) [KCreated; KLastUpdated; KUpdatedBy] ->
  exists s', exec (updateLexemeTransaction E key doc lexemeNew lexemeOld replicated)
               (withLexemeMap doc d0 m s) = (s', Done tt) ∧
    docHeap s' = docHeap (withLexemeMap doc d0
      (updatedLexemeMap (docKeys s) lexemeNew (default noLexeme lexemeOld) m) s).
Proof.
  intros Hcs Hnames. destruct lexemeOld as [lexemeOld|]; cbn [default] in *.
  { rewrite exec_updateLexemeTransaction_diff by done. by eexists. }
  pose proof (exec_updateLexemeTransaction_diff E key doc d0 m lexemeNew noLexeme replicated s
                Hcs Hnames) as Hdiff.
  unfold updateLexemeTransaction in *.
  change (default [] (Lexeme.contexts <$> Some noLexeme)) with (@nil string) in Hdiff.
  change (default [] (Lexeme.contexts <$> None)) with (@nil string).
  rewrite exec_bind in Hdiff. rewrite exec_bind.
  destruct (exec (forEach (lexemeKeys lexemeNew) _) (withLexemeMap doc d0 m s))
    as [s1 [[]|e|aw k]] eqn:Hloop; cbn [isUndefined andb negb when exec] in Hdiff;
    [|discriminate..].
  injection Hdiff as ->.
  cbn [isUndefined andb]. destruct (isUndefined replicated); cbn [negb when].
  - by eexists.
  - destruct (exec_onLexemeChange_docHeap doc
                (withLexemeMap doc d0 (updatedLexemeMap (docKeys s) lexemeNew noLexeme m) s))
      as (s' & Hs' & Hheap).
    exists s'. by split.
Qed.

(** X18.  Lexeme docs stay well formed.  The Y.Map of a new Y.Doc is well
    formed, and [updateLexeme], for a new Lexeme as for a changed one,
    takes a well-formed lexeme Y.Map of a resident doc to a well-formed
    one and leaves every other doc as it is.  When the doc held the
    contexts of [lexemeOld] (none, for a new Lexeme), it holds the contexts
    of [lexemeNew] afterwards, which is what the next [updateLexeme] and
    [deleteLexeme] require of it. *)
Theorem updateLexeme_keeps_well_formed
    (s : State) (key : string) (doc : nat) (d0 : YDoc) (lexemeNew : Lexeme.t)
    (lexemeOld : option Lexeme.t) :
  lexemeDocs s !! key = Some doc -> docHeap s !! doc = Some d0 ->
  wfLexemeMap (lexemeMap d0) ->
  Forall (storable (docKeys s)) (addedContexts lexemeNew (default noLexeme lexemeOld)) ->
  let r := exec (updateLexeme E key lexemeNew lexemeOld) s in
  (forall guid, wfLexemeMap (lexemeMap (emptyDoc guid))) ∧
  exists d', docHeap r.1 !! doc = Some d' ∧ wfLexemeMap (lexemeMap d') ∧
    (forall doc', doc' ≠ doc -> docHeap r.1 !! doc' = docHeap s !! doc') ∧
    ((forall c, c ∈ storedContexts (lexemeMap d0) ↔
                c ∈ Lexeme.contexts (default noLexeme lexemeOld)) ->
     NoDup (Lexeme.contexts lexemeNew) ->
     storedContexts (lexemeMap d') ≡ₚ Lexeme.contexts lexemeNew).
Proof.
  intros Hdoc Hd Hwf Hadded r. split; [intros guid; apply wfLexemeMap_empty|].
  set (old := default noLexeme lexemeOld) in *.
  set (m' := updatedLexemeMap (docKeys s) lexemeNew old (lexemeMap d0)).
  assert (Forall (fun c => c ∈ Lexeme.contexts old ∨
                    from_option Js.truthy false (docKeys s !! c) = true)
            (Lexeme.contexts lexemeNew)) as Hcs.
  { apply Forall_forall. intros c Hc.
    destruct (decide (c ∈ Lexeme.contexts old)) as [?|Ho]; [by left|right].
    rewrite Forall_forall in Hadded.
    by destruct (Hadded c) as (_ & _ & ?); [apply addedContexts_elem|]. }
  assert (Forall (fun c => cxidOfKey ("cx-" +:+ c) = Some c) (addedContexts lexemeNew old))
    as Hadded'.
  { eapply Forall_impl; [exact Hadded|]. intros c (Ht & Hs & _).
    by apply cxidOfKey_context. }
  destruct Hwf as (Hnd & Hcodec & Hnames).
  assert (docHeap r.1 = docHeap (withLexemeMap doc d0 m' s)) as Hheap.
  { subst r. unfold updateLexeme. rewrite exec_bind.
    assert (exec get s = (s, Done s)) as -> by reflexivity.
    rewrite exec_bind, Hdoc. cbn [isUndefined when exec]. rewrite exec_bind.
    assert (exec get s = (s, Done s)) as -> by reflexivity.
    rewrite Hdoc. cbn [mbind option_bind]. rewrite Hd.
    rewrite exec_bind. rewrite <- (withLexemeMap_id doc d0 s Hd) at 1.
    destruct (exec_updateLexemeTransaction_any key doc d0 (lexemeMap d0) lexemeNew lexemeOld
                (getLexeme (Some d0)) s Hcs Hnames) as (s' & -> & Hs').
    by destruct (lexemePersistence s !! key). }
  assert (docHeap (withLexemeMap doc d0 m' s) =
            <[doc := setLexemeMap (fun _ => m') d0]> (docHeap s)) as Hheap'
    by (by destruct_state s).
  rewrite Hheap' in Hheap.
  exists (setLexemeMap (fun _ => m') d0). rewrite Hheap.
  split; [apply lookup_insert_eq|]. split; [|split].
  - by apply updatedLexemeMap_wf.
  - intros doc' Hne. by apply lookup_insert_ne.
  - intros Hold Hnew. by apply storedContexts_updated.
Qed.
(** X19.  [updateLexeme] does not reject when the IndexedDB sync of the
    Lexeme fails.  With a cached persistence the call waits for
    [whenSynced] after the transaction; when that is rejected with an
    AbortError, one timer of [IDB_ERROR_RETRY] milliseconds is scheduled
    that calls [updateLexeme] with the same arguments, and nothing is
    reported; for any other error [onError] is queued behind [config] with
    the message [Error saving lexeme: ...]; in both cases, as when the sync
    is fulfilled, the call then returns normally and changes nothing
    else. *)
Theorem updateLexeme_sync_failure
    (s : State) (key : string) (doc p : nat) (d0 : YDoc) (lexemeNew : Lexeme.t)
    (lexemeOld : option Lexeme.t) :
  lexemeDocs s !! key = Some doc -> docHeap s !! doc = Some d0 ->
  lexemePersistence s !! key = Some p -> wfLexemeMap (lexemeMap d0) ->
  Forall (storable (docKeys s)) (addedContexts lexemeNew (default noLexeme lexemeOld)) ->
  let r := exec (updateLexeme E key lexemeNew lexemeOld) s in
  awaits (AwWhenSynced (Some p)) r.2 ∧
  (forall s1, resume r.2 Fulfilled s1 = (s1, Done tt)) ∧
  (forall e s1, resume r.2 (Rejected e) s1 =
     (if isAbortError e
      then with_timers (fun l => l ++ [(IDB_ERROR_RETRY,
                                        TaUpdateLexeme key lexemeNew lexemeOld)]) s1
      else with_floating (fun l => l ++ [FlOnError ("Error saving lexeme: " +:+ Js.message e)
                                           e]) s1,
      Done tt)) ∧
  fire E (TaUpdateLexeme key lexemeNew lexemeOld) = updateLexeme E key lexemeNew lexemeOld.
Proof.
  intros Hdoc Hd Hp (_ & _ & Hnames) Hadded r.
  set (old := default noLexeme lexemeOld) in *.
  assert (Forall (fun c => c ∈ Lexeme.contexts old ∨
                    from_option Js.truthy false (docKeys s !! c) = true)
            (Lexeme.contexts lexemeNew)) as Hcs.
  { apply Forall_forall. intros c Hc.
    destruct (decide (c ∈ Lexeme.contexts old)) as [?|Ho]; [by left|right].
    rewrite Forall_forall in Hadded.
    by destruct (Hadded c) as (_ & _ & ?); [apply addedContexts_elem|]. }
  assert (exists s', r = (s', Suspended (AwWhenSynced (Some p)) (fun o =>
            match o with
            | Fulfilled => Ret tt
            | Rejected e => onUpdateLexemeError key lexemeNew lexemeOld e
            end))) as (s' & ->).
  { destruct (exec_updateLexemeTransaction_any key doc d0 (lexemeMap d0) lexemeNew lexemeOld
                (getLexeme (Some d0)) s Hcs Hnames) as (s' & Hexec & _).
    rewrite (withLexemeMap_id doc d0 s Hd) in Hexec. exists s'.
    subst r. unfold updateLexeme. rewrite exec_bind.
    assert (exec get s = (s, Done s)) as -> by reflexivity.
    rewrite exec_bind, Hdoc. cbn [isUndefined when exec]. rewrite exec_bind.
    assert (exec get s = (s, Done s)) as -> by reflexivity.
    rewrite Hdoc. cbn [mbind option_bind]. rewrite Hd.
    by rewrite exec_bind, Hexec, Hp. }
  cbn [fst snd awaits resume]. split; [done|]. split; [done|]. split; [|done].
  intros e s1. unfold onUpdateLexemeError. by destruct (isAbortError e).
Qed.

End WellFormed.

(** ** Foregrounding after the websocket sync *)

Lemma getThought_observeThought id d k :
  getThought (Some (observeThought id d)) k = getThought (Some d) k.
Proof. by destruct d. Qed.

Lemma exec_updateThoughtsThrottled_fields batch s :
  exists s', exec (updateThoughtsThrottled batch) s = (s', Done tt) ∧
    thoughts s' = thoughts s ∧ lexemes s' = lexemes s ∧ docKeys s' = docKeys s ∧
    docHeap s' = docHeap s ∧ provHeap s' = provHeap s ∧ trace s' = trace s ∧
    floating s' = floating s ∧ throttleAccum s' = throttleAccum s ++ [batch].
Proof.
  unfold updateThoughtsThrottled, throttleConcat.
  destruct (throttleWindow s) eqn:Hw; destruct_state s; subst; ex; by eexists.
Qed.

Section Foregrounding.
Context (E : Env).

(** The batch that [onLexemeChange] hands to [updateThoughtsThrottled] for
    the doc [d]. *)
Lemma exec_onLexemeChange_fields doc d s :
  docHeap s !! doc = Some d ->
  exists s', exec (onLexemeChange E doc false) s = (s', Done tt) ∧
    thoughts s' = thoughts s ∧ lexemes s' = lexemes s ∧ docKeys s' = docKeys s ∧
    docHeap s' = docHeap s ∧ provHeap s' = provHeap s ∧ trace s' = trace s ∧
    floating s' = floating s ∧
    throttleAccum s' = throttleAccum s ++
      from_option (fun lexeme =>
          [mkBatch ∅ {[parseDocumentName E (guid d) := Some lexeme]} ∅]) []
        (getLexeme (Some d)).
Proof.
  intros Hd. unfold onLexemeChange. rewrite exec_bind. cbn [exec get]. rewrite Hd.
  destruct (getLexeme (Some d)) as [l|]; cbn [from_option].
  - apply exec_updateThoughtsThrottled_fields.
  - exists s. by rewrite app_nil_r.
Qed.

(** X20.  Foregrounding of a Lexeme.  In background mode, once the IndexedDB
    and websocket syncs are fulfilled and [isLexemeLoaded] resolves to
    true, [replicateLexeme] retains the key, observes the doc, and hands
    the Lexeme of the doc to [updateThoughtsThrottled] as one batch under
    the key of the document name.  It sets the docKey of every context
    found in the doc and returns the Lexeme.  The doc stays cached: no
    cache entry is removed and nothing is destroyed. *)
Theorem replicateLexeme_foregrounding
    (s : State) (cfg : Config) (key : string) (doc w pw : nat) (d : YDoc)
    (oracle : Awaited -> Settled) :
  (forall aw, oracle aw = Fulfilled) ->
  docHeap s !! doc = Some d ->
  isLexemeLoaded cfg key (getLexeme (Some d)) = true ->
  let r := run oracle (replicateLexemeSynced E key true cfg doc w pw) s in
  r.2 = inl (getLexeme (Some d)) ∧
  lexemes r.1 = with_retained (fun r => {[key]} ∪ r) (lexemes s) ∧
  thoughts r.1 = thoughts s ∧
  docHeap r.1 = <[doc := observeLexeme d]> (docHeap s) ∧
  docKeys r.1 = foldl recordContext (docKeys s) (YMap.entries (lexemeMap d)) ∧
  provHeap r.1 = provHeap s ∧ trace r.1 = trace s ∧ floating r.1 = floating s ∧
  throttleAccum r.1 = throttleAccum s ++
    from_option (fun lexeme =>
        [mkBatch ∅ {[parseDocumentName E (guid d) := Some lexeme]} ∅]) []
      (getLexeme (Some d)).
Proof.
  intros Hor Hd Hload r. subst r. unfold replicateLexemeSynced.
  rewrite run_bind. cbn [negb].
  rewrite run_bind. cbn [run await]. rewrite Hor. cbn [run].
  rewrite run_bind. cbn [run get]. rewrite Hd, run_bind. cbn [run await]. rewrite Hor.
  cbn [run]. rewrite Hload. cbn [when]. rewrite run_bind. cbn [run modify].
  rewrite run_bind. cbn [run modify].
  set (s1 := with_docHeap (alter observeLexeme doc)
               (with_lexemes (with_retained (fun r => {[key]} ∪ r)) s)).
  assert (docHeap s1 !! doc = Some (observeLexeme d)) as Hd1.
  { subst s1. destruct_state s. cbn. by rewrite lookup_alter_eq, Hd. }
  destruct (exec_onLexemeChange_fields doc (observeLexeme d) s1 Hd1)
    as (s2 & Hs2 & Hth & Hlx & Hdk & Hh & Hpv & Htr & Hfl & Hacc).
  rewrite (run_exec_done oracle _ s1 s2 tt Hs2).
  rewrite (run_replicateLexemeSynced_tail oracle key doc (observeLexeme d))
    by (by rewrite Hh).
  cbn zeta. rewrite run_tryDeallocateLexeme_retained.
  2:{ assert (lexemeRetained s2 = {[key]} ∪ lexemeRetained s) as Hr.
      { unfold lexemeRetained. rewrite Hlx. subst s1. by destruct_state s. }
      assert (forall f, lexemeRetained (with_docKeys f s2) = lexemeRetained s2) as ->
        by (intros f; by destruct_state s2).
      rewrite Hr. set_solver. }
  cbn [fst snd]. rewrite getLexeme_observeLexeme.
  assert (forall f, lexemes (with_docKeys f s2) = lexemes s2 ∧
            thoughts (with_docKeys f s2) = thoughts s2 ∧
            docHeap (with_docKeys f s2) = docHeap s2 ∧
            docKeys (with_docKeys f s2) = f (docKeys s2) ∧
            provHeap (with_docKeys f s2) = provHeap s2 ∧
            trace (with_docKeys f s2) = trace s2 ∧
            floating (with_docKeys f s2) = floating s2 ∧
            throttleAccum (with_docKeys f s2) = throttleAccum s2) as Hf
    by (intros f; by destruct_state s2).
  destruct (Hf (fun dk => foldl recordContext dk (YMap.entries (lexemeMap (observeLexeme d)))))
    as (-> & -> & -> & -> & -> & -> & -> & ->).
  rewrite Hth, Hlx, Hdk, Hh, Hpv, Htr, Hfl, Hacc.
  assert (guid (observeLexeme d) = guid d ∧ lexemeMap (observeLexeme d) = lexemeMap d)
    as [-> ->] by (by destruct d).
  rewrite getLexeme_observeLexeme.
  subst s1. destruct_state s. cbn. repeat split; try done.
  apply map_eq. intros i. destruct (decide (i = doc)) as [->|Hne].
  - by rewrite lookup_alter_eq, lookup_insert_eq, Hd.
  - by rewrite lookup_alter_ne, lookup_insert_ne.
Qed.

Lemma run_foregroundChild oracle docKey doc d (child : Thought.t) m s :
  docHeap s !! doc = Some d ->
  getThought (Some d) (Thought.id child) = Some child ->
  Thought.childrenMap child = Some m ->
  run oracle (foregroundChild docKey doc child) s =
    (foregrounded docKey doc s child, inl tt).
Proof.
  intros Hd Hth Hm. apply run_exec_done. unfold foregroundChild, foregrounded.
  rewrite exec_bind. cbn [exec modify]. rewrite exec_bind. cbn [exec get].
  set (s1 := with_thoughts (with_retained (fun r => {[docKey]} ∪ r)) s).
  assert (docHeap s1 !! doc = Some d) as Hd1 by (subst s1; by destruct_state s).
  rewrite Hd1. cbn [mbind option_bind].
  destruct (YMap.get (Thought.id child) (childrenYMap d)) as [tm|] eqn:Hget.
  2:{ unfold getThought in Hth. by rewrite Hget in Hth. }
  rewrite exec_bind, (exec_onThoughtChange (Thought.id child) doc child m)
    by (by rewrite ?Hd1).
  rewrite exec_bind. cbn [exec modify].
  unfold grandchildDocKeys. rewrite Hm.
  f_equal. clearbody s1. destruct_state s1. st. f_equal.
  - apply map_eq. intros k. by rewrite foldl_grandchildren.
  - f_equal. apply alter_id. intros x Hx. cbn in Hd1. rewrite Hd1 in Hx.
    injection Hx as <-. unfold YMap.has. by rewrite Hget.
Qed.

Lemma run_promiseAll_foreground oracle cfg docKey doc (children : list Thought.t) d s :
  docHeap s !! doc = Some d ->
  Forall (fun child => getThought (Some d) (Thought.id child) = Some child ∧
                       is_Some (Thought.childrenMap child)) children ->
  run oracle (promiseAll ((fun child =>
      when (isThoughtLoaded cfg child) (foregroundChild docKey doc child)) <$> children)) s =
    (foldl (foregrounded docKey doc) s (List.filter (isThoughtLoaded cfg) children), inl tt).
Proof.
  intros Hd Hall. revert s d Hd Hall.
  induction children as [|child cs IH]; intros s d Hd Hall;
    cbn [fmap list_fmap promiseAll List.filter]; [done|].
  apply Forall_cons in Hall as [[Hth [m Hm]] Hall].
  rewrite run_andThen. destruct (isThoughtLoaded cfg child); cbn [when].
  - rewrite (run_foregroundChild oracle docKey doc d child m) by done. cbn [foldl].
    apply (IH _ (observeThought (Thought.id child) d)).
    + unfold foregrounded. destruct_state s. cbn. by rewrite lookup_alter_eq, Hd.
    + eapply Forall_impl; [exact Hall|]. intros c [? ?].
      by rewrite getThought_observeThought.
  - cbn [run]. by apply (IH s d).
Qed.

Lemma foregrounded_fields docKey doc (loaded : list Thought.t) d s :
  docHeap s !! doc = Some d ->
  let s' := foldl (foregrounded docKey doc) s loaded in
  thoughts s' = match loaded with
                | [] => thoughts s
                | _ => with_retained (fun r => {[docKey]} ∪ r) (thoughts s)
                end ∧
  lexemes s' = lexemes s ∧
  docHeap s' =
    <[doc := foldl (fun d child => observeThought (Thought.id child) d) d loaded]> (docHeap s) ∧
  docKeys s' = writeDocKeys (loaded ≫= grandchildDocKeys) (docKeys s) ∧
  floating s' = floating s ++ (FlOnThoughtChange <$> loaded) ∧
  provHeap s' = provHeap s ∧ trace s' = trace s ∧ throttleAccum s' = throttleAccum s.
Proof.
  revert s d. induction loaded as [|c l IH]; intros s d Hd; cbn zeta; cbn [foldl].
  { rewrite insert_id, app_nil_r by done. by repeat split. }
  assert (docHeap (foregrounded docKey doc s c) !! doc =
            Some (observeThought (Thought.id c) d)) as Hd'.
  { unfold foregrounded. destruct_state s. cbn. by rewrite lookup_alter_eq, Hd. }
  destruct (IH _ _ Hd') as (-> & -> & -> & -> & -> & -> & -> & ->).
  clear IH Hd'.
  change ((c :: l) ≫= grandchildDocKeys) with
    (grandchildDocKeys c ++ (l ≫= grandchildDocKeys)).
  rewrite writeDocKeys_app, fmap_cons.
  unfold foregrounded. destruct_state s. st.
  split; [|split; [done|split; [|split; [done|split; [by rewrite <- app_assoc|done]]]]].
  - destruct l; [done|]. unfold with_retained. cbn. f_equal. set_solver.
  - apply map_eq. intros i. destruct (decide (i = doc)) as [->|Hne].
    + by rewrite !lookup_insert_eq.
    + by rewrite !lookup_insert_ne, lookup_alter_ne.
Qed.

Lemma getChildren_found (d : YDoc) :
  Forall (fun child => getThought (Some d) (Thought.id child) = Some child)
    (default [] (getChildren (Some d))).
Proof.
  unfold getChildren. destruct (negb (YMap.has "docKey" (thoughtMap d))); [done|].
  apply Forall_forall. intros c Hc. cbn [default] in Hc.
  apply list_elem_of_omap in Hc as (k & _ & Hk).
  by rewrite (getThought_id _ _ _ Hk).
Qed.

(** X21.  Foregrounding of thoughts.  In background remote mode, once the
    IndexedDB and websocket syncs are fulfilled and [isThoughtLoaded]
    resolves to true for at least one child of a well-formed doc,
    [replicateChildren] retains the docKey and, for every loaded child in
    the order of the doc, sets the docKeys of the child's children to the
    child's id, queues one call of [onThoughtChange] with the child behind
    [config], and observes the child map.  It returns the children of the
    doc.  The doc stays cached: no cache entry is removed and nothing is
    destroyed; the lexeme caches are not touched. *)
Theorem replicateChildren_foregrounding
    (s : State) (cfg : Config) (docKey : string) (opts : ReplicateOptions)
    (doc : nat) (ws : option nat) (d : YDoc) (oracle : Awaited -> Settled) :
  (forall aw, oracle aw = Fulfilled) ->
  background opts = true -> remote opts = true ->
  docHeap s !! doc = Some d -> wfDoc d ->
  List.filter (isThoughtLoaded cfg) (default [] (getChildren (Some d))) ≠ [] ->
  let loaded := List.filter (isThoughtLoaded cfg) (default [] (getChildren (Some d))) in
  let r := run oracle (replicateChildrenSynced docKey opts cfg doc ws) s in
  r.2 = inl (getChildren (Some d)) ∧
  thoughts r.1 = with_retained (fun r => {[docKey]} ∪ r) (thoughts s) ∧
  lexemes r.1 = lexemes s ∧
  docHeap r.1 =
    <[doc := foldl (fun d child => observeThought (Thought.id child) d) d loaded]> (docHeap s) ∧
  docKeys r.1 = writeDocKeys (loaded ≫= grandchildDocKeys) (docKeys s) ∧
  floating r.1 = floating s ++ (FlOnThoughtChange <$> loaded) ∧
  provHeap r.1 = provHeap s ∧ trace r.1 = trace s.
Proof.
  intros Hor Hbg Hrem Hd Hwf Hne loaded r. subst r.
  unfold replicateChildrenSynced. rewrite run_bind, Hbg, Hrem. cbn [negb andb].
  rewrite run_bind. cbn [run await]. rewrite Hor. cbn [run].
  rewrite run_bind. cbn [run get]. rewrite Hd, run_bind. cbn [run await]. rewrite Hor.
  cbn [run]. rewrite run_bind.
  rewrite (run_promiseAll_foreground oracle cfg docKey doc _ d s Hd).
  2:{ pose proof (getChildren_found d) as Hfound. unfold wfDoc in Hwf.
      apply Forall_forall. intros c Hc. split.
      - by apply (proj1 (Forall_forall _ _) Hfound).
      - by apply (proj1 (Forall_forall _ _) Hwf). }
  fold loaded. fold loaded in Hne. clearbody loaded.
  cbn [run await]. rewrite Hor. cbn [run]. rewrite run_bind. cbn [run get].
  destruct (foregrounded_fields docKey doc loaded d s Hd)
    as (Hth & Hlx & Hh & Hdk & Hfl & Hpv & Htr & _).
  cbn zeta in *. set (s' := foldl (foregrounded docKey doc) s loaded) in *.
  rewrite Hh, lookup_insert_eq, run_bind, run_tryDeallocateThought_retained.
  2:{ unfold thoughtRetained. rewrite Hth. destruct loaded; [done|].
      destruct_state s. cbn. set_solver. }
  cbn [run fst snd].
  assert (getChildren (Some (foldl (fun d child => observeThought (Thought.id child) d) d
                               loaded)) = getChildren (Some d)) as ->.
  { clear. revert d. induction loaded as [|c l IH]; intros d; cbn [foldl]; [done|].
    by rewrite IH, getChildren_observeThought. }
  rewrite Hth. destruct loaded; [done|]. by repeat split.
Qed.

End Foregrounding.

(** ** Lexemes of the special contexts *)

Section SpecialTokens.
Context (E : Env).

(** X22.  The special contexts have no Lexeme doc.  For a key equal to
    [HOME_TOKEN], [EM_TOKEN] or [ABSOLUTE_TOKEN] that has no cached doc,
    [updateLexeme] resolves without writing anything, whatever the awaited
    promises settle to: the replication it awaits first returns at once
    without a doc, and the update then stops at the missing doc.  The whole
    module state is left as it was, and no error is raised for a context
    of [lexemeNew] whose docKey is unknown. *)
Theorem updateLexeme_special_token
    (s : State) (key : string) (lexemeNew : Lexeme.t) (lexemeOld : option Lexeme.t)
    (oracle : Awaited -> Settled) :
  key = HOME_TOKEN E ∨ key = EM_TOKEN E ∨ key = ABSOLUTE_TOKEN E ->
  lexemeDocs s !! key = None ->
  run oracle (updateLexeme E key lexemeNew lexemeOld) s = (s, inl tt) ∧
  (exec (updateLexeme E key lexemeNew lexemeOld) s).1 = s.
Proof.
  intros Hkey Hdoc.
  assert (isSpecialToken E key = true) as Hsp.
  { unfold isSpecialToken. rewrite !orb_true_iff, !bool_decide_eq_true. tauto. }
  unfold updateLexeme, replicateLexeme. rewrite Hsp. split.
  - rewrite run_bind. cbn [run get]. rewrite Hdoc. cbn [isUndefined when].
    rewrite run_bind, run_bind. unfold awaitCall. rewrite run_andThen. cbn [run].
    rewrite run_bind. cbn [run get]. by rewrite Hdoc.
  - rewrite exec_bind. cbn [exec get]. rewrite Hdoc. cbn [isUndefined when].
    rewrite !exec_bind. unfold awaitCall. by rewrite exec_andThen.
Qed.

End SpecialTokens.
(** ** Evaluations on sample inputs *)

(** C3.  [updateThought] returns a resolved promise in its first statement:
    for every id and thought the call completes in its first segment and
    leaves the module state, the resident document included, as it was.  On
    the sample state the doc of [a] still holds the old value after
    [updateThought("a", editedThought)], and the call has not waited for the
    IndexedDB sync. *)
Theorem updateThought_short_circuit :
  (forall id thought s, exec (updateThought id thought) s = (s, Done tt)) ∧
  (let r := exec (updateThought "a" editedThought) residentState in
   r.2 = Done tt ∧
   is_Some (thoughtPersistence residentState !! "p") ∧
   Thought.value <$> getThought (docHeap r.1 !! 0) "a" = Some (Some "old") ∧
   Thought.value editedThought = Some "new").
Proof.
  split; [reflexivity|]. cbn zeta. split; [reflexivity|]. split; [by eexists|].
  split; reflexivity.
Qed.

(** C4.  [replicateChildren] and [replicateLexeme] construct the
    HocuspocusProvider in the same synchronous segment as the
    IndexeddbPersistence, before the call first suspends on [idbSynced] and
    so before [whenSynced] can have settled; the doclog block handler of
    [init] constructs it in the [then] handler of [whenSynced]. *)
Theorem websocket_provider_created_before_idb_synced :
  (let r := exec (replicateChildren sampleEnv "k" defaultOptions) sampleState in
   trace r.1 = [EvNewDoc 0 "tsid/thought/k"; EvNewPersistence 1 "tsid/thought/k" 0;
                EvNewProvider 3 "tsid/thought/k" 0] ∧
   awaits (AwPromise (Some 2)) r.2 ∧
   promises r.1 !! 2 =
     Some (PkThoughtIdbSynced "k" 0 1 (Some 3) (Some 4) defaultOptions) ∧
   ¬ providerAfterSync (trace r.1)) ∧
  (let r := exec (replicateLexeme sampleEnv "apple" false) sampleState in
   trace r.1 = [EvNewDoc 0 "tsid/lexeme/apple"; EvNewPersistence 1 "tsid/lexeme/apple" 0;
                EvNewProvider 3 "tsid/lexeme/apple" 0] ∧
   awaits (AwPromise (Some 2)) r.2 ∧
   ¬ providerAfterSync (trace r.1)) ∧
  (trace doclogBlockScenario =
     [EvNewDoc 0 "tsid/doclog/block/b"; EvNewPersistence 1 "tsid/doclog/block/b" 0;
      EvSettled 1 Fulfilled; EvNewProvider 3 "tsid/doclog/block/b" 0] ∧
   providerAfterSync (trace doclogBlockScenario)).
Proof.
  assert (forall w n d p, ¬ providerAfterSync
            [EvNewDoc d n; EvNewPersistence p n d; EvNewProvider w n d]) as Hno.
  { intros w n d p H. destruct (H 2 w n d eq_refl) as (j0 & j & p' & n' & H0 & H1 & _ & Hj).
    destruct j as [|[|j]]; simpl in Hj; try discriminate; lia. }
  split; [|split].
  - cbn zeta. split; [vm_compute; reflexivity|]. split; [vm_compute; reflexivity|].
    split; [vm_compute; reflexivity|].
    replace (trace _) with
      [EvNewDoc 0 "tsid/thought/k"; EvNewPersistence 1 "tsid/thought/k" 0;
       EvNewProvider 3 "tsid/thought/k" 0] by (vm_compute; reflexivity).
    apply Hno.
  - cbn zeta. split; [vm_compute; reflexivity|]. split; [vm_compute; reflexivity|].
    replace (trace _) with
      [EvNewDoc 0 "tsid/lexeme/apple"; EvNewPersistence 1 "tsid/lexeme/apple" 0;
       EvNewProvider 3 "tsid/lexeme/apple" 0] by (vm_compute; reflexivity).
    apply Hno.
  - assert (trace doclogBlockScenario =
      [EvNewDoc 0 "tsid/doclog/block/b"; EvNewPersistence 1 "tsid/doclog/block/b" 0;
       EvSettled 1 Fulfilled; EvNewProvider 3 "tsid/doclog/block/b" 0]) as Htr
      by (vm_compute; reflexivity).
    split; [exact Htr|]. rewrite Htr. intros i w n d Hi.
    destruct i as [|[|[|[|i]]]]; simpl in Hi; try discriminate.
    inversion Hi; subst. exists 1, 2, 1, "tsid/doclog/block/b".
    repeat split; lia.
Qed.

(** C9.  For a context id that contains [cx-] the codec does not round-trip:
    [updateLexeme] writes the field [cx-q7Zcx-Yb3kLmN0pRs2TuV], and
    [getLexeme] on the same doc returns the context [q7Z], the second piece
    of [key.split('cx-')]; the loop of [replicateLexeme] likewise records
    the docKey under [q7Z] and not under the id. *)
Theorem context_id_with_separator_is_truncated :
  let r := exec (updateLexeme sampleEnv "apple" appleLexeme None) lexemeState in
  let raw := YMap.entries ∘ lexemeMap <$> docHeap r.1 !! 0 in
  raw = Some [("cx-q7Zcx-Yb3kLmN0pRs2TuV", "P"); ("c", "t0"); ("l", "t0"); ("u", "u")] ∧
  Lexeme.contexts <$> getLexeme (docHeap r.1 !! 0) = Some ["q7Z"] ∧
  Lexeme.contexts appleLexeme = [idWithSeparator] ∧
  (let s' := (exec (setContextDocKeys (default [] raw)) (with_docKeys (fun _ => ∅) r.1)).1 in
   docKeys s' !! "q7Z" = Some "P" ∧ docKeys s' !! idWithSeparator = None).
Proof.
  cbn zeta. split; [vm_compute; reflexivity|]. split; [vm_compute; reflexivity|].
  split; [reflexivity|]. split; vm_compute; reflexivity.
Qed.

(** Example: after an aborted IndexedDB sync of the doc of [k], one retry timer of
    [IDB_ERROR_RETRY] milliseconds is pending and [onError] has not been
    called; the doc and its provider are deallocated when [idbSynced] is
    fulfilled, and when the timer fires [replicateChildren] constructs a
    new doc, persistence and provider for [k] and nothing is left
    scheduled. *)
Theorem abort_retry_scenario :
  let retry := (IDB_ERROR_RETRY, TaReplicateChildren "k" defaultOptions) in
  timers <$> abortScenario = [[]; [retry]; [retry]; [retry]; []] ∧
  (fun s => thoughtDocs s !! "k") <$> abortScenario =
    [Some 0; Some 0; None; None; Some 5] ∧
  trace <$> last abortScenario =
    Some [EvNewDoc 0 "tsid/thought/k"; EvNewPersistence 1 "tsid/thought/k" 0;
          EvNewProvider 3 "tsid/thought/k" 0; EvSettled 1 (Rejected abortError);
          EvDestroyDoc 0; EvDestroyProvider 3;
          EvNewDoc 5 "tsid/thought/k"; EvNewPersistence 6 "tsid/thought/k" 5;
          EvNewProvider 8 "tsid/thought/k" 5].
Proof. cbn zeta. repeat split; vm_compute; reflexivity. Qed.

(** * The theorems at sample inputs *)


(** [p] is resident with one child; it is freed and replicated again in the
    foreground before the teardown runs. *)
Lemma retention_safety_witness :
  MODE sampleEnv ≠ "test" ∧
  configCache residentState = Some sampleConfig ∧
  background defaultOptions = false ∧
  isSpecialToken sampleEnv "apple" = false ∧
  wfHeap (exec (replicateChildren sampleEnv "p" defaultOptions)
            (exec (freeThought "p") residentState).1).1 ∧
  (let freed := exec (freeThought "p") residentState in
   let again := exec (replicateChildren sampleEnv "p" defaultOptions) freed.1 in
   "p" ∈ thoughtRetained again.1 ∧
   finish allFulfilled freed.2 Fulfilled again.1 = (again.1, inl tt) ∧
   ∃ d, thoughtDocs again.1 !! "p" = Some d ∧
     let read := exec (replicateChildren sampleEnv "p" defaultOptions) again.1 in
     ∃ s', finish allFulfilled read.2 Fulfilled read.1 =
             (s', inl (getChildren (docHeap again.1 !! d))) ∧
           thoughtDocs s' !! "p" = Some d ∧
           creations (trace s') = creations (trace again.1) ∧
           destructions (trace s') = destructions (trace again.1)) ∧
  (let freed := exec (freeLexeme "apple") residentState in
   let again := exec (replicateLexeme sampleEnv "apple" false) freed.1 in
   "apple" ∈ lexemeRetained again.1 ∧
   finish allFulfilled freed.2 Fulfilled again.1 = (again.1, inl tt) ∧
   ∃ d, lexemeDocs again.1 !! "apple" = Some d ∧
     let read := exec (replicateLexeme sampleEnv "apple" true) again.1 in
     finish allFulfilled read.2 Fulfilled read.1 =
       (read.1, inl (getLexeme (docHeap again.1 !! d))) ∧
     lexemeDocs read.1 !! "apple" = Some d ∧
     trace read.1 = trace again.1).
Proof.
  assert (MODE sampleEnv ≠ "test") as Hmode by discriminate.
  assert (wfHeap (exec (replicateChildren sampleEnv "p" defaultOptions)
                    (exec (freeThought "p") residentState).1).1) as Hwf.
  { unfold wfHeap, wfDoc. apply (bool_decide_unpack _). vm_compute. exact I. }
  split; [exact Hmode|]. do 3 (split; [reflexivity|]). split; [exact Hwf|].
  exact (retention_safety sampleEnv residentState sampleConfig "p" "apple"
           defaultOptions defaultOptions true allFulfilled
           Hmode eq_refl eq_refl eq_refl Hwf).
Defined.


(** Clearing the database of [p] and of [apple] is rejected with
    NotFoundError: both deletions are fulfilled. *)
Lemma delete_ignores_NotFoundError_witness :
  configCache residentState = Some sampleConfig ∧
  (forall aw, (forall n, aw ≠ AwCleared n) -> notFoundOracle aw = Fulfilled) ∧
  (forall n, notFoundOracle (AwCleared n) = Rejected notFound) ∧
  (run notFoundOracle (deleteThought sampleEnv "p") residentState).2 = inl tt ∧
  (run notFoundOracle (deleteLexeme sampleEnv "apple") residentState).2 = inl tt.
Proof.
  assert (forall aw, (forall n, aw ≠ AwCleared n) -> notFoundOracle aw = Fulfilled) as Hor.
  { intros aw Hne. destruct aw; try reflexivity. by destruct (Hne n). }
  destruct (delete_ignores_NotFoundError sampleEnv residentState sampleConfig "p" "apple"
              notFoundOracle (Rejected notFound) eq_refl Hor (fun _ => eq_refl))
    as (Hthought & Hlexeme & _).
  split; [reflexivity|]. split; [exact Hor|]. split; [reflexivity|].
  split; [exact Hthought|exact Hlexeme].
Defined.

(** Three notifications for the thought [a] in one window: one call of
    [onUpdateThoughts], with the value written last. *)
Lemma batched_delivery_witness :
  throttleAccum sampleState = [] ∧ throttleWindow sampleState = false ∧
  (let merged := foldl mergeBatch emptyBatch threeBatches in
   let s1 := submitAll threeBatches sampleState in
   let s2 := fireTimer sampleEnv 0 s1 in
   let s3 := fireTimer sampleEnv 0 s2 in
   let s4 := settleFloating 0 Fulfilled s3 in
   trace s1 = [] ∧ trace s2 = [] ∧ trace s3 = [] ∧
   trace s4 = [EvOnUpdateThoughts merged false false true] ∧
   thoughtIndexUpdates merged !! "a" = Some (Some editedThought)).
Proof.
  destruct (batched_delivery sampleEnv sampleState
              (editBatch (Some (sampleThought "old")))
              [editBatch None; editBatch (Some editedThought)] eq_refl eq_refl)
    as ((_ & _ & H1) & (_ & _ & H2) & (_ & _ & H3) & H4 & Hlast & _).
  do 2 (split; [reflexivity|]). cbn zeta.
  split; [exact H1|]. split; [exact H2|]. split; [exact H3|].
  split; [exact (f_equal trace H4)|].
  apply (Hlast [editBatch (Some (sampleThought "old")); editBatch None]
           (editBatch (Some editedThought)) [] "a" (Some editedThought));
    [reflexivity | constructor | apply lookup_singleton_eq].
Defined.

(** The Lexeme of the home token. *)
Lemma replicateLexeme_special_token_witness :
  ("__ROOT__" = HOME_TOKEN sampleEnv ∨ "__ROOT__" = EM_TOKEN sampleEnv ∨
   "__ROOT__" = ABSOLUTE_TOKEN sampleEnv) ∧
  exec (replicateLexeme sampleEnv "__ROOT__" false) sampleState = (sampleState, Done None).
Proof.
  assert ("__ROOT__" = HOME_TOKEN sampleEnv ∨ "__ROOT__" = EM_TOKEN sampleEnv ∨
          "__ROOT__" = ABSOLUTE_TOKEN sampleEnv) as H by (left; reflexivity).
  split; [exact H|].
  exact (replicateLexeme_special_token sampleEnv "__ROOT__" false sampleState H).
Defined.


(** Two calls for [k] and two for [apple] made before [init] has resolved. *)
Lemma replication_before_init_witness :
  configCache (initialState sampleEnv) = None ∧
  configCache sampleState = Some sampleConfig ∧
  isSpecialToken sampleEnv "apple" = false ∧
  (let calls := replicateChildren sampleEnv "k" <$> [defaultOptions; defaultOptions] in
   let r := concurrently calls (initialState sampleEnv) in
   r.1 = initialState sampleEnv ∧ Forall (awaits AwConfig) r.2 ∧
   resumeAll r.2 Fulfilled sampleState = concurrently calls sampleState) ∧
  (let calls := replicateLexeme sampleEnv "apple" <$> [false; true] in
   let r := concurrently calls (initialState sampleEnv) in
   r.1 = initialState sampleEnv ∧ Forall (awaits AwConfig) r.2 ∧
   resumeAll r.2 Fulfilled sampleState = concurrently calls sampleState).
Proof.
  do 3 (split; [reflexivity|]).
  exact (replication_before_init sampleEnv (initialState sampleEnv) sampleState
           sampleConfig "k" "apple" [defaultOptions; defaultOptions] [false; true]
           eq_refl eq_refl eq_refl).
Defined.

(** ** The further theorems at sample inputs *)

(** A thought and a lexeme are replicated in a test run. *)
Lemma test_mode_constructs_no_providers_witness :
  MODE testEnv = "test" ∧ configCache testState = Some sampleConfig ∧
  thoughtDocs testState !! "k" = None ∧ lexemeDocs testState !! "apple" = None ∧
  isSpecialToken testEnv "apple" = false ∧
  (let r := exec (replicateChildren testEnv "k" defaultOptions) testState in
   creations (trace r.1) = creations (trace testState) ++ [EvNewDoc 0 "tsid/thought/k"] ∧
   persHeap r.1 = persHeap testState ∧ provHeap r.1 = provHeap testState ∧
   finish allFulfilled r.2 Fulfilled r.1 = (r.1, inl None)).
Proof.
  do 5 (split; [reflexivity|]).
  destruct (test_mode_constructs_no_providers testEnv testState sampleConfig "k" "apple"
              defaultOptions false allFulfilled eq_refl eq_refl eq_refl eq_refl eq_refl)
    as [(H1 & _ & H3 & H4 & _ & H6) _].
  cbn zeta. split; [exact H1|]. split; [exact H3|]. split; [exact H4|exact H6].
Defined.

(** [init] with the cursor [a/b/c]. *)
Lemma seedCursor_docKeys_witness :
  NoDup cursorPath ∧
  (let r := exec (seedCursor sampleEnv (Some cursorPath)) (initialState sampleEnv) in
   r.2 = Done tt ∧ docKeys r.1 !! "a" = Some "__ROOT__" ∧
   docKeys r.1 !! "b" = Some "a" ∧ docKeys r.1 !! "c" = Some "b").
Proof.
  assert (NoDup cursorPath) as Hnd by (apply (bool_decide_unpack _); vm_compute; exact I).
  split; [exact Hnd|].
  destruct (seedCursor_docKeys sampleEnv (initialState sampleEnv) cursorPath Hnd)
    as (H1 & _ & H3 & H4 & _).
  cbn zeta. split; [exact H1|]. split; [exact (H3 "a" eq_refl)|].
  split; [exact (H4 0 "a" "b" eq_refl eq_refl)|exact (H4 1 "b" "c" eq_refl eq_refl)].
Defined.

(** The resident thought doc of [p] is freed. *)
Lemma freeThought_deallocates_witness :
  allFulfilled (AwPromise (thoughtIDBSynced residentState !! "p")) = Fulfilled ∧
  allFulfilled (AwPromise None) = Fulfilled ∧
  (let r := run allFulfilled (freeThought "p") residentState in
   r.2 = inl tt ∧ thoughtDocs r.1 !! "p" = None ∧ ("p" ∉ thoughtRetained r.1) ∧
   trace r.1 = trace residentState ++ [EvDestroyDoc 0] ++ [EvDestroyProvider 3]).
Proof.
  do 2 (split; [reflexivity|]).
  destruct (freeThought_deallocates residentState "p" allFulfilled eq_refl eq_refl)
    as (H1 & _ & (H3 & _ & _ & _ & _ & H3') & _ & _ & _ & _ & H8 & _).
  cbn zeta. split; [exact H1|]. split; [exact H3|]. split; [exact H3'|exact H8].
Defined.

(** The resident lexeme doc of [apple] is freed. *)
Lemma freeLexeme_deallocates_witness :
  allFulfilled (AwPromise (lexemeIDBSynced appleResident !! "apple")) = Fulfilled ∧
  allFulfilled (AwPromise None) = Fulfilled ∧
  (let r := run allFulfilled (freeLexeme "apple") appleResident in
   r.2 = inl tt ∧ lexemeDocs r.1 !! "apple" = None ∧ ("apple" ∉ lexemeRetained r.1) ∧
   trace r.1 = trace appleResident ++ [EvDestroyDoc 0] ++ [EvDestroyProvider 3]).
Proof.
  do 2 (split; [reflexivity|]).
  destruct (freeLexeme_deallocates appleResident "apple" allFulfilled eq_refl eq_refl)
    as (H1 & _ & (H3 & _ & _ & _ & _ & H3') & _ & _ & _ & _ & _ & H8 & _).
  cbn zeta. split; [exact H1|]. split; [exact H3|]. split; [exact H3'|exact H8].
Defined.

(** The IndexedDB sync of the doc of [p], which holds [a] with the children
    [b] and [c], is fulfilled. *)
Lemma sync_sets_docKeys_witness :
  docHeap familyState !! 0 = Some familyDoc ∧
  getChildren (Some familyDoc) = Some [familyThought] ∧
  Forall (fun child => is_Some (Thought.childrenMap child)) [familyThought] ∧
  NoDup (docKeyWrites "p" [familyThought]).*1 ∧
  (let r := exec (onThoughtIdbSynced sampleEnv "p" 0 (Some 3) (Some 4) defaultOptions
                    Fulfilled) familyState in
   r.2 = Done tt ∧ docKeys r.1 !! "a" = Some "p" ∧ docKeys r.1 !! "b" = Some "a" ∧
   docKeys r.1 !! "c" = Some "a").
Proof.
  assert (Forall (fun child => is_Some (Thought.childrenMap child)) [familyThought]) as Hwf
    by (repeat constructor; by eexists).
  assert (NoDup (docKeyWrites "p" [familyThought]).*1) as Hnd
    by (apply (bool_decide_unpack _); vm_compute; exact I).
  do 2 (split; [reflexivity|]). split; [exact Hwf|]. split; [exact Hnd|].
  destruct (sync_sets_docKeys sampleEnv familyState "p" 0 familyDoc [familyThought]
              (Some 3) (Some 4) defaultOptions eq_refl eq_refl Hwf Hnd)
    as (H1 & _ & H3 & H4 & _).
  cbn zeta. rewrite H1. cbn [fst snd]. split; [reflexivity|].
  assert (familyThought ∈ [familyThought]) as Hin by left.
  split; [|split].
  - exact (H3 familyThought Hin).
  - exact (H4 familyThought _ "b" Hin eq_refl (list_elem_of_here _ _)).
  - exact (H4 familyThought _ "c" Hin eq_refl
             (list_elem_of_further _ _ _ (list_elem_of_here _ _))).
Defined.

(** Another client changes the thought [a], which has the children [b] and
    [c]. *)
Lemma change_handlers_witness :
  getThought (docHeap familyState !! 0) "a" = Some familyThought ∧
  Thought.childrenMap familyThought = Some [("b", "b"); ("c", "c")] ∧
  (let r := exec (onThoughtChange "a" 0 false) familyState in
   r.2 = Done tt ∧ docKeys r.1 !! "b" = Some "a" ∧ docKeys r.1 !! "c" = Some "a" ∧
   docKeys r.1 !! "a" = docKeys familyState !! "a").
Proof.
  do 2 (split; [reflexivity|]).
  destruct (change_handlers sampleEnv familyState "a" 0 familyThought
              [("b", "b"); ("c", "c")] eq_refl eq_refl) as (H1 & _ & H3 & H4 & _).
  cbn zeta. split; [exact H1|]. split; [|split].
  - apply H3. left.
  - apply H3. right. left.
  - apply H4. apply (bool_decide_unpack _). vm_compute. exact I.
Defined.

(** The resident thought [p] is deleted. *)
Lemma deleteThought_removes_witness :
  configCache familyState = Some sampleConfig ∧
  (forall aw, allFulfilled aw = Fulfilled) ∧
  (let r := run allFulfilled (deleteThought sampleEnv "p") familyState in
   r.2 = inl tt ∧ docKeys r.1 !! "p" = None ∧ docKeys r.1 !! "a" = None ∧
   thoughtDocs r.1 !! "p" = None ∧
   trace r.1 = trace familyState ++ [EvClearData 1] ++ [EvDestroyDoc 0] ++
                 [EvDestroyProvider 3]).
Proof.
  assert (forall aw, allFulfilled aw = Fulfilled) as Hor by reflexivity.
  split; [reflexivity|]. split; [exact Hor|].
  destruct (deleteThought_removes sampleEnv familyState sampleConfig "p" allFulfilled
              eq_refl Hor)
    as (H1 & _ & _ & H4 & H5 & _ & _ & (H8 & _) & _ & H10).
  cbn zeta. split; [exact H1|]. split; [exact H4|]. split; [|split; [exact H8|exact H10]].
  apply (H5 familyThought). left.
Defined.

(** The IndexedDB sync of the doc of [apple], which holds the context [X],
    is fulfilled while [apple] is retained. *)
Lemma replicateLexeme_after_sync_witness :
  (forall aw, allFulfilled aw = Fulfilled) ∧
  docHeap appleWritten !! 0 = Some appleDoc ∧
  lexemeDocs appleWritten !! "apple" = Some 0 ∧
  isLexemeLoaded sampleConfig "apple" (getLexeme (Some appleDoc)) = false ∧
  (let r := run allFulfilled (replicateLexemeSynced sampleEnv "apple" false sampleConfig 0 3 4)
              appleWritten in
   r.2 = inl (Some appleInX) ∧ docKeys r.1 !! "X" = Some "P").
Proof.
  assert (forall aw, allFulfilled aw = Fulfilled) as Hor by reflexivity.
  split; [exact Hor|]. do 3 (split; [reflexivity|]).
  destruct (replicateLexeme_after_sync sampleEnv appleWritten sampleConfig "apple" 0 3 4
              appleDoc allFulfilled Hor eq_refl eq_refl eq_refl) as (H1 & _ & H3 & _).
  cbn zeta. split; [exact H1|]. rewrite H3. reflexivity.
Defined.

(** The IndexedDB sync of the doc of [p] is fulfilled in the foreground
    while [p] is retained. *)
Lemma replicateChildren_after_sync_witness :
  (forall aw, allFulfilled aw = Fulfilled) ∧
  docHeap familyState !! 0 = Some familyDoc ∧
  thoughtDocs familyState !! "p" = Some 0 ∧
  Forall (fun child => isThoughtLoaded sampleConfig child = false)
    (default [] (getChildren (Some familyDoc))) ∧
  (let r := run allFulfilled
              (replicateChildrenSynced "p" defaultOptions sampleConfig 0 (Some 4))
              familyState in
   r.2 = inl (Some [familyThought]) ∧
   r.1 = with_docHeap <[0 := observeThought "a" familyDoc]> familyState).
Proof.
  assert (forall aw, allFulfilled aw = Fulfilled) as Hor by reflexivity.
  assert (Forall (fun child => isThoughtLoaded sampleConfig child = false)
            (default [] (getChildren (Some familyDoc)))) as Hload
    by (apply Forall_forall; reflexivity).
  split; [exact Hor|]. do 2 (split; [reflexivity|]). split; [exact Hload|].
  destruct (replicateChildren_after_sync familyState sampleConfig "p" defaultOptions 0
              (Some 4) familyDoc allFulfilled Hor eq_refl eq_refl Hload)
    as (H1 & _ & H3 & _).
  cbn zeta. split; [exact H1|]. apply H3.
  apply (bool_decide_unpack _). vm_compute. exact I.
Defined.

(** The Lexemes [apple], [pear] and [apple] again are read in one batch. *)
Lemma getLexemesByIds_one_doc_per_key_witness :
  MODE sampleEnv ≠ "test" ∧ configCache sampleState = Some sampleConfig ∧
  Forall (fun k => isSpecialToken sampleEnv k = false) ["apple"; "pear"; "apple"] ∧
  (let r := getLexemesByIds sampleEnv ["apple"; "pear"; "apple"] sampleState in
   creations (trace r.1) =
     [EvNewDoc 0 "tsid/lexeme/apple"; EvNewPersistence 1 "tsid/lexeme/apple" 0;
      EvNewProvider 3 "tsid/lexeme/apple" 0;
      EvNewDoc 5 "tsid/lexeme/pear"; EvNewPersistence 6 "tsid/lexeme/pear" 5;
      EvNewProvider 8 "tsid/lexeme/pear" 5]).
Proof.
  assert (MODE sampleEnv ≠ "test") as Hmode by discriminate.
  assert (Forall (fun k => isSpecialToken sampleEnv k = false) ["apple"; "pear"; "apple"])
    as Hsp by (repeat constructor).
  split; [exact Hmode|]. split; [reflexivity|]. split; [exact Hsp|].
  destruct (getLexemesByIds_one_doc_per_key sampleEnv sampleState sampleConfig
              ["apple"; "pear"; "apple"] Hmode eq_refl Hsp) as (H1 & _).
  cbn zeta. rewrite H1. vm_compute. reflexivity.
Defined.

(** The siblings [a] and [b] and their cousin [c] are read in one batch. *)
Lemma getThoughtsByIds_one_doc_per_parent_witness :
  MODE sampleEnv ≠ "test" ∧ configCache siblingsState = Some sampleConfig ∧
  Forall2 (fun id k => docKeys siblingsState !! id = Some k ∧ Js.truthy k = true)
    ["a"; "b"; "c"] ["p"; "p"; "q"] ∧
  (let r := getThoughtsByIds sampleEnv ["a"; "b"; "c"] siblingsState in
   creations (trace r.1) =
     [EvNewDoc 0 "tsid/thought/p"; EvNewPersistence 1 "tsid/thought/p" 0;
      EvNewProvider 3 "tsid/thought/p" 0;
      EvNewDoc 5 "tsid/thought/q"; EvNewPersistence 6 "tsid/thought/q" 5;
      EvNewProvider 8 "tsid/thought/q" 5]).
Proof.
  assert (MODE sampleEnv ≠ "test") as Hmode by discriminate.
  assert (Forall2 (fun id k => docKeys siblingsState !! id = Some k ∧ Js.truthy k = true)
            ["a"; "b"; "c"] ["p"; "p"; "q"]) as Hdk by (repeat constructor).
  split; [exact Hmode|]. split; [reflexivity|]. split; [exact Hdk|].
  destruct (getThoughtsByIds_one_doc_per_parent sampleEnv siblingsState sampleConfig
              ["a"; "b"; "c"] ["p"; "p"; "q"] Hmode eq_refl Hdk) as (H1 & _).
  cbn zeta. rewrite H1. vm_compute. reflexivity.
Defined.



(** The thought [a] is read while the doc of its parent [p] is resident. *)
Lemma read_resident_thought_witness :
  (forall aw, allFulfilled aw = Fulfilled) ∧ configCache familyState = Some sampleConfig ∧
  docKeys familyState !! "a" = Some "p" ∧ Js.truthy "p" = true ∧
  thoughtDocs familyState !! "p" = Some 0 ∧ docHeap familyState !! 0 = Some familyDoc ∧
  wfDoc familyDoc ∧
  (forall child m, child ∈ default [] (getChildren (Some familyDoc)) ->
     Thought.childrenMap child = Some m -> "a" ∉ m.*2) ∧
  (let read := run allFulfilled (getThoughtById sampleEnv "a") familyState in
   read.2 = inl (Some familyThought) ∧ docKeys read.1 !! "a" = Some "p").
Proof.
  assert (forall aw, allFulfilled aw = Fulfilled) as Hor by reflexivity.
  assert (wfDoc familyDoc) as Hwf by (repeat constructor; by eexists).
  assert (forall child m, child ∈ default [] (getChildren (Some familyDoc)) ->
            Thought.childrenMap child = Some m -> "a" ∉ m.*2) as Hgrand.
  { intros child m Hin Hm.
    assert (default [] (getChildren (Some familyDoc)) = [familyThought]) as Hch
      by reflexivity.
    rewrite Hch in Hin. apply list_elem_of_singleton in Hin as ->.
    injection Hm as <-. apply (bool_decide_unpack _). vm_compute. exact I. }
  split; [exact Hor|]. do 5 (split; [reflexivity|]). split; [exact Hwf|].
  split; [exact Hgrand|].
  destruct (read_resident_thought sampleEnv familyState sampleConfig "a" "p" 0 familyDoc
              allFulfilled Hor eq_refl eq_refl eq_refl eq_refl eq_refl Hwf Hgrand)
    as (H1 & _ & _ & _ & _ & H6).
  cbn zeta. split; [exact H1|exact H6].
Defined.


(** The new Lexeme [apple] is written to its empty doc. *)
Lemma updateLexeme_keeps_well_formed_witness :
  lexemeDocs appleUnderP !! "apple" = Some 0 ∧
  docHeap appleUnderP !! 0 = Some (emptyDoc "tsid/lexeme/apple") ∧
  wfLexemeMap (lexemeMap (emptyDoc "tsid/lexeme/apple")) ∧
  Forall (storable (docKeys appleUnderP)) (addedContexts appleInX (default noLexeme None)) ∧
  (let r := exec (updateLexeme sampleEnv "apple" appleInX None) appleUnderP in
   exists d', docHeap r.1 !! 0 = Some d' ∧ wfLexemeMap (lexemeMap d') ∧
     storedContexts (lexemeMap d') ≡ₚ ["X"]).
Proof.
  assert (Forall (storable (docKeys appleUnderP))
            (addedContexts appleInX (default noLexeme None))) as Hadd
    by (repeat constructor).
  do 2 (split; [reflexivity|]). split; [exact wfLexemeMap_empty|]. split; [exact Hadd|].
  destruct (updateLexeme_keeps_well_formed sampleEnv appleUnderP "apple" 0
              (emptyDoc "tsid/lexeme/apple") appleInX None eq_refl eq_refl
              wfLexemeMap_empty Hadd) as (_ & d' & H1 & H2 & _ & H4).
  cbn zeta. exists d'. split; [exact H1|]. split; [exact H2|]. apply H4.
  - intros c. split; by intros ?%elem_of_nil.
  - apply (bool_decide_unpack _). vm_compute. exact I.
Defined.

(** The IndexedDB sync is aborted while the new Lexeme [apple] is saved. *)
Lemma updateLexeme_sync_failure_witness :
  lexemeDocs appleUnderP !! "apple" = Some 0 ∧
  docHeap appleUnderP !! 0 = Some (emptyDoc "tsid/lexeme/apple") ∧
  lexemePersistence appleUnderP !! "apple" = Some 1 ∧
  wfLexemeMap (lexemeMap (emptyDoc "tsid/lexeme/apple")) ∧
  Forall (storable (docKeys appleUnderP)) (addedContexts appleInX (default noLexeme None)) ∧
  (let r := exec (updateLexeme sampleEnv "apple" appleInX None) appleUnderP in
   awaits (AwWhenSynced (Some 1)) r.2 ∧
   resume r.2 (Rejected abortError) r.1 =
     (with_timers (fun l => l ++ [(IDB_ERROR_RETRY, TaUpdateLexeme "apple" appleInX None)])
        r.1, Done tt)).
Proof.
  assert (Forall (storable (docKeys appleUnderP))
            (addedContexts appleInX (default noLexeme None))) as Hadd
    by (repeat constructor).
  do 3 (split; [reflexivity|]). split; [exact wfLexemeMap_empty|]. split; [exact Hadd|].
  destruct (updateLexeme_sync_failure sampleEnv appleUnderP "apple" 0 1
              (emptyDoc "tsid/lexeme/apple") appleInX None eq_refl eq_refl eq_refl
              wfLexemeMap_empty Hadd) as (H1 & _ & H3 & _).
  cbn zeta. split; [exact H1|]. exact (H3 abortError _).
Defined.

(** The websocket sync of the doc of [apple], replicated in the background,
    is fulfilled while [apple] is loaded. *)
Lemma replicateLexeme_foregrounding_witness :
  (forall aw, allFulfilled aw = Fulfilled) ∧
  docHeap appleWritten !! 0 = Some appleDoc ∧
  isLexemeLoaded loadedConfig "apple" (getLexeme (Some appleDoc)) = true ∧
  (let r := run allFulfilled (replicateLexemeSynced sampleEnv "apple" true loadedConfig 0 3 4)
              appleWritten in
   r.2 = inl (Some appleInX) ∧
   lexemes r.1 = with_retained (fun r => {["apple"]} ∪ r) (lexemes appleWritten) ∧
   trace r.1 = trace appleWritten).
Proof.
  assert (forall aw, allFulfilled aw = Fulfilled) as Hor by reflexivity.
  split; [exact Hor|]. do 2 (split; [reflexivity|]).
  destruct (replicateLexeme_foregrounding sampleEnv appleWritten loadedConfig "apple" 0 3 4
              appleDoc allFulfilled Hor eq_refl eq_refl)
    as (H1 & H2 & _ & _ & _ & _ & H7 & _).
  cbn zeta. split; [exact H1|]. split; [exact H2|exact H7].
Defined.

(** The websocket sync of the doc of [p], replicated in the background, is
    fulfilled while its child [a] is loaded. *)
Lemma replicateChildren_foregrounding_witness :
  (forall aw, allFulfilled aw = Fulfilled) ∧
  docHeap familyState !! 0 = Some familyDoc ∧ wfDoc familyDoc ∧
  List.filter (isThoughtLoaded loadedConfig) (default [] (getChildren (Some familyDoc))) ≠ [] ∧
  (let r := run allFulfilled
              (replicateChildrenSynced "p" (mkOptions true false true) loadedConfig 0 (Some 4))
              familyState in
   r.2 = inl (Some [familyThought]) ∧
   docKeys r.1 = <["c" := "a"]> (<["b" := "a"]> (docKeys familyState)) ∧
   floating r.1 = floating familyState ++ [FlOnThoughtChange familyThought]).
Proof.
  assert (forall aw, allFulfilled aw = Fulfilled) as Hor by reflexivity.
  assert (wfDoc familyDoc) as Hwf by (apply (bool_decide_unpack _); vm_compute; exact I).
  assert (List.filter (isThoughtLoaded loadedConfig)
            (default [] (getChildren (Some familyDoc))) ≠ []) as Hne
    by (vm_compute; discriminate).
  split; [exact Hor|]. split; [reflexivity|]. split; [exact Hwf|]. split; [exact Hne|].
  destruct (replicateChildren_foregrounding familyState loadedConfig "p"
              (mkOptions true false true) 0 (Some 4) familyDoc allFulfilled Hor eq_refl
              eq_refl eq_refl Hwf Hne)
    as (H1 & _ & _ & _ & H5 & H6 & _).
  cbn zeta. split; [exact H1|]. split; [exact H5|exact H6].
Defined.

(** [updateLexeme] is called for the home context with a Lexeme whose
    context [X] has no docKey. *)
Lemma updateLexeme_special_token_witness :
  ("__ROOT__" = HOME_TOKEN sampleEnv ∨ "__ROOT__" = EM_TOKEN sampleEnv ∨
   "__ROOT__" = ABSOLUTE_TOKEN sampleEnv) ∧
  lexemeDocs sampleState !! "__ROOT__" = None ∧
  docKeys sampleState !! "X" = None ∧
  run allFulfilled (updateLexeme sampleEnv "__ROOT__" appleInX None) sampleState =
    (sampleState, inl tt).
Proof.
  split; [left; reflexivity|]. do 2 (split; [reflexivity|]).
  exact (proj1 (updateLexeme_special_token sampleEnv sampleState "__ROOT__" appleInX None
                  allFulfilled (or_introl eq_refl) eq_refl)).
Defined.
